(** * Verification of the operation-catalog validators

    Shallow embedding of [scripts/validate-dependencies.py] and
    [scripts/validate-schema.py].  The Python values that
    [yaml.safe_load] hands to the scripts are modelled by [value];
    Python exceptions are explicit results. *)

From Stdlib Require Import ZArith List String Ascii Bool Lia Arith.
From Stdlib Require Import DecimalString Relations.
Import ListNotations.
Local Open Scope string_scope.
Local Open Scope list_scope.

(** ** Python values and builtins *)

Module Py.

#[local] Set Warnings "-register-all".

(** A deserialised YAML document: null, booleans, integers, strings,
    sequences and string-keyed mappings (insertion ordered). *)
Inductive value : Type :=
| VNull
| VBool (b : bool)
| VInt (z : Z)
| VStr (s : string)
| VList (l : list value)
| VDict (d : list (string * value)).

(** Exceptions the scripts can meet.  [LoadError] and [YAMLError] come
    from [open] and [yaml.safe_load]; [RecursionError] is raised by
    the interpreter when calls nest deeper than it allows; the others
    are raised by the builtins on a value of the named type. *)
Inductive pyexn : Type :=
| YAMLError (msg : string)
| LoadError (msg : string)
| AttributeError (tyname attr : string)
| NotIterable (tyname : string)
| NotSubscriptable (tyname : string)
| BadIndex (tyname : string)
| KeyError (key : string)
| Unhashable (tyname : string)
| NoLen (tyname : string)
| JoinNonStr (tyname : string)
| RecursionError.

Inductive res (A : Type) : Type :=
| Ok (a : A)
| Raise (e : pyexn)
| OutOfFuel.
Arguments Ok {A} a.
Arguments Raise {A} e.
Arguments OutOfFuel {A}.

Definition bind {A B : Type} (m : res A) (k : A -> res B) : res B :=
  match m with
  | Ok a => k a
  | Raise e => Raise e
  | OutOfFuel => OutOfFuel
  end.

(** [bool(v)] *)
Definition truthy (v : value) : bool :=
  match v with
  | VNull => false
  | VBool b => b
  | VInt z => negb (Z.eqb z 0)
  | VStr s => negb (String.eqb s "")
  | VList l => match l with [] => false | _ => true end
  | VDict d => match d with [] => false | _ => true end
  end.

(** [type(v).__name__] *)
Definition type_name (v : value) : string :=
  match v with
  | VNull => "NoneType"
  | VBool _ => "bool"
  | VInt _ => "int"
  | VStr _ => "str"
  | VList _ => "list"
  | VDict _ => "dict"
  end.

Definition is_dict (v : value) : bool :=
  match v with VDict _ => true | _ => false end.

Definition is_list (v : value) : bool :=
  match v with VList _ => true | _ => false end.

Definition is_str (v : value) : bool :=
  match v with VStr _ => true | _ => false end.

(** [isinstance(v, int)]: [bool] is a subclass of [int]. *)
Definition is_int (v : value) : bool :=
  match v with VInt _ | VBool _ => true | _ => false end.

(** [isinstance(v, bool)] *)
Definition is_bool (v : value) : bool :=
  match v with VBool _ => true | _ => false end.

(** The integer an [int] instance stands for ([True] is 1). *)
Definition int_val (v : value) : Z :=
  match v with
  | VInt z => z
  | VBool true => 1%Z
  | _ => 0%Z
  end.

Definition hashable (v : value) : bool :=
  match v with VList _ | VDict _ => false | _ => true end.

(** [a == b] where one side is a hashable scalar: numbers compare by
    value, strings by content; a sequence or mapping equals no scalar. *)
Definition py_eqb (a b : value) : bool :=
  match a, b with
  | VNull, VNull => true
  | VStr s, VStr t => String.eqb s t
  | (VInt _ | VBool _), (VInt _ | VBool _) => Z.eqb (int_val a) (int_val b)
  | _, _ => false
  end.

(** [x in l] for a list [l] of scalars *)
Definition py_in (x : value) (l : list value) : bool :=
  existsb (py_eqb x) l.

(** [l1 == l2] for lists of scalars *)
Fixpoint list_eqb (l1 l2 : list value) : bool :=
  match l1, l2 with
  | [], [] => true
  | a :: r1, b :: r2 => py_eqb a b && list_eqb r1 r2
  | _, _ => false
  end.

(** [l.index(x)], used only under the guard [x in l] *)
Fixpoint py_index (x : value) (l : list value) : nat :=
  match l with
  | [] => 0
  | y :: r => if py_eqb y x then 0 else S (py_index x r)
  end.

(** Lookup in a mapping with string keys. *)
Fixpoint dict_lookup (k : string) (d : list (string * value)) : option value :=
  match d with
  | [] => None
  | (k', v) :: r => if String.eqb k k' then Some v else dict_lookup k r
  end.

Definition dict_has (k : string) (d : list (string * value)) : bool :=
  match dict_lookup k d with Some _ => true | None => false end.

(** [d.get(k, dflt)] on a mapping *)
Definition dict_get (d : list (string * value)) (k : string) (dflt : value) : value :=
  match dict_lookup k d with Some v => v | None => dflt end.

(** [needle in haystack] on strings *)
Definition substring_in (needle haystack : string) : bool :=
  match String.index 0 needle haystack with Some _ => true | None => false end.

(** [k in c] with a string [k]: key test on a mapping, membership in a
    sequence, substring test on a string, [TypeError] otherwise. *)
Definition py_contains (k : string) (c : value) : res bool :=
  match c with
  | VDict d => Ok (dict_has k d)
  | VList l => Ok (py_in (VStr k) l)
  | VStr s => Ok (substring_in k s)
  | _ => Raise (NotIterable (type_name c))
  end.

(** [c[k]] with a string [k] *)
Definition py_getitem (c : value) (k : string) : res value :=
  match c with
  | VDict d =>
      match dict_lookup k d with
      | Some v => Ok v
      | None => Raise (KeyError k)
      end
  | VList _ | VStr _ => Raise (BadIndex (type_name c))
  | _ => Raise (NotSubscriptable (type_name c))
  end.

(** [c.get(k, dflt)]: only mappings have the method. *)
Definition py_get (c : value) (k : string) (dflt : value) : res value :=
  match c with
  | VDict d => Ok (dict_get d k dflt)
  | _ => Raise (AttributeError (type_name c) "get")
  end.

(** [len(v)] *)
Definition py_len (v : value) : res nat :=
  match v with
  | VList l => Ok (List.length l)
  | VDict d => Ok (List.length d)
  | VStr s => Ok (String.length s)
  | _ => Raise (NoLen (type_name v))
  end.

(** [str(n)] for integers *)
Definition str_of_Z (z : Z) : string := NilZero.string_of_int (Z.to_int z).
Definition str_of_nat (n : nat) : string := NilZero.string_of_uint (Nat.to_uint n).

(** What [open] followed by [yaml.safe_load] gives for one file. *)
Inductive load_outcome : Type :=
| ParseFails (msg : string)      (* yaml.YAMLError *)
| ReadFails (msg : string)       (* any other exception, e.g. OSError *)
| Loaded (data : value).

End Py.
Import Py.

(** ** validate-dependencies.py *)

Module Deps.

(** The record [load_operations] stores per operation id. *)
Record op_data : Type := mk_op {
  file : string;
  name : value;
  requires : value;
  capability : value
}.

(** [Dict[str, Dict]]: insertion-ordered, keyed by the operation id. *)
Definition operations := list (value * op_data).

Definition keys (ops : operations) : list value := map fst ops.

(** [operations.get(node)] *)
Fixpoint ops_get (ops : operations) (k : value) : option op_data :=
  match ops with
  | [] => None
  | (k', d) :: r => if py_eqb k' k then Some d else ops_get r k
  end.

(** [operations[k] = d]: an existing key keeps its position. *)
Fixpoint ops_set (ops : operations) (k : value) (d : op_data) : operations :=
  match ops with
  | [] => [(k, d)]
  | (k', d') :: r =>
      if py_eqb k' k then (k', d) :: r else (k', d') :: ops_set r k d
  end.

(** [k in s] for a dict or set [s] with keys [ks]: [k] is hashed first. *)
Definition key_in (k : value) (ks : list value) : res bool :=
  if hashable k then Ok (py_in k ks) else Raise (Unhashable (type_name k)).

(** [s.add(x)] on a set kept in insertion order; [x] has been hashed
    before wherever the scripts add it. *)
Definition set_add (x : value) (s : list value) : list value :=
  if py_in x s then s else s ++ [x].

(** The per-file body of [load_operations], inside its [try]:
    [None] is [continue]. *)
Definition load_one (path : string) (data : value)
  : res (option (value * op_data)) :=
  if negb (truthy data) then Ok None else
  bind (py_contains "operation" data) (fun has =>
  if negb has then Ok None else
  bind (py_getitem data "operation") (fun operation =>
  bind (py_get operation "id" VNull) (fun op_id =>
  if negb (truthy op_id) then Ok None else
  bind (py_get operation "name" (VStr "Unknown")) (fun nm =>
  bind (py_get operation "requires" (VList [])) (fun rq =>
  bind (py_get operation "capability" (VStr "unknown")) (fun cap =>
  if hashable op_id
  then Ok (Some (op_id, mk_op path nm rq cap))
  else Raise (Unhashable (type_name op_id)))))))).

(** [load_operations]: a file that fails to load, has no [operation]
    key or no id, or raises anything, leaves [operations] unchanged. *)
Fixpoint load_operations_from (acc : operations)
         (files : list (string * load_outcome)) : operations :=
  match files with
  | [] => acc
  | (path, out) :: rest =>
      match out with
      | Loaded data =>
          match load_one path data with
          | Ok (Some (k, d)) => load_operations_from (ops_set acc k d) rest
          | _ => load_operations_from acc rest
          end
      | _ => load_operations_from acc rest
      end
  end.

Definition load_operations (files : list (string * load_outcome)) : operations :=
  load_operations_from [] files.

(** The id a [requires] entry names: the [operation] field of a
    mapping, the entry itself otherwise. *)
Definition resolve (dep : value) : value :=
  match dep with
  | VDict d => dict_get d "operation" (VStr "")
  | _ => dep
  end.

(** The inner loop of [find_missing_dependencies]. *)
Fixpoint missing_in (all_ids : list value) (op_id : value) (f : string)
         (deps : list value) : res (list (value * value * string)) :=
  match deps with
  | [] => Ok []
  | dep :: rest =>
      let dep_id := resolve dep in
      if truthy dep_id then
        bind (key_in dep_id all_ids) (fun known =>
        bind (missing_in all_ids op_id f rest) (fun m =>
        Ok (if known then m else (op_id, dep_id, f) :: m)))
      else missing_in all_ids op_id f rest
  end.

Fixpoint find_missing_loop (all_ids : list value) (items : operations)
  : res (list (value * value * string)) :=
  match items with
  | [] => Ok []
  | (op_id, op) :: rest =>
      bind (match requires op with
            | VList l => missing_in all_ids op_id (file op) l
            | _ => Ok []
            end) (fun m1 =>
      bind (find_missing_loop all_ids rest) (fun m2 => Ok (m1 ++ m2)))
  end.

Definition find_missing_dependencies (ops : operations)
  : res (list (value * value * string)) :=
  find_missing_loop (keys ops) ops.

(** State of [detect_circular_dependencies]: the closure variables
    [cycles] and [visited_global], the arguments [visited] and
    [rec_stack] that one root's search shares by reference, and
    [calls], a log of the nodes [dfs] was called on in the current
    search (not in the script; it is what the visit counts are
    stated on). *)
Record dfs_state : Type := mk_state {
  visited : list value;
  visited_global : list value;
  rec_stack : list value;
  cycles : list (list value);
  calls : list value
}.

(** The first three statements of [dfs]. *)
Definition enter (node : value) (st : dfs_state) : dfs_state :=
  mk_state (set_add node (visited st))
           (set_add node (visited_global st))
           (rec_stack st ++ [node])
           (cycles st)
           (calls st ++ [node]).

(** [rec_stack.pop()] *)
Definition pop (st : dfs_state) : dfs_state :=
  mk_state (visited st) (visited_global st) (removelast (rec_stack st))
           (cycles st) (calls st).

(** The branch [elif dep in rec_stack]. *)
Definition record_cycle (dep : value) (st : dfs_state) : dfs_state :=
  let cycle_start := py_index dep (rec_stack st) in
  let cycle := skipn cycle_start (rec_stack st) ++ [dep] in
  if existsb (list_eqb cycle) (cycles st) then st
  else mk_state (visited st) (visited_global st) (rec_stack st)
                (cycles st ++ [cycle]) (calls st).

(** The loop over [requires] in [dfs]; [rec] is the recursive call. *)
Fixpoint dfs_deps (ops : operations) (rec : value -> dfs_state -> res dfs_state)
         (deps : list value) (st : dfs_state) : res dfs_state :=
  match deps with
  | [] => Ok st
  | dep0 :: rest =>
      let dep := resolve dep0 in
      if negb (truthy dep) then dfs_deps ops rec rest st else
      bind (key_in dep (keys ops)) (fun known =>
      if negb known then dfs_deps ops rec rest st else
      if negb (py_in dep (visited st)) then
        bind (rec dep st) (dfs_deps ops rec rest)
      else if py_in dep (rec_stack st) then
        dfs_deps ops rec rest (record_cycle dep st)
      else dfs_deps ops rec rest st)
  end.

(** [operations.get(node, {}).get('requires', [])], as a list when it
    is one. *)
Definition requires_of (ops : operations) (node : value) : list value :=
  match ops_get ops node with
  | Some d => match requires d with VList l => l | _ => [] end
  | None => []
  end.

(** [dfs].  [fuel] is the number of nested calls of [dfs] the
    interpreter still allows (its recursion limit less the frames in
    use); a call beyond it raises [RecursionError], which nothing in
    the script catches. *)
Fixpoint dfs (ops : operations) (fuel : nat) (node : value) (st : dfs_state)
  : res dfs_state :=
  match fuel with
  | O => Raise RecursionError
  | S f =>
      bind (dfs_deps ops (dfs ops f) (requires_of ops node) (enter node st))
           (fun st' => Ok (pop st'))
  end.

(** The loop over the roots.  The accumulator carries [visited_global],
    [cycles] and the log: one pair of a root and the nodes its search
    called [dfs] on. *)
Fixpoint roots_loop (ops : operations) (fuel : nat) (roots : list value)
         (vg : list value) (cyc : list (list value))
         (log : list (value * list value))
  : res (list (list value) * list (value * list value)) :=
  match roots with
  | [] => Ok (cyc, log)
  | op_id :: rest =>
      if py_in op_id vg then roots_loop ops fuel rest vg cyc log
      else
        bind (dfs ops fuel op_id (mk_state [] vg [] cyc []))
             (fun st => roots_loop ops fuel rest (visited_global st)
                                   (cycles st) (log ++ [(op_id, calls st)]))
  end.

(** [detect_circular_dependencies] with its log of searches, run
    where the interpreter allows [depth] nested calls of [dfs]. *)
Definition detect_run (depth : nat) (ops : operations)
  : res (list (list value) * list (value * list value)) :=
  roots_loop ops depth (keys ops) [] [] [].

Definition detect_circular_dependencies (depth : nat) (ops : operations)
  : res (list (list value)) :=
  bind (detect_run depth ops) (fun r => Ok (fst r)).

(** The dictionary [build_dependency_stats] returns. *)
Record stats : Type := mk_stats {
  total_operations : nat;
  operations_with_deps : nat;
  total_dependencies : nat;
  max_dependencies : nat;
  most_dependent_op : option value
}.

Fixpoint stats_loop (items : operations) (st : stats) : res stats :=
  match items with
  | [] => Ok st
  | (op_id, op) :: rest =>
      let rq := requires op in
      if truthy rq then
        bind (py_len rq) (fun n =>
        if Nat.ltb 0 n then
          let st1 := mk_stats (total_operations st)
                              (S (operations_with_deps st))
                              (total_dependencies st + n)
                              (max_dependencies st)
                              (most_dependent_op st) in
          stats_loop rest
            (if Nat.ltb (max_dependencies st1) n
             then mk_stats (total_operations st1) (operations_with_deps st1)
                           (total_dependencies st1) n (Some op_id)
             else st1)
        else stats_loop rest st)
      else stats_loop rest st
  end.

Definition build_dependency_stats (ops : operations) : res stats :=
  stats_loop ops (mk_stats (List.length ops) 0 0 0 None).

(** [' -> '.join(cycle)]: every element must be a string. *)
Fixpoint join_strs (sep : string) (l : list value) : res string :=
  match l with
  | [] => Ok ""
  | v :: rest =>
      match v with
      | VStr s =>
          match rest with
          | [] => Ok s
          | _ => bind (join_strs sep rest) (fun t => Ok (s ++ sep ++ t)%string)
          end
      | _ => Raise (JoinNonStr (type_name v))
      end
  end.

Fixpoint print_cycles (cs : list (list value)) : res unit :=
  match cs with
  | [] => Ok tt
  | c :: rest => bind (join_strs " -> " c) (fun _ => print_cycles rest)
  end.

(** [main], reduced to what decides the exit status: the path test,
    the matched files, and the three analyses in the order they run.
    [Raise] is an exception that leaves [main]; [depth] is the
    number of nested calls of [dfs] the interpreter allows. *)
Definition main (depth : nat) (path_exists : bool)
           (all_files : list (string * load_outcome))
  : res Z :=
  if negb path_exists then Ok 1%Z else
  match all_files with
  | [] => Ok 1%Z
  | _ =>
      let ops := load_operations all_files in
      bind (find_missing_dependencies ops) (fun missing_deps =>
      let has_errors1 := match missing_deps with [] => false | _ => true end in
      bind (detect_circular_dependencies depth ops) (fun circular_deps =>
      bind (print_cycles circular_deps) (fun _ =>
      let has_errors := match circular_deps with
                        | [] => has_errors1 | _ => true end in
      bind (build_dependency_stats ops) (fun _ =>
      Ok (if has_errors then 1%Z else 0%Z)))))
  end.

(** The exit status of the process: the argument of [sys.exit], or 1
    when an exception leaves [main] and the interpreter ends with a
    traceback. *)
Definition exit_status (r : res Z) : Z :=
  match r with
  | Ok z => z
  | _ => 1%Z
  end.

End Deps.

(** ** validate-schema.py *)

Module Schema.

Infix "+++" := String.append (right associativity, at level 60).

Definition REQUIRED_FIELDS : list string :=
  [ "operation.id";
    "operation.name";
    "operation.description";
    "operation.capability";
    "operation.operation_mode";
    "operation.resource_type";
    "operation.duration.expected";
    "operation.duration.timeout";
    "operation.duration.type";
    "operation.template.type";
    "operation.template.command" ].

Definition VALID_OPERATION_MODES : list string :=
  [ "create"; "configure"; "validate"; "update"; "delete"; "read";
    "modify"; "adopt"; "assign"; "verify"; "add"; "remove"; "drain" ].

Definition VALID_DURATION_TYPES : list string :=
  [ "FAST"; "NORMAL"; "WAIT"; "LONG" ].

Definition VALID_CAPABILITIES : list string :=
  [ "networking"; "storage"; "identity"; "compute"; "avd"; "management";
    "test-capability" ].

Definition VALID_TEMPLATE_TYPES : list string :=
  [ "powershell-local"; "powershell-remote"; "powershell-vm-command";
    "azure-cli"; "bash"; "bash-script" ].

Definition OPTIONAL_BOOLEAN_FIELDS : list string :=
  [ "validation.enabled"; "idempotency.enabled"; "rollback.enabled" ].

(** [s.split(sep)] for a one-character separator *)
Fixpoint split_on (sep : ascii) (s : string) : list string :=
  match s with
  | EmptyString => [""]
  | String c r =>
      if Ascii.eqb c sep then "" :: split_on sep r
      else match split_on sep r with
           | h :: t => String c h :: t
           | [] => [String c ""]
           end
  end.

Fixpoint get_nested (current : value) (parts : list string) : value * bool :=
  match parts with
  | [] => (current, true)
  | part :: rest =>
      match current with
      | VDict d =>
          match dict_lookup part d with
          | Some v => get_nested v rest
          | None => (VNull, false)
          end
      | _ => (VNull, false)
      end
  end.

Definition get_nested_value (data : value) (path : string) : value * bool :=
  get_nested data (split_on "." path).

(** [c.isspace()] for a character below code point 256, the only
    characters a string of this development holds: the whitespace that
    [str.strip()] removes in that range is 9-13, 28-32, 133 and 160.
    The whitespace above 255 (U+1680, U+2000-U+200A, U+2028, U+2029,
    U+202F, U+205F, U+3000) cannot occur in these strings. *)
Definition is_space (c : ascii) : bool :=
  let n := nat_of_ascii c in
  (Nat.leb 9 n && Nat.leb n 13) || (Nat.leb 28 n && Nat.leb n 32)
  || Nat.eqb n 133 || Nat.eqb n 160.

Fixpoint lstrip (s : string) : string :=
  match s with
  | EmptyString => ""
  | String c r => if is_space c then lstrip r else s
  end.

Fixpoint rstrip (s : string) : string :=
  match s with
  | EmptyString => ""
  | String c r =>
      match rstrip r with
      | EmptyString => if is_space c then "" else String c ""
      | t => String c t
      end
  end.

(** [s.strip()] *)
Definition strip (s : string) : string := rstrip (lstrip s).

(** [value is None or (isinstance(value, str) and value.strip() == '')] *)
Definition is_blank (v : value) : bool :=
  match v with
  | VNull => true
  | VStr s => String.eqb (strip s) ""
  | _ => false
  end.

(** One round of the loop over [REQUIRED_FIELDS]. *)
Definition required_msg (data : value) (field_path : string) : list string :=
  let (v, exists_) := get_nested_value data field_path in
  if negb exists_ then ["Missing required field: " +++ field_path]
  else if is_blank v then ["Empty value for required field: " +++ field_path]
  else [].

Definition check_required (data : value) : list string :=
  flat_map (required_msg data) REQUIRED_FIELDS.

(** Computations of the [try] block: the messages appended to
    [errors] and how the computation ended. *)
Definition M (A : Type) : Type := (list string * res A)%type.

Definition ret {A : Type} (a : A) : M A := ([], Ok a).

Definition mbind {A B : Type} (m : M A) (k : A -> M B) : M B :=
  match m with
  | (w, Ok a) => let (w', r) := k a in (w ++ w', r)
  | (w, Raise e) => (w, Raise e)
  | (w, OutOfFuel) => (w, OutOfFuel)
  end.

(** [errors.append(msg)] *)
Definition tell (msg : string) : M unit := ([msg], Ok tt).

Definition lift {A : Type} (r : res A) : M A := ([], r).

Definition when (b : bool) (m : M unit) : M unit := if b then m else ret tt.

Declare Scope schema_scope.
Delimit Scope schema_scope with schema.
Notation "x <- m ;; k" := (mbind m (fun x => k))
  (at level 61, m at next level, right associativity) : schema_scope.
Notation "m ;; k" := (mbind m (fun _ => k))
  (at level 61, right associativity) : schema_scope.
Local Open Scope schema_scope.

Section Validator.

(** [repr] of a sequence or mapping, and the text [str(e)] of an
    exception: both belong to the Python runtime. *)
Variable py_repr : value -> string.
Variable exn_text : pyexn -> string.

(** [str(v)], as an f-string formats [v] *)
Definition py_str (v : value) : string :=
  match v with
  | VNull => "None"
  | VBool true => "True"
  | VBool false => "False"
  | VInt z => str_of_Z z
  | VStr s => s
  | VList _ | VDict _ => py_repr v
  end.

(** [v not in allowed] followed by the append of the enum message. *)
Definition check_enum (label : string) (allowed : list string) (v : value)
  : M unit :=
  when (negb (py_in v (map VStr allowed)))
       (tell ("Invalid " +++ label +++ ": '" +++ py_str v +++
              "' (must be one of: " +++ String.concat ", " allowed +++ ")")).

(** The checks of one of [duration.expected], [duration.timeout]. *)
Definition check_duration_int (key : string) (duration : value) : M unit :=
  has <- lift (py_contains key duration) ;;
  when has (
    v <- lift (py_getitem duration key) ;;
    if negb (is_int v) then
      tell ("duration." +++ key +++ " must be integer, got: " +++ type_name v)
    else
      when (Z.leb (int_val v) 0)
           (tell ("duration." +++ key +++ " must be positive, got: " +++ py_str v))).

Definition check_duration_order (duration : value) : M unit :=
  has_e <- lift (py_contains "expected" duration) ;;
  when has_e (
    has_t <- lift (py_contains "timeout" duration) ;;
    when has_t (
      e <- lift (py_getitem duration "expected") ;;
      t <- lift (py_getitem duration "timeout") ;;
      when (is_int e && is_int t) (
        when (Z.ltb (int_val t) (int_val e))
             (tell ("duration.timeout (" +++ py_str t +++
                    ") should be >= duration.expected (" +++ py_str e +++ ")"))))).

Definition check_duration (operation : value) : M unit :=
  has <- lift (py_contains "duration" operation) ;;
  when has (
    duration <- lift (py_getitem operation "duration") ;;
    has_type <- lift (py_contains "type" duration) ;;
    when has_type (
      dtype <- lift (py_getitem duration "type") ;;
      check_enum "duration.type" VALID_DURATION_TYPES dtype) ;;
    check_duration_int "expected" duration ;;
    check_duration_int "timeout" duration ;;
    check_duration_order duration).

Definition check_field_enum (key label : string) (allowed : list string)
           (operation : value) : M unit :=
  has <- lift (py_contains key operation) ;;
  when has (
    v <- lift (py_getitem operation key) ;;
    check_enum label allowed v).

Definition check_template (operation : value) : M unit :=
  has <- lift (py_contains "template" operation) ;;
  when has (
    template <- lift (py_getitem operation "template") ;;
    check_field_enum "type" "template.type" VALID_TEMPLATE_TYPES template).

(** One round of the loop over [OPTIONAL_BOOLEAN_FIELDS]. *)
Definition optional_bool_msg (data : value) (field_path : string) : list string :=
  let (v, exists_) := get_nested_value data field_path in
  match v with
  | VNull => []
  | _ => if exists_ && negb (is_bool v)
         then [field_path +++ " must be boolean, got: " +++ type_name v]
         else []
  end.

Definition check_optional_bools (data : value) : M unit :=
  (flat_map (optional_bool_msg data) OPTIONAL_BOOLEAN_FIELDS, Ok tt).

(** [if key not in d: errors.append(prefix missing 'key')] on a mapping *)
Definition missing_key_msg (prefix key : string) (d : list (string * value))
  : list string :=
  if dict_has key d then [] else [prefix +++ " missing '" +++ key +++ "'"].

(** The loop [for i, param in enumerate(params[param_type])]. *)
Fixpoint check_param_items (param_type : string) (i : nat) (items : list value)
  : list string :=
  match items with
  | [] => []
  | param :: rest =>
      let prefix :=
        "operation.parameters." +++ param_type +++ "[" +++ str_of_nat i +++ "]" in
      (match param with
       | VDict d =>
           missing_key_msg prefix "name" d ++ missing_key_msg prefix "type" d
           ++ missing_key_msg prefix "description" d
       | _ => [prefix +++ " must be a dictionary"]
       end) ++ check_param_items param_type (S i) rest
  end.

Definition check_param_list (params : list (string * value)) (param_type : string)
  : list string :=
  match dict_lookup param_type params with
  | None => []
  | Some (VList items) => check_param_items param_type 0 items
  | Some _ => ["operation.parameters." +++ param_type +++ " must be a list"]
  end.

Definition check_parameters (operation : value) : M unit :=
  has <- lift (py_contains "parameters" operation) ;;
  when has (
    params <- lift (py_getitem operation "parameters") ;;
    match params with
    | VDict d =>
        when (negb (dict_has "required" d) && negb (dict_has "optional" d))
             (tell "operation.parameters should have 'required' and/or 'optional' keys") ;;
        (check_param_list d "required" ++ check_param_list d "optional", Ok tt)
    | _ => tell "operation.parameters must be a dictionary"
    end).

(** The loop [for i, step in enumerate(rollback['steps'])]. *)
Fixpoint check_rollback_steps (i : nat) (steps : list value) : list string :=
  match steps with
  | [] => []
  | step :: rest =>
      let prefix := "operation.rollback.steps[" +++ str_of_nat i +++ "]" in
      (match step with
       | VDict d => missing_key_msg prefix "name" d ++ missing_key_msg prefix "command" d
       | _ => [prefix +++ " must be a dictionary"]
       end) ++ check_rollback_steps (S i) rest
  end.

Definition check_rollback (operation : value) : M unit :=
  has <- lift (py_contains "rollback" operation) ;;
  when has (
    rollback <- lift (py_getitem operation "rollback") ;;
    match rollback with
    | VDict d =>
        when (dict_has "enabled" d && truthy (dict_get d "enabled" VNull)) (
          match dict_lookup "steps" d with
          | None => tell "operation.rollback.steps required when enabled=true"
          | Some (VList steps) => (check_rollback_steps 0 steps, Ok tt)
          | Some _ => tell "operation.rollback.steps must be a list"
          end)
    | _ => tell "operation.rollback must be a dictionary"
    end).

Definition check_validation_list (d : list (string * value)) (key : string)
  : list string :=
  match dict_lookup key d with
  | None | Some (VList _) => []
  | Some _ => ["operation.validation." +++ key +++ " must be a list"]
  end.

Definition check_validation (operation : value) : M unit :=
  has <- lift (py_contains "validation" operation) ;;
  when has (
    validation <- lift (py_getitem operation "validation") ;;
    match validation with
    | VDict d =>
        (check_validation_list d "checks" ++ check_validation_list d "pre_checks"
         ++ check_validation_list d "post_checks", Ok tt)
    | _ => tell "operation.validation must be a dictionary"
    end).

(** Everything in the [try] block after the required-field loop. *)
Definition check_rest (data : value) : M unit :=
  operation <- lift (py_get data "operation" (VDict [])) ;;
  check_field_enum "operation_mode" "operation_mode" VALID_OPERATION_MODES operation ;;
  check_field_enum "capability" "capability" VALID_CAPABILITIES operation ;;
  check_duration operation ;;
  check_template operation ;;
  check_optional_bools data ;;
  check_parameters operation ;;
  check_rollback operation ;;
  check_validation operation.

(** The [try] block of [validate_operation]: [open] and
    [yaml.safe_load] have produced [out]; [None] is the early
    [return errors]. *)
Definition validate_body (out : load_outcome) : M (option unit) :=
  match out with
  | ParseFails msg => lift (Raise (YAMLError msg))
  | ReadFails msg => lift (Raise (LoadError msg))
  | Loaded data =>
      if negb (truthy data) then
        tell "Empty or invalid YAML file" ;; ret None
      else
        (check_required data, Ok tt) ;;
        check_rest data ;;
        ret (Some tt)
  end.

(** [str(e)]: an exception of [open] or of the parser carries its
    message. *)
Definition exn_str (e : pyexn) : string :=
  match e with
  | YAMLError msg | LoadError msg => msg
  | _ => exn_text e
  end.

(** The two [except] clauses of [validate_operation]: what they
    append for the way the block ended. *)
Definition except_msgs {A : Type} (r : res A) : list string :=
  match r with
  | Raise (YAMLError msg) => ["YAML parsing error: " +++ msg]
  | Raise e => ["Unexpected error: " +++ exn_str e]
  | _ => []
  end.

(** [validate_operation]: the messages of the block, then the one of
    the [except] clause that caught what it raised. *)
Definition validate_operation (out : load_outcome) : list string :=
  let (errors, r) := validate_body out in
  errors ++ except_msgs r.

(** [main], reduced to what decides the exit status. *)
Definition main (path_exists : bool) (all_files : list (string * load_outcome))
  : Z :=
  if negb path_exists then 1%Z else
  match all_files with
  | [] => 1%Z
  | _ =>
      let failed :=
        List.length (filter (fun f => match validate_operation (snd f) with
                                      | [] => false | _ => true end) all_files) in
      if Nat.ltb 0 failed then 1%Z else 0%Z
  end.

End Validator.

End Schema.

(** * Vocabulary of the statements *)

Module Spec.
Import Schema.
Local Open Scope schema_scope.

(** A message of the required-field loop starts with [M] or [E]. *)
Definition required_head (m : string) : bool :=
  match m with
  | String c _ => Ascii.eqb c "M" || Ascii.eqb c "E"
  | EmptyString => false
  end.

(** A message about the values of [duration.expected] and
    [duration.timeout] starts with [duration.]. *)
Definition duration_head (m : string) : bool := String.prefix "duration." m.

Definition not_required (m : string) : Prop := required_head m = false.
Definition not_duration (m : string) : Prop := duration_head m = false.

(** What runs after the duration block. *)
Definition after_duration (py_repr : value -> string) (data operation : value)
  : M unit :=
  check_template py_repr operation ;;
  check_optional_bools data ;;
  check_parameters operation ;;
  check_rollback operation ;;
  check_validation operation.

(** The message of an enum rule. *)
Definition enum_msg (py_repr : value -> string) (label : string)
           (allowed : list string) (v : value) : string :=
  "Invalid " +++ label +++ ": '" +++ py_str py_repr v +++
  "' (must be one of: " +++ String.concat ", " allowed +++ ")".

(** The enum rules: the path below [operation], which is also the label
    of the message, and the allowed set. *)
Definition ENUM_RULES : list (string * list string) :=
  [ ("operation_mode", VALID_OPERATION_MODES);
    ("capability", VALID_CAPABILITIES);
    ("duration.type", VALID_DURATION_TYPES);
    ("template.type", VALID_TEMPLATE_TYPES) ].

(** What an enum rule appends for a field that is absent ([None]) or
    holds [v]. *)
Definition enum_msgs (py_repr : value -> string) (label : string)
           (allowed : list string) (ov : option value) : list string :=
  match ov with
  | Some v => if py_in v (map VStr allowed) then []
              else [enum_msg py_repr label allowed v]
  | None => []
  end.

Definition integer_msg (key : string) (v : value) : string :=
  "duration." +++ key +++ " must be integer, got: " +++ type_name v.

Definition positive_msg (py_repr : value -> string) (key : string) (v : value)
  : string :=
  "duration." +++ key +++ " must be positive, got: " +++ py_str py_repr v.

Definition order_msg (py_repr : value -> string) (e t : value) : string :=
  "duration.timeout (" +++ py_str py_repr t +++
  ") should be >= duration.expected (" +++ py_str py_repr e +++ ")".

(** What the integer rule appends for [duration.key]. *)
Definition duration_int_msgs (py_repr : value -> string) (key : string)
           (ov : option value) : list string :=
  match ov with
  | Some v =>
      if negb (is_int v) then [integer_msg key v]
      else if Z.leb (int_val v) 0 then [positive_msg py_repr key v] else []
  | None => []
  end.

(** What the ordering rule appends. *)
Definition duration_order_msgs (py_repr : value -> string)
           (oe ot : option value) : list string :=
  match oe, ot with
  | Some e, Some t =>
      if is_int e && is_int t && Z.ltb (int_val t) (int_val e)
      then [order_msg py_repr e t] else []
  | _, _ => []
  end.

(** The messages of the duration block when it is a mapping. *)
Definition duration_msgs (py_repr : value -> string)
           (du : list (string * value)) : list string :=
  enum_msgs py_repr "duration.type" VALID_DURATION_TYPES (dict_lookup "type" du)
  ++ duration_int_msgs py_repr "expected" (dict_lookup "expected" du)
  ++ duration_int_msgs py_repr "timeout" (dict_lookup "timeout" du)
  ++ duration_order_msgs py_repr (dict_lookup "expected" du)
                         (dict_lookup "timeout" du).

(** The messages of the duration block, whatever it is, when it does
    not raise. *)
Definition duration_block_msgs (py_repr : value -> string)
           (o : list (string * value)) : list string :=
  match dict_lookup "duration" o with
  | Some (VDict du) => duration_msgs py_repr du
  | _ => []
  end.

(** A message of the ordering rule. *)
Definition order_head (m : string) : bool := String.prefix "duration.timeout (" m.

(** The duration block is absent or a mapping. *)
Definition duration_block_ok (data : value) : bool :=
  match get_nested_value data "operation.duration" with
  | (v, true) => is_dict v
  | (_, false) => true
  end.

(** A stand-in for the runtime's [repr] and exception texts, for
    evaluating the validator on concrete documents. *)
Definition sample_repr (v : value) : string := "<" +++ type_name v +++ ">".
Definition sample_exn_text (e : pyexn) : string := "<exception>".

(** The value at a dotted path, when the path exists. *)
Definition field (data : value) (path : string) : option value :=
  let (v, exists_) := get_nested_value data path in
  if exists_ then Some v else None.

(** The path exists and holds neither null nor a blank string. *)
Definition present (data : value) (path : string) : bool :=
  match field data path with
  | Some v => negb (is_blank v)
  | None => false
  end.

(** The field holds one of the allowed strings. *)
Definition one_of (allowed : list string) (ov : option value) : bool :=
  match ov with
  | Some (VStr s) => existsb (String.eqb s) allowed
  | _ => false
  end.

(** The field holds an integer above zero ([True] counts as 1). *)
Definition positive_int (ov : option value) : bool :=
  match ov with
  | Some v => is_int v && Z.ltb 0 (int_val v)
  | None => false
  end.

Definition timeout_covers (oe ot : option value) : bool :=
  match oe, ot with
  | Some e, Some t => Z.leb (int_val e) (int_val t)
  | _, _ => false
  end.

(** The field is absent, null or a boolean. *)
Definition null_or_bool (ov : option value) : bool :=
  match ov with
  | None | Some VNull | Some (VBool _) => true
  | Some _ => false
  end.

(** The field is absent or a sequence. *)
Definition list_or_absent (ov : option value) : bool :=
  match ov with
  | None | Some (VList _) => true
  | Some _ => false
  end.

(** A parameter: a mapping with a name, a type and a description. *)
Definition param_ok (p : value) : bool :=
  match p with
  | VDict d => dict_has "name" d && dict_has "type" d && dict_has "description" d
  | _ => false
  end.

Definition param_list_ok (ov : option value) : bool :=
  match ov with
  | None => true
  | Some (VList items) => forallb param_ok items
  | Some _ => false
  end.

(** The [parameters] block, if any: a mapping with [required] or
    [optional], each a sequence of parameters. *)
Definition parameters_ok (ov : option value) : bool :=
  match ov with
  | None => true
  | Some (VDict pd) =>
      (dict_has "required" pd || dict_has "optional" pd)
      && param_list_ok (dict_lookup "required" pd)
      && param_list_ok (dict_lookup "optional" pd)
  | Some _ => false
  end.

(** A rollback step: a mapping with a name and a command. *)
Definition step_ok (s : value) : bool :=
  match s with
  | VDict d => dict_has "name" d && dict_has "command" d
  | _ => false
  end.

(** The [rollback] block, if any: a mapping which, when [enabled]
    holds a truthy value, has a sequence of steps. *)
Definition rollback_ok (ov : option value) : bool :=
  match ov with
  | None => true
  | Some (VDict rd) =>
      match dict_lookup "enabled" rd with
      | Some en =>
          if truthy en then
            match dict_lookup "steps" rd with
            | Some (VList steps) => forallb step_ok steps
            | _ => false
            end
          else true
      | None => true
      end
  | Some _ => false
  end.

(** The [validation] block, if any: a mapping whose check lists are
    sequences. *)
Definition validation_ok (ov : option value) : bool :=
  match ov with
  | None => true
  | Some (VDict vd) =>
      list_or_absent (dict_lookup "checks" vd)
      && list_or_absent (dict_lookup "pre_checks" vd)
      && list_or_absent (dict_lookup "post_checks" vd)
  | Some _ => false
  end.

(** The documents the schema describes. *)
Definition well_formed (data : value) : bool :=
  forallb (present data) REQUIRED_FIELDS
  && one_of VALID_OPERATION_MODES (field data "operation.operation_mode")
  && one_of VALID_CAPABILITIES (field data "operation.capability")
  && one_of VALID_DURATION_TYPES (field data "operation.duration.type")
  && positive_int (field data "operation.duration.expected")
  && positive_int (field data "operation.duration.timeout")
  && timeout_covers (field data "operation.duration.expected")
                    (field data "operation.duration.timeout")
  && one_of VALID_TEMPLATE_TYPES (field data "operation.template.type")
  && forallb (fun p => null_or_bool (field data p)) OPTIONAL_BOOLEAN_FIELDS
  && parameters_ok (field data "operation.parameters")
  && rollback_ok (field data "operation.rollback")
  && validation_ok (field data "operation.validation").

(** The template block is absent or a mapping. *)
Definition template_block_ok (data : value) : bool :=
  match get_nested_value data "operation.template" with
  | (v, true) => is_dict v
  | (_, false) => true
  end.

(** The prefix of the messages about the parameter at position [i] of
    the list [param_type]. *)
Definition param_prefix (param_type : string) (i : nat) : string :=
  "operation.parameters." +++ param_type +++ "[" +++ str_of_nat i +++ "]".

End Spec.
Import Spec.

(** * Vocabulary of the graph statements *)

Module GraphSpec.
Import Deps.

(** The number of entries of a [requires] list. *)
Definition req_len (op : op_data) : nat :=
  match requires op with VList l => List.length l | _ => 0 end.

(** Every [requires] is a sequence, as [load_operations] defaults it. *)
Definition requires_are_lists (ops : operations) : bool :=
  forallb (fun kd => is_list (requires (snd kd))) ops.

(** The id of the first operation with [n] entries. *)
Definition first_with_len (n : nat) (ops : operations) : option value :=
  option_map fst (find (fun kd => Nat.eqb (req_len (snd kd)) n) ops).

(** The first operation with the largest number of entries, if any
    operation has entries. *)
Definition most_entries (ops : operations) : option value :=
  let m := list_max (map (fun kd => req_len (snd kd)) ops) in
  if Nat.ltb 0 m then first_with_len m ops else None.

(** The edges of the requires-graph as the spec defines them: an entry
    that resolves to an empty id contributes no edge; an edge to an
    unknown id is still an edge. *)
Definition graph_edges (ops : operations) : list (value * value) :=
  flat_map (fun kd =>
              match requires (snd kd) with
              | VList l =>
                  map (fun e => (fst kd, resolve e))
                      (filter (fun e => truthy (resolve e)) l)
              | _ => []
              end) ops.

(** Every operation id is a string. *)
Definition str_ids (ops : operations) : bool :=
  forallb (fun kd => is_str (fst kd)) ops.

(** The entry cannot make [dep in operations] raise: it resolves to a
    falsy value or to a hashable one. *)
Definition hashable_entry (e : value) : bool :=
  negb (truthy (resolve e)) || hashable (resolve e).

Definition hashable_requires (ops : operations) : bool :=
  forallb (fun kd => match requires (snd kd) with
                     | VList l => forallb hashable_entry l
                     | _ => true
                     end) ops.

(** The operation record with another [requires] list. *)
Definition with_requires (op : op_data) (l : list value) : op_data :=
  mk_op (file op) (name op) (VList l) (capability op).

(** An edge the cycle detector follows: an entry of [u] that resolves
    to the known id [v]. *)
Definition edge (ops : operations) (u v : value) : Prop :=
  exists e, In e (requires_of ops u) /\ resolve e = v
            /\ truthy v = true /\ key_in v (keys ops) = Ok true.

Definition acyclic (ops : operations) : Prop :=
  forall u, ~ clos_trans value (edge ops) u u.

(** Consecutive elements are linked by edges. *)
Fixpoint chain (ops : operations) (rs : list value) : Prop :=
  match rs with
  | a :: ((b :: _) as r) => edge ops a b /\ chain ops r
  | _ => True
  end.

(** The number of ids not in the set [V]. *)
Definition unvisited (ops : operations) (V : list value) : nat :=
  List.length (filter (fun k => negb (py_in k V)) (keys ops)).

(** All the nodes the searches of a log called [dfs] on. *)
Definition entered (log : list (value * list value)) : list value :=
  List.concat (map snd log).

(** [st'] is [st] after [dfs] has been called on the nodes [added]:
    the stack is back, the nodes were new to this search, and they
    are recorded in the log and in both visited sets. *)
Definition grows (ops : operations) (st st' : dfs_state) (added : list value)
  : Prop :=
  rec_stack st' = rec_stack st /\
  calls st' = calls st ++ added /\
  (forall x, In x (visited st') <-> In x (visited st) \/ In x added) /\
  (forall x, In x (visited_global st') <-> In x (visited_global st) \/ In x added) /\
  NoDup added /\
  (forall x, In x added ->
             ~ In x (visited st) /\ In x (keys ops) /\ is_str x = true) /\
  (acyclic ops -> cycles st' = cycles st).

(** What a call [dfs node st] is started from: a known node, new to
    this search, reached by an edge from the top of the stack, and
    enough fuel for the nodes not yet visited. *)
Definition dfs_pre (ops : operations) (fuel : nat) (node : value)
           (st : dfs_state) : Prop :=
  In node (keys ops) /\ ~ In node (visited st) /\
  chain ops (rec_stack st ++ [node]) /\
  unvisited ops (visited st) <= fuel.

(** A search of the log: its nodes are distinct ids. *)
Definition search_ok (ops : operations) (s : value * list value) : Prop :=
  NoDup (snd s) /\ incl (snd s) (keys ops).

(** No search starts at a node an earlier search has entered. *)
Inductive fresh_log : list (value * list value) -> Prop :=
| fresh_nil : fresh_log []
| fresh_snoc log r ns :
    fresh_log log -> ~ In r (entered log) -> fresh_log (log ++ [(r, ns)]).


(** The stack and the cycles found so far hold strings only. *)
Definition strs_state (st : dfs_state) : Prop :=
  Forall (fun v => is_str v = true) (rec_stack st) /\
  Forall (Forall (fun v => is_str v = true)) (cycles st).

(** No two ids of the list are equal as dictionary keys. *)
Fixpoint ids_distinct (ks : list value) : Prop :=
  match ks with
  | [] => True
  | k :: r => existsb (fun k' => py_eqb k k') r = false /\ ids_distinct r
  end.

(** [requires] supports [len], or is falsy and never measured. *)
Definition sized_or_falsy (v : value) : bool :=
  match v with
  | VList _ | VDict _ | VStr _ => true
  | _ => negb (truthy v)
  end.

(** One round of the loop of [build_dependency_stats] on an operation
    with [n] entries. *)
Definition stats_step (k : value) (n : nat) (st : stats) : stats :=
  if Nat.ltb 0 n then
    mk_stats (total_operations st) (S (operations_with_deps st))
             (total_dependencies st + n)
             (if Nat.ltb (max_dependencies st) n then n else max_dependencies st)
             (if Nat.ltb (max_dependencies st) n then Some k
              else most_dependent_op st)
  else st.

(** A reported cycle read as a walk: it starts and ends at the same
    id and every step follows an edge. *)
Definition closed_walk (ops : operations) (c : list value) : Prop :=
  exists d p, c = d :: p ++ [d] /\ chain ops c.

(** The nodes in the order they were finished, the latest first: every
    edge of a finished node leads to a node finished before it. *)
Fixpoint topo (ops : operations) (fin : list value) : Prop :=
  match fin with
  | [] => True
  | x :: r => (forall y, edge ops x y -> In y r) /\ topo ops r
  end.

(** [fin] lists the finished nodes of the state: visited and no longer
    on the stack.  [vg0] is [visited_global] when the search began. *)
Definition fin_inv (ops : operations) (vg0 : list value) (st : dfs_state)
           (fin : list value) : Prop :=
  topo ops fin /\
  incl (rec_stack st) (visited st) /\
  (forall x, In x fin <-> In x (visited st) /\ ~ In x (rec_stack st)) /\
  (forall x, In x (visited_global st) -> In x vg0 \/ In x (visited st)).

(** Two operations that require each other. *)
Definition ops_AB : operations :=
  [ (VStr "A", mk_op "a.yaml" (VStr "A") (VList [VStr "B"]) (VStr "storage"));
    (VStr "B", mk_op "b.yaml" (VStr "B") (VList [VStr "A"]) (VStr "storage")) ].

(** Every entry that resolves to an id resolves to a loaded one. *)
Definition all_resolved (ops : operations) : Prop :=
  forall k op l e,
    In (k, op) ops -> requires op = VList l -> In e l ->
    truthy (resolve e) = true -> py_in (resolve e) (keys ops) = true.

(** Two files: [net-configure] requires [net-create]. *)
Definition sample_files : list (string * load_outcome) :=
  [("net-create.yaml",
    Loaded (VDict [("operation", VDict [("id", VStr "net-create")])]));
   ("net-configure.yaml",
    Loaded (VDict [("operation",
                    VDict [("id", VStr "net-configure");
                           ("requires", VList [VStr "net-create"])])]))].


(** One file whose operation has the integer id 5 and requires
    itself. *)
Definition int_id_files : list (string * load_outcome) :=
  [("five.yaml",
    Loaded (VDict [("operation",
                    VDict [("id", VInt 5); ("requires", VList [VInt 5])])]))].




End GraphSpec.
Import GraphSpec.

(** * Proofs *)

(** ** The message monad *)

Section MonadFacts.
Import Schema.
Local Open Scope schema_scope.

Lemma mbind_lift_ok {A B : Type} (a : A) (k : A -> M B) :
  mbind (lift (Ok a)) k = k a.
Proof. unfold mbind, lift. destruct (k a); reflexivity. Qed.

Lemma mbind_ret {A B : Type} (a : A) (k : A -> M B) :
  mbind (ret a) k = k a.
Proof. unfold mbind, ret. destruct (k a); reflexivity. Qed.

(** Messages are only ever appended. *)
Lemma mbind_fst_prefix {A B : Type} (m : M A) (k : A -> M B) :
  exists w, fst (mbind m k) = fst m ++ w.
Proof.
  destruct m as [w r]; destruct r as [a | e |]; simpl.
  - destruct (k a) as [w' r']. exists w'. reflexivity.
  - exists []. now rewrite app_nil_r.
  - exists []. now rewrite app_nil_r.
Qed.

End MonadFacts.

(** ** Where each message of the schema validator comes from *)

Import Schema.
Local Open Scope schema_scope.

Lemma Forall_mbind {A B : Type} (Q : string -> Prop) (m : M A) (k : A -> M B) :
  Forall Q (fst m) -> (forall a, Forall Q (fst (k a))) ->
  Forall Q (fst (mbind m k)).
Proof.
  intros Hm Hk. destruct m as [w r]; destruct r as [a | e |]; simpl in *; auto.
  specialize (Hk a). destruct (k a) as [w' r']. simpl in *.
  apply Forall_app; split; assumption.
Qed.

Lemma Forall_when (Q : string -> Prop) (b : bool) (m : M unit) :
  Forall Q (fst m) -> Forall Q (fst (when b m)).
Proof. destruct b; simpl; auto. Qed.

Lemma Forall_lift {A : Type} (Q : string -> Prop) (r : res A) :
  Forall Q (fst (lift r)).
Proof. constructor. Qed.

Lemma Forall_tell (Q : string -> Prop) (msg : string) :
  Q msg -> Forall Q (fst (tell msg)).
Proof. intros H. simpl. auto. Qed.


Ltac shape_step :=
  first
    [ apply Forall_mbind; [ | intros ]
    | apply Forall_when
    | apply Forall_lift
    | apply Forall_tell
    | apply Forall_nil
    | apply Forall_app; split
    | apply Forall_cons
    | reflexivity
    | match goal with
      | |- Forall _ (fst (match ?x with _ => _ end)) => destruct x
      | |- Forall _ (fst (_, _)) => cbn [fst]
      | |- Forall _ (match ?x with _ => _ end) => destruct x
      end ].

Ltac shapes := repeat shape_step.

Lemma missing_key_msg_shape (Q : string -> Prop) prefix key d :
  Q (prefix +++ " missing '" +++ key +++ "'") ->
  Forall Q (missing_key_msg prefix key d).
Proof. intros H. unfold missing_key_msg. destruct (dict_has key d); auto. Qed.

Lemma check_param_items_shape (Q : string -> Prop) pt i items :
  (forall s, Q ("operation.parameters." +++ s)) ->
  Forall Q (check_param_items pt i items).
Proof.
  intros HQ. revert i. induction items as [| p rest IH]; intros i; simpl; auto.
  apply Forall_app; split; [ | apply IH ].
  destruct p; repeat (apply Forall_app; split);
    try apply missing_key_msg_shape; try (constructor; [ | constructor ]);
    apply HQ.
Qed.

Lemma check_rollback_steps_shape (Q : string -> Prop) i steps :
  (forall s, Q ("operation.rollback.steps[" +++ s)) ->
  Forall Q (check_rollback_steps i steps).
Proof.
  intros HQ. revert i. induction steps as [| p rest IH]; intros i; simpl; auto.
  apply Forall_app; split; [ | apply IH ].
  destruct p; repeat (apply Forall_app; split);
    try apply missing_key_msg_shape; try (constructor; [ | constructor ]);
    apply HQ.
Qed.


Section MessageShapes.

Variable py_repr : value -> string.
Variable exn_text : pyexn -> string.

Lemma optional_bool_msg_shape (Q : string -> Prop) data p :
  (forall s, Q (p +++ " must be boolean, got: " +++ s)) ->
  Forall Q (optional_bool_msg data p).
Proof.
  intros HQ. unfold optional_bool_msg.
  destruct (get_nested_value data p) as [v ex].
  destruct v; destruct ex; simpl; repeat constructor; apply HQ.
Qed.

Lemma check_param_list_shape (Q : string -> Prop) d pt :
  (forall s, Q ("operation.parameters." +++ s)) ->
  Forall Q (check_param_list d pt).
Proof.
  intros HQ. unfold check_param_list.
  destruct (dict_lookup pt d) as [v |]; auto.
  destruct v; try (constructor; [ apply HQ | constructor ]).
  apply check_param_items_shape, HQ.
Qed.

Lemma check_validation_list_shape (Q : string -> Prop) d key :
  (forall s, Q ("operation.validation" +++ s)) ->
  Forall Q (check_validation_list d key).
Proof.
  intros HQ. unfold check_validation_list.
  destruct (dict_lookup key d) as [v |]; auto.
  destruct v; auto; constructor; auto; apply (HQ ("." +++ _)).
Qed.

Ltac shape_leaves :=
  first
    [ apply optional_bool_msg_shape; intros; reflexivity
    | apply check_param_list_shape; intros; reflexivity
    | apply check_rollback_steps_shape; intros; reflexivity
    | apply check_validation_list_shape; intros; reflexivity ].


Lemma after_duration_not_duration data op :
  Forall not_duration (fst (after_duration py_repr data op)).
Proof. unfold after_duration. shapes; shape_leaves. Qed.

Lemma check_rest_unfold data :
  check_rest py_repr data =
  (operation <- lift (py_get data "operation" (VDict [])) ;;
   check_field_enum py_repr "operation_mode" "operation_mode"
                    VALID_OPERATION_MODES operation ;;
   check_field_enum py_repr "capability" "capability"
                    VALID_CAPABILITIES operation ;;
   check_duration py_repr operation ;;
   after_duration py_repr data operation).
Proof. reflexivity. Qed.

Lemma check_rest_not_required data :
  Forall not_required (fst (check_rest py_repr data)).
Proof. rewrite check_rest_unfold. unfold after_duration. shapes; shape_leaves. Qed.

End MessageShapes.

(** ** Counting messages *)

Lemma count_occ_flat_map_zero {A : Type} (f : A -> list string) (m : string)
      (l : list A) :
  (forall q, In q l -> count_occ string_dec (f q) m = 0) ->
  count_occ string_dec (flat_map f l) m = 0.
Proof.
  induction l as [| a l IH]; simpl; intros H; [ reflexivity | ].
  rewrite count_occ_app, (H a), IH; auto.
Qed.

Lemma count_occ_flat_map_unique {A : Type} (f : A -> list string) (m : string)
      (l : list A) (p : A) :
  NoDup l -> In p l ->
  count_occ string_dec (f p) m = 1 ->
  (forall q, q <> p -> count_occ string_dec (f q) m = 0) ->
  count_occ string_dec (flat_map f l) m = 1.
Proof.
  intros Hnd Hin Hp Hq. induction l as [| a l IH]; [ contradiction | ].
  inversion Hnd as [| ? ? Hna Hnd']; subst. simpl. rewrite count_occ_app.
  destruct Hin as [-> | Hin].
  - rewrite Hp, count_occ_flat_map_zero; [ reflexivity | ].
    intros q Hq'. apply Hq. intros ->. contradiction.
  - rewrite (Hq a), IH; auto. intros ->. contradiction.
Qed.

Lemma count_occ_Forall_zero (Q : string -> Prop) (l : list string) (m : string) :
  Forall Q l -> ~ Q m -> count_occ string_dec l m = 0.
Proof.
  intros HF Hm. apply count_occ_not_In. intros Hin.
  rewrite Forall_forall in HF. apply Hm, HF, Hin.
Qed.

Lemma REQUIRED_FIELDS_NoDup : NoDup REQUIRED_FIELDS.
Proof.
  unfold REQUIRED_FIELDS.
  repeat (constructor; [ cbn; intuition discriminate | ]). constructor.
Qed.

(** ** The schema validator on a loaded document *)

Section SchemaValidator.

Variable py_repr : value -> string.
Variable exn_text : pyexn -> string.

(** A non-empty document gets the required-field messages, then those
    of the other rules, then at most one for an exception. *)
Lemma validate_loaded (data : value) :
  truthy data = true ->
  validate_operation py_repr exn_text (Loaded data) =
  check_required data ++ fst (check_rest py_repr data)
  ++ except_msgs exn_text (snd (check_rest py_repr data)).
Proof.
  intros Ht. unfold validate_operation, validate_body. rewrite Ht. cbn [negb].
  destruct (check_rest py_repr data) as [w r]. destruct r as [[] | e |]; simpl;
    rewrite ?app_nil_r, <- ?app_assoc; reflexivity.
Qed.

Lemma except_msgs_not_required {A : Type} (r : res A) :
  Forall not_required (except_msgs exn_text r).
Proof.
  destruct r as [a | e |]; simpl; auto. destruct e; repeat constructor.
Qed.

Lemma except_msgs_not_duration {A : Type} (r : res A) :
  Forall not_duration (except_msgs exn_text r).
Proof.
  destruct r as [a | e |]; simpl; auto. destruct e; repeat constructor.
Qed.

Lemma required_msg_missing data p :
  snd (get_nested_value data p) = false ->
  required_msg data p = ["Missing required field: " +++ p].
Proof.
  unfold required_msg. destruct (get_nested_value data p) as [v e]. simpl.
  intros ->. reflexivity.
Qed.

Lemma required_msg_blank data p v :
  get_nested_value data p = (v, true) -> is_blank v = true ->
  required_msg data p = ["Empty value for required field: " +++ p].
Proof. unfold required_msg. intros -> Hb. simpl. rewrite Hb. reflexivity. Qed.

Lemma required_msg_other data p q (m : string) :
  q <> p ->
  m = "Missing required field: " +++ p \/ m = "Empty value for required field: " +++ p ->
  count_occ string_dec (required_msg data q) m = 0.
Proof.
  intros Hne Hm. apply count_occ_not_In. unfold required_msg.
  destruct (get_nested_value data q) as [v e].
  destruct e; [ destruct (is_blank v) | ]; simpl; intros Hin;
    try contradiction;
    destruct Hin as [Hin | []]; destruct Hm as [-> | ->];
    simpl in Hin; try discriminate;
    injection Hin as Hin; contradiction.
Qed.

Lemma count_singleton (m : string) : count_occ string_dec [m] m = 1.
Proof. simpl. destruct (string_dec m m); congruence. Qed.

Lemma check_required_count data p (m : string) :
  In p REQUIRED_FIELDS ->
  required_msg data p = [m] ->
  m = "Missing required field: " +++ p \/ m = "Empty value for required field: " +++ p ->
  count_occ string_dec (check_required data) m = 1.
Proof.
  intros Hin Hp Hm. unfold check_required.
  apply count_occ_flat_map_unique with (p := p).
  - apply REQUIRED_FIELDS_NoDup.
  - exact Hin.
  - rewrite Hp. apply count_singleton.
  - intros q Hq. apply required_msg_other with (p := p); assumption.
Qed.

(** A required-field message is counted in the required-field loop
    alone. *)
Lemma validate_count_required data (m : string) :
  truthy data = true -> required_head m = true ->
  count_occ string_dec (validate_operation py_repr exn_text (Loaded data)) m =
  count_occ string_dec (check_required data) m.
Proof.
  intros Ht Hm. rewrite validate_loaded by exact Ht.
  rewrite !count_occ_app.
  rewrite (count_occ_Forall_zero not_required (fst (check_rest py_repr data))),
          (count_occ_Forall_zero not_required (except_msgs exn_text _)).
  - lia.
  - apply except_msgs_not_required.
  - unfold not_required. congruence.
  - apply check_rest_not_required.
  - unfold not_required. congruence.
Qed.

(** C4 (as amended).  There are exactly 11 required dotted paths; for
    a non-empty document and each of these paths, a document missing
    the path gets exactly one message "Missing required field: path",
    whatever its other fields are, and a path present with a null or
    blank-after-trimming string value gets exactly one message
    "Empty value for required field: path". *)
Theorem C4_required_fields_nonempty_document :
  List.length REQUIRED_FIELDS = 11 /\
  forall (data : value) (p : string),
    truthy data = true -> In p REQUIRED_FIELDS ->
    (snd (get_nested_value data p) = false ->
     count_occ string_dec (validate_operation py_repr exn_text (Loaded data))
               ("Missing required field: " +++ p) = 1) /\
    (forall v, get_nested_value data p = (v, true) -> is_blank v = true ->
     count_occ string_dec (validate_operation py_repr exn_text (Loaded data))
               ("Empty value for required field: " +++ p) = 1).
Proof.
  split; [ reflexivity | ]. intros data p Ht Hin. split.
  - intros Hmiss. rewrite validate_count_required by (auto; reflexivity).
    apply check_required_count with (p := p); auto.
    apply required_msg_missing, Hmiss.
  - intros v Hv Hb. rewrite validate_count_required by (auto; reflexivity).
    apply check_required_count with (p := p); auto.
    apply required_msg_blank with (v := v); assumption.
Qed.

End SchemaValidator.

(** C4 at a document with an empty [operation] block: every path is
    missing, [operation.id] is reported once. *)
Lemma C4_required_fields_witness :
  count_occ string_dec
    (validate_operation sample_repr sample_exn_text
       (Loaded (VDict [("operation", VDict [])])))
    "Missing required field: operation.id" = 1.
Proof.
  apply (proj2 (C4_required_fields_nonempty_document sample_repr sample_exn_text)
               (VDict [("operation", VDict [])]) "operation.id").
  - reflexivity.
  - simpl. auto.
  - reflexivity.
Defined.

(** C4 as stated fails on the empty mapping: [operation.id] is
    missing from it, yet the only message is the one of the
    empty-document guard. *)
Lemma C4_empty_document_counterexample :
  snd (get_nested_value (VDict []) "operation.id") = false /\
  validate_operation sample_repr sample_exn_text (Loaded (VDict []))
    = ["Empty or invalid YAML file"] /\
  count_occ string_dec
    (validate_operation sample_repr sample_exn_text (Loaded (VDict [])))
    "Missing required field: operation.id" = 0.
Proof. repeat split. Qed.

(** ** The enum and duration rules on mappings *)

Section SchemaRules.

Variable py_repr : value -> string.
Variable exn_text : pyexn -> string.

Lemma mbind_pair_ok {A B : Type} (w : list string) (a : A) (k : A -> M B) :
  mbind (w, Ok a) k = (w ++ fst (k a), snd (k a)).
Proof. simpl. destruct (k a); reflexivity. Qed.

Lemma check_enum_run label allowed v :
  check_enum py_repr label allowed v =
  (enum_msgs py_repr label allowed (Some v), Ok tt).
Proof.
  unfold check_enum, enum_msgs, enum_msg.
  destruct (py_in v (map VStr allowed)); reflexivity.
Qed.

Lemma check_field_enum_dict key label allowed o :
  check_field_enum py_repr key label allowed (VDict o) =
  (enum_msgs py_repr label allowed (dict_lookup key o), Ok tt).
Proof.
  unfold check_field_enum. cbn [py_contains py_getitem].
  rewrite mbind_lift_ok. unfold dict_has.
  destruct (dict_lookup key o) as [v |]; cbn [when].
  - rewrite mbind_lift_ok. apply check_enum_run.
  - reflexivity.
Qed.

Lemma check_duration_int_dict key du :
  check_duration_int py_repr key (VDict du) =
  (duration_int_msgs py_repr key (dict_lookup key du), Ok tt).
Proof.
  unfold check_duration_int, duration_int_msgs. cbn [py_contains py_getitem].
  rewrite mbind_lift_ok. unfold dict_has.
  destruct (dict_lookup key du) as [v |]; cbn [when]; [ | reflexivity ].
  rewrite mbind_lift_ok.
  destruct (negb (is_int v)); [ reflexivity | ].
  destruct (Z.leb (int_val v) 0); reflexivity.
Qed.

Lemma check_duration_order_dict du :
  check_duration_order py_repr (VDict du) =
  (duration_order_msgs py_repr (dict_lookup "expected" du)
                       (dict_lookup "timeout" du), Ok tt).
Proof.
  unfold check_duration_order, duration_order_msgs.
  cbn [py_contains py_getitem]. rewrite mbind_lift_ok. unfold dict_has.
  destruct (dict_lookup "expected" du) as [e |]; cbn [when]; [ | reflexivity ].
  rewrite mbind_lift_ok.
  destruct (dict_lookup "timeout" du) as [t |]; cbn [when]; [ | reflexivity ].
  rewrite !mbind_lift_ok.
  destruct (is_int e && is_int t); cbn [when andb]; [ | reflexivity ].
  destruct (Z.ltb (int_val t) (int_val e)); reflexivity.
Qed.

Lemma check_duration_absent o :
  dict_lookup "duration" o = None ->
  check_duration py_repr (VDict o) = ([], Ok tt).
Proof.
  intros H. unfold check_duration. cbn [py_contains].
  rewrite mbind_lift_ok. unfold dict_has. rewrite H. reflexivity.
Qed.

Lemma check_duration_dict o du :
  dict_lookup "duration" o = Some (VDict du) ->
  check_duration py_repr (VDict o) = (duration_msgs py_repr du, Ok tt).
Proof.
  intros H. unfold check_duration.
  change (py_contains "duration" (VDict o)) with (Ok (dict_has "duration" o)).
  rewrite mbind_lift_ok. unfold dict_has at 1. rewrite H. cbn [when].
  change (py_getitem (VDict o) "duration")
    with (match dict_lookup "duration" o with
          | Some v => Ok v | None => Raise (KeyError "duration") end).
  rewrite H, mbind_lift_ok.
  change (py_contains "type" (VDict du)) with (Ok (dict_has "type" du)).
  rewrite mbind_lift_ok.
  rewrite !check_duration_int_dict, check_duration_order_dict.
  unfold duration_msgs, dict_has.
  change (py_getitem (VDict du) "type")
    with (match dict_lookup "type" du with
          | Some v => Ok v | None => Raise (KeyError "type") end).
  destruct (dict_lookup "type" du) as [t |]; cbn [when].
  - rewrite mbind_lift_ok, check_enum_run, !mbind_pair_ok. reflexivity.
  - rewrite mbind_ret, !mbind_pair_ok. reflexivity.
Qed.

Lemma check_rest_dict d o :
  dict_get d "operation" (VDict []) = VDict o ->
  (dict_lookup "duration" o = None \/
   exists du, dict_lookup "duration" o = Some (VDict du)) ->
  check_rest py_repr (VDict d) =
  (enum_msgs py_repr "operation_mode" VALID_OPERATION_MODES
             (dict_lookup "operation_mode" o)
   ++ enum_msgs py_repr "capability" VALID_CAPABILITIES
                (dict_lookup "capability" o)
   ++ duration_block_msgs py_repr o
   ++ fst (after_duration py_repr (VDict d) (VDict o)),
   snd (after_duration py_repr (VDict d) (VDict o))).
Proof.
  intros Hop Hdur. rewrite check_rest_unfold. cbn [py_get]. rewrite Hop.
  rewrite mbind_lift_ok, !check_field_enum_dict.
  assert (Hd : check_duration py_repr (VDict o)
               = (duration_block_msgs py_repr o, Ok tt)).
  { unfold duration_block_msgs. destruct Hdur as [Hn | [du Hs]].
    - rewrite Hn. apply check_duration_absent, Hn.
    - rewrite Hs. apply check_duration_dict, Hs. }
  rewrite Hd, !mbind_pair_ok. cbn [fst snd]. reflexivity.
Qed.

(** The messages of the first two enum rules come first, whatever
    the later rules do. *)
Lemma check_rest_first_enums d o :
  dict_get d "operation" (VDict []) = VDict o ->
  exists w,
    fst (check_rest py_repr (VDict d)) =
    enum_msgs py_repr "operation_mode" VALID_OPERATION_MODES
              (dict_lookup "operation_mode" o)
    ++ enum_msgs py_repr "capability" VALID_CAPABILITIES
                 (dict_lookup "capability" o)
    ++ w.
Proof.
  intros Hop. rewrite check_rest_unfold. cbn [py_get]. rewrite Hop.
  rewrite mbind_lift_ok, !check_field_enum_dict, !mbind_pair_ok. cbn [fst].
  eexists. reflexivity.
Qed.

(** A document, its [operation] block and its duration block, all
    mappings: the whole list of messages. *)
Lemma validate_operation_dict d o :
  d <> [] ->
  dict_get d "operation" (VDict []) = VDict o ->
  (dict_lookup "duration" o = None \/
   exists du, dict_lookup "duration" o = Some (VDict du)) ->
  validate_operation py_repr exn_text (Loaded (VDict d)) =
  check_required (VDict d)
  ++ enum_msgs py_repr "operation_mode" VALID_OPERATION_MODES
               (dict_lookup "operation_mode" o)
  ++ enum_msgs py_repr "capability" VALID_CAPABILITIES
               (dict_lookup "capability" o)
  ++ duration_block_msgs py_repr o
  ++ fst (after_duration py_repr (VDict d) (VDict o))
  ++ except_msgs exn_text (snd (after_duration py_repr (VDict d) (VDict o))).
Proof.
  intros Hne Hop Hdur. rewrite validate_loaded.
  - rewrite (check_rest_dict d o Hop Hdur). cbn [fst snd].
    rewrite <- !app_assoc. reflexivity.
  - destruct d; [ contradiction | reflexivity ].
Qed.

End SchemaRules.

(** ** Dotted paths *)

Lemma get_nested_cons_inv current part rest v :
  get_nested current (part :: rest) = (v, true) ->
  exists d v', current = VDict d /\ dict_lookup part d = Some v'
               /\ get_nested v' rest = (v, true).
Proof.
  simpl. destruct current; try discriminate.
  destruct (dict_lookup part d) as [v' |] eqn:E; try discriminate.
  intros H. exists d, v'. auto.
Qed.

Lemma get_nested_nil_inv current v b : get_nested current [] = (v, b) -> current = v.
Proof. simpl. congruence. Qed.

(** A field two levels down: [operation.key]. *)
Lemma operation_field_inv data key v :
  get_nested data ["operation"; key] = (v, true) ->
  exists d o, data = VDict d /\ d <> []
              /\ dict_lookup "operation" d = Some (VDict o)
              /\ dict_lookup key o = Some v.
Proof.
  intros H. apply get_nested_cons_inv in H as (d & v1 & -> & H1 & H).
  apply get_nested_cons_inv in H as (o & v2 & -> & H2 & H).
  apply get_nested_nil_inv in H as ->.
  exists d, o. repeat split; auto.
  intros ->. discriminate.
Qed.

(** A field three levels down: [operation.block.key]. *)
Lemma block_field_inv data block key v :
  get_nested data ["operation"; block; key] = (v, true) ->
  exists d o b, data = VDict d /\ d <> []
                /\ dict_lookup "operation" d = Some (VDict o)
                /\ dict_lookup block o = Some (VDict b)
                /\ dict_lookup key b = Some v.
Proof.
  intros H. apply get_nested_cons_inv in H as (d & v1 & -> & H1 & H).
  apply get_nested_cons_inv in H as (o & v2 & -> & H2 & H).
  apply get_nested_cons_inv in H as (b & v3 & -> & H3 & H).
  apply get_nested_nil_inv in H as ->.
  exists d, o, b. repeat split; auto.
  intros ->. discriminate.
Qed.

Lemma In_mbind_l {A B : Type} (m : M A) (k : A -> M B) (x : string) :
  In x (fst m) -> In x (fst (mbind m k)).
Proof.
  intros H. destruct (mbind_fst_prefix m k) as [w ->].
  apply in_or_app. auto.
Qed.

Lemma dict_get_lookup d k v dflt :
  dict_lookup k d = Some v -> dict_get d k dflt = v.
Proof. unfold dict_get. intros ->. reflexivity. Qed.

Lemma duration_block_ok_inv d o :
  dict_lookup "operation" d = Some (VDict o) ->
  duration_block_ok (VDict d) = true ->
  dict_lookup "duration" o = None \/
  exists du, dict_lookup "duration" o = Some (VDict du).
Proof.
  intros Hop. unfold duration_block_ok, get_nested_value.
  change (split_on "." "operation.duration") with ["operation"; "duration"].
  cbn [get_nested]. rewrite Hop.
  destruct (dict_lookup "duration" o) as [v |]; [ | auto ].
  destruct v; simpl; try discriminate. intros _. right. eauto.
Qed.

Section SchemaEnums.

Variable py_repr : value -> string.
Variable exn_text : pyexn -> string.

Lemma enum_msgs_invalid label allowed v :
  py_in v (map VStr allowed) = false ->
  enum_msgs py_repr label allowed (Some v) = [enum_msg py_repr label allowed v].
Proof. unfold enum_msgs. intros ->. reflexivity. Qed.

Lemma check_template_dict o t :
  dict_lookup "template" o = Some (VDict t) ->
  check_template py_repr (VDict o) =
  (enum_msgs py_repr "template.type" VALID_TEMPLATE_TYPES (dict_lookup "type" t),
   Ok tt).
Proof.
  intros H. unfold check_template. cbn [py_contains py_getitem].
  rewrite mbind_lift_ok. unfold dict_has. rewrite H. cbn [when].
  rewrite mbind_lift_ok. apply check_field_enum_dict.
Qed.

(** C3 (as amended).  The allowed sets of [operation_mode],
    [capability], [duration.type] and [template.type] have 13, 7, 4 and
    6 members.  Each of these fields, if present with a value outside
    its allowed set, gets a message that names the value and lists the
    whole allowed set; for [template.type] this holds when the duration
    block, which is checked before it, is absent or a mapping. *)
Theorem C3_enum_membership :
  map (fun r => List.length (snd r)) ENUM_RULES = [13; 7; 4; 6] /\
  forall (data : value) (label : string) (allowed : list string) (v : value),
    In (label, allowed) ENUM_RULES ->
    get_nested_value data ("operation." +++ label) = (v, true) ->
    py_in v (map VStr allowed) = false ->
    (label = "template.type" -> duration_block_ok data = true) ->
    In ("Invalid " +++ label +++ ": '" +++ py_str py_repr v +++
        "' (must be one of: " +++ String.concat ", " allowed +++ ")")
       (validate_operation py_repr exn_text (Loaded data)).
Proof.
  split; [ reflexivity | ].
  intros data label allowed v Hin Hget Hbad Hok.
  fold (enum_msg py_repr label allowed v).
  assert (Hmsg := enum_msgs_invalid label allowed v Hbad).
  unfold ENUM_RULES in Hin. simpl in Hin.
  destruct Hin as [E | [E | [E | [E | []]]]]; injection E as <- <-;
    unfold get_nested_value in Hget.
  - change (split_on "." ("operation." +++ "operation_mode"))
      with ["operation"; "operation_mode"] in Hget.
    apply operation_field_inv in Hget as (d & o & -> & Hne & Hop & Hk).
    rewrite validate_loaded by (destruct d; [ contradiction | reflexivity ]).
    destruct (check_rest_first_enums py_repr d o (dict_get_lookup _ _ _ _ Hop))
      as [w ->].
    rewrite Hk, Hmsg. apply in_or_app. right. left. reflexivity.
  - change (split_on "." ("operation." +++ "capability"))
      with ["operation"; "capability"] in Hget.
    apply operation_field_inv in Hget as (d & o & -> & Hne & Hop & Hk).
    rewrite validate_loaded by (destruct d; [ contradiction | reflexivity ]).
    destruct (check_rest_first_enums py_repr d o (dict_get_lookup _ _ _ _ Hop))
      as [w ->].
    rewrite Hk, Hmsg.
    apply in_or_app. right. apply in_or_app. left.
    apply in_or_app. right. left. reflexivity.
  - change (split_on "." ("operation." +++ "duration.type"))
      with ["operation"; "duration"; "type"] in Hget.
    apply block_field_inv in Hget as (d & o & du & -> & Hne & Hop & Hb & Hk).
    rewrite (validate_operation_dict py_repr exn_text d o Hne
               (dict_get_lookup _ _ _ _ Hop) (or_intror (ex_intro _ du Hb))).
    unfold duration_block_msgs, duration_msgs. rewrite Hb, Hk, Hmsg.
    do 3 (apply in_or_app; right). left. reflexivity.
  - change (split_on "." ("operation." +++ "template.type"))
      with ["operation"; "template"; "type"] in Hget.
    apply block_field_inv in Hget as (d & o & t & -> & Hne & Hop & Hb & Hk).
    rewrite (validate_operation_dict py_repr exn_text d o Hne
               (dict_get_lookup _ _ _ _ Hop)
               (duration_block_ok_inv d o Hop (Hok eq_refl))).
    do 4 (apply in_or_app; right). apply in_or_app. left.
    unfold after_duration. apply In_mbind_l.
    rewrite (check_template_dict o t Hb), Hk, Hmsg. left. reflexivity.
Qed.

End SchemaEnums.

(** C3 at a document whose template type is ["bogus"] and whose
    duration block is a mapping. *)
Lemma C3_enum_membership_witness :
  In "Invalid template.type: 'bogus' (must be one of: powershell-local, powershell-remote, powershell-vm-command, azure-cli, bash, bash-script)"
     (validate_operation sample_repr sample_exn_text
        (Loaded (VDict [("operation",
                         VDict [("duration", VDict [("type", VStr "FAST")]);
                                ("template", VDict [("type", VStr "bogus")])])]))).
Proof.
  apply (proj2 (C3_enum_membership sample_repr sample_exn_text)
               (VDict [("operation",
                        VDict [("duration", VDict [("type", VStr "FAST")]);
                               ("template", VDict [("type", VStr "bogus")])])])
               "template.type" VALID_TEMPLATE_TYPES (VStr "bogus")).
  - simpl. auto.
  - reflexivity.
  - reflexivity.
  - intros _. reflexivity.
Defined.

(** C3 as stated fails: the allowed set of [operation_mode] has 13
    members, not 16. *)
Lemma C3_operation_modes_counterexample :
  List.length VALID_OPERATION_MODES = 13 /\ List.length VALID_OPERATION_MODES <> 16.
Proof. split; [ reflexivity | discriminate ]. Qed.

(** ** Messages about the duration values *)

Lemma filter_none {A : Type} (f : A -> bool) (l : list A) :
  Forall (fun x => f x = false) l -> filter f l = [].
Proof.
  induction 1 as [| x l Hx _ IH]; simpl; [ reflexivity | ].
  rewrite Hx. exact IH.
Qed.

Lemma filter_all {A : Type} (f : A -> bool) (l : list A) :
  Forall (fun x => f x = true) l -> filter f l = l.
Proof.
  induction 1 as [| x l Hx _ IH]; simpl; [ reflexivity | ].
  rewrite Hx, IH. reflexivity.
Qed.

Lemma required_msg_not_duration data p :
  In p REQUIRED_FIELDS -> Forall not_duration (required_msg data p).
Proof.
  intros Hin. unfold required_msg.
  destruct (get_nested_value data p) as [v e].
  destruct e; [ destruct (is_blank v) | ]; simpl; repeat constructor.
Qed.

Lemma check_required_not_duration data :
  Forall not_duration (check_required data).
Proof.
  unfold check_required. apply Forall_flat_map, Forall_forall.
  intros p Hp. apply required_msg_not_duration, Hp.
Qed.

Section DurationMessages.

Variable py_repr : value -> string.
Variable exn_text : pyexn -> string.

Lemma enum_msgs_not_duration label allowed ov :
  Forall not_duration (enum_msgs py_repr label allowed ov).
Proof.
  unfold enum_msgs. destruct ov as [v |]; [ | constructor ].
  destruct (py_in v (map VStr allowed)); repeat constructor.
Qed.

Lemma duration_int_msgs_head key ov :
  Forall (fun m => duration_head m = true) (duration_int_msgs py_repr key ov).
Proof.
  unfold duration_int_msgs. destruct ov as [v |]; [ | constructor ].
  destruct key;
    (destruct (negb (is_int v)); [ repeat first [ reflexivity | constructor ] | ]);
    destruct (Z.leb (int_val v) 0); repeat first [ reflexivity | constructor ].
Qed.

Lemma duration_order_msgs_head oe ot :
  Forall (fun m => duration_head m = true) (duration_order_msgs py_repr oe ot).
Proof.
  unfold duration_order_msgs. destruct oe as [e |], ot as [t |]; try constructor.
  destruct (is_int e && is_int t && Z.ltb (int_val t) (int_val e));
    repeat first [ reflexivity | constructor ].
Qed.

(** In a document whose duration block is a mapping, the messages that
    start with [duration.] are exactly those of the integer, positivity
    and ordering rules, in this order. *)
Lemma duration_messages d o du :
  dict_lookup "operation" d = Some (VDict o) ->
  dict_lookup "duration" o = Some (VDict du) ->
  filter duration_head (validate_operation py_repr exn_text (Loaded (VDict d))) =
  duration_int_msgs py_repr "expected" (dict_lookup "expected" du)
  ++ duration_int_msgs py_repr "timeout" (dict_lookup "timeout" du)
  ++ duration_order_msgs py_repr (dict_lookup "expected" du)
                         (dict_lookup "timeout" du).
Proof.
  intros Hop Hdu.
  rewrite (validate_operation_dict py_repr exn_text d o).
  - unfold duration_block_msgs, duration_msgs. rewrite Hdu.
    rewrite !filter_app.
    rewrite (filter_none _ (check_required _)) by apply check_required_not_duration.
    rewrite !(filter_none _ (enum_msgs _ _ _ _)) by apply enum_msgs_not_duration.
    rewrite (filter_none _ (fst _)) by apply after_duration_not_duration.
    rewrite (filter_none _ (except_msgs _ _)) by apply except_msgs_not_duration.
    rewrite !(filter_all _ (duration_int_msgs _ _ _)) by apply duration_int_msgs_head.
    rewrite (filter_all _ (duration_order_msgs _ _ _)) by apply duration_order_msgs_head.
    rewrite !app_nil_r. reflexivity.
  - intros ->. discriminate.
  - apply dict_get_lookup, Hop.
  - right. eauto.
Qed.

End DurationMessages.

Lemma prefix_nil (s : string) : String.prefix "" s = true.
Proof. destruct s; reflexivity. Qed.

Lemma prefix_append (s x : string) : String.prefix s (s +++ x) = true.
Proof.
  induction s as [| c s IH]; simpl; [ apply prefix_nil | ].
  destruct (ascii_dec c c); [ exact IH | congruence ].
Qed.

Lemma prefix_append_l (a b m : string) :
  String.prefix (a +++ b) m = true -> String.prefix a m = true.
Proof.
  revert m. induction a as [| c a IH]; intros m; [ intros _; apply prefix_nil | ].
  destruct m as [| c' m]; simpl; [ discriminate | ].
  destruct (ascii_dec c c'); [ apply IH | discriminate ].
Qed.

Lemma order_head_duration (m : string) :
  order_head m = true -> duration_head m = true.
Proof.
  unfold order_head, duration_head.
  change "duration.timeout (" with ("duration." +++ "timeout (").
  apply prefix_append_l.
Qed.

Lemma filter_sub {A : Type} (f g : A -> bool) (l : list A) :
  (forall x, f x = true -> g x = true) ->
  filter f l = filter f (filter g l).
Proof.
  intros H. induction l as [| x l IH]; simpl; [ reflexivity | ].
  destruct (g x) eqn:Eg; simpl.
  - rewrite IH. reflexivity.
  - destruct (f x) eqn:Ef; [ | exact IH ].
    apply H in Ef. congruence.
Qed.

Lemma order_head_order_msg py_repr e t : order_head (order_msg py_repr e t) = true.
Proof. unfold order_head, order_msg. apply prefix_append. Qed.

(** The paths of the two duration values. *)
Lemma duration_value_inv data key v :
  In key ["expected"; "timeout"] ->
  get_nested_value data ("operation.duration." +++ key) = (v, true) ->
  exists d o du, data = VDict d
                 /\ dict_lookup "operation" d = Some (VDict o)
                 /\ dict_lookup "duration" o = Some (VDict du)
                 /\ dict_lookup key du = Some v.
Proof.
  intros Hk H. unfold get_nested_value in H.
  assert (Hs : split_on "." ("operation.duration." +++ key)
               = ["operation"; "duration"; key])
    by (destruct Hk as [<- | [<- | []]]; reflexivity).
  rewrite Hs in H.
  apply block_field_inv in H as (d & o & du & -> & _ & Hop & Hdu & Hv).
  exists d, o, du. auto.
Qed.

Section DurationClaims.

Variable py_repr : value -> string.
Variable exn_text : pyexn -> string.

(** C6.  For [duration.expected] and [duration.timeout], if present:
    a value that is not an [int] instance is reported by its type
    name; an integer that is not positive gets a positivity message;
    and when both are present and integers, [timeout < expected] gives
    exactly one ordering message, with both values, and
    [timeout >= expected] gives none. *)
Theorem C6_duration_rules (data : value) :
  (forall key v,
      In key ["expected"; "timeout"] ->
      get_nested_value data ("operation.duration." +++ key) = (v, true) ->
      (is_int v = false ->
       In ("duration." +++ key +++ " must be integer, got: " +++ type_name v)
          (validate_operation py_repr exn_text (Loaded data))) /\
      (is_int v = true -> (int_val v <= 0)%Z ->
       In ("duration." +++ key +++ " must be positive, got: " +++ py_str py_repr v)
          (validate_operation py_repr exn_text (Loaded data)))) /\
  (forall e t,
      get_nested_value data "operation.duration.expected" = (e, true) ->
      get_nested_value data "operation.duration.timeout" = (t, true) ->
      is_int e = true -> is_int t = true ->
      ((int_val t < int_val e)%Z ->
       filter order_head (validate_operation py_repr exn_text (Loaded data)) =
       ["duration.timeout (" +++ py_str py_repr t +++
        ") should be >= duration.expected (" +++ py_str py_repr e +++ ")"]) /\
      ((int_val e <= int_val t)%Z ->
       filter order_head (validate_operation py_repr exn_text (Loaded data)) = [])).
Proof.
  split.
  - intros key v Hk Hget.
    destruct (duration_value_inv data key v Hk Hget)
      as (d & o & du & -> & Hop & Hdu & Hv).
    assert (Hin : forall m,
               In m (duration_int_msgs py_repr key (Some v)) ->
               In m (validate_operation py_repr exn_text (Loaded (VDict d)))).
    { intros m Hm.
      apply (proj1 (filter_In duration_head m _)).
      rewrite (duration_messages py_repr exn_text d o du Hop Hdu).
      destruct Hk as [<- | [<- | []]]; rewrite Hv.
      - apply in_or_app. left. exact Hm.
      - apply in_or_app. right. apply in_or_app. left. exact Hm. }
    split.
    + intros Hni. apply Hin. unfold duration_int_msgs. rewrite Hni. left. reflexivity.
    + intros Hi Hle. apply Hin. unfold duration_int_msgs. rewrite Hi. cbn [negb].
      apply Z.leb_le in Hle. rewrite Hle. left. reflexivity.
  - intros e t He Ht Hie Hit.
    destruct (duration_value_inv data "expected" e (or_introl eq_refl) He)
      as (d & o & du & -> & Hop & Hdu & Hve).
    destruct (duration_value_inv (VDict d) "timeout" t (or_intror (or_introl eq_refl)) Ht)
      as (d' & o' & du' & Ed & Hop' & Hdu' & Hvt).
    injection Ed as <-. rewrite Hop in Hop'. injection Hop' as <-.
    rewrite Hdu in Hdu'. injection Hdu' as <-.
    rewrite (filter_sub order_head duration_head) by apply order_head_duration.
    rewrite (duration_messages py_repr exn_text d o du Hop Hdu), Hve, Hvt.
    unfold duration_int_msgs, duration_order_msgs. rewrite Hie, Hit. cbn [negb andb].
    rewrite !filter_app.
    assert (H1 : filter order_head
                   (if (int_val e <=? 0)%Z then [positive_msg py_repr "expected" e] else []) = [])
      by (destruct (int_val e <=? 0)%Z; reflexivity).
    assert (H2 : filter order_head
                   (if (int_val t <=? 0)%Z then [positive_msg py_repr "timeout" t] else []) = [])
      by (destruct (int_val t <=? 0)%Z; reflexivity).
    rewrite H1, H2. cbn [app].
    split; intros Hlt.
    + apply Z.ltb_lt in Hlt. rewrite Hlt. cbn [filter].
      rewrite order_head_order_msg. reflexivity.
    + apply Z.ltb_ge in Hlt. rewrite Hlt. reflexivity.
Qed.

End DurationClaims.

(** C6 at [expected = 100], [timeout = 50]: one ordering message. *)
Lemma C6_duration_rules_witness :
  filter order_head
    (validate_operation sample_repr sample_exn_text
       (Loaded (VDict [("operation",
                        VDict [("duration", VDict [("expected", VInt 100);
                                                   ("timeout", VInt 50)])])])))
  = ["duration.timeout (50) should be >= duration.expected (100)"].
Proof.
  apply (proj1 (proj2 (C6_duration_rules sample_repr sample_exn_text
                         (VDict [("operation",
                                  VDict [("duration",
                                          VDict [("expected", VInt 100);
                                                 ("timeout", VInt 50)])])]))
                      (VInt 100) (VInt 50) eq_refl eq_refl eq_refl eq_refl)).
  reflexivity.
Defined.

Lemma timeout_lookup d o du :
  dict_lookup "operation" d = Some (VDict o) ->
  dict_lookup "duration" o = Some (VDict du) ->
  get_nested_value (VDict d) "operation.duration.timeout" =
  match dict_lookup "timeout" du with
  | Some t => (t, true)
  | None => (VNull, false)
  end.
Proof.
  intros Hop Hdu. unfold get_nested_value.
  change (split_on "." "operation.duration.timeout")
    with ["operation"; "duration"; "timeout"].
  cbn [get_nested]. rewrite Hop, Hdu. reflexivity.
Qed.

Section BooleanDurations.

Variable py_repr : value -> string.
Variable exn_text : pyexn -> string.

Ltac split_ifs :=
  repeat (cbn;
          match goal with
          | |- context [if ?c then _ else _] => destruct c
          | |- context [match ?c with Some _ => _ | None => _ end] => destruct c
          end).

(** C10 (as amended).  A boolean in [duration.expected] or [duration.timeout] gets
    no integer-type message; [True] gets no positivity message either;
    and with [duration.expected: true] and a timeout that is absent or
    a positive integer, no message about the duration values is
    produced at all. *)
Theorem C10_boolean_durations (data : value) :
  (forall key b,
      In key ["expected"; "timeout"] ->
      get_nested_value data ("operation.duration." +++ key) = (VBool b, true) ->
      filter (String.prefix ("duration." +++ key +++ " must be integer"))
             (validate_operation py_repr exn_text (Loaded data)) = [] /\
      (b = true ->
       filter (String.prefix ("duration." +++ key +++ " must be"))
              (validate_operation py_repr exn_text (Loaded data)) = [])) /\
  (get_nested_value data "operation.duration.expected" = (VBool true, true) ->
   (snd (get_nested_value data "operation.duration.timeout") = false \/
    exists t, get_nested_value data "operation.duration.timeout" = (t, true)
              /\ is_int t = true /\ (0 < int_val t)%Z) ->
   filter duration_head (validate_operation py_repr exn_text (Loaded data)) = []).
Proof.
  split.
  - intros key b Hk Hget.
    destruct (duration_value_inv data key (VBool b) Hk Hget)
      as (d & o & du & -> & Hop & Hdu & Hv).
    assert (Hmsgs := duration_messages py_repr exn_text d o du Hop Hdu).
    split; [ | intros -> ];
      (rewrite (filter_sub _ duration_head);
       [ | intros m; apply (prefix_append_l "duration.") ]);
      rewrite Hmsgs; clear Hmsgs;
      destruct Hk as [<- | [<- | []]]; rewrite Hv;
      unfold duration_int_msgs, duration_order_msgs;
      try destruct b; split_ifs; reflexivity.
  - intros He Ht.
    destruct (duration_value_inv data "expected" (VBool true) (or_introl eq_refl) He)
      as (d & o & du & -> & Hop & Hdu & Hv).
    rewrite (duration_messages py_repr exn_text d o du Hop Hdu), Hv.
    rewrite (timeout_lookup d o du Hop Hdu) in Ht.
    unfold duration_int_msgs, duration_order_msgs. cbn [is_int negb int_val andb].
    destruct (dict_lookup "timeout" du) as [t |].
    + destruct Ht as [Hf | (t' & Et & Hi & Hpos)]; [ discriminate | ].
      injection Et as <-. rewrite Hi. cbn [negb].
      assert (H1 : (int_val t <=? 0)%Z = false) by (apply Z.leb_gt; lia).
      assert (H2 : (int_val t <? 1)%Z = false) by (apply Z.ltb_ge; lia).
      rewrite H1, H2. reflexivity.
    + reflexivity.
Qed.

End BooleanDurations.

(** C10 at [duration.expected: true] with [timeout: 30]. *)
Lemma C10_boolean_durations_witness :
  filter duration_head
    (validate_operation sample_repr sample_exn_text
       (Loaded (VDict [("operation",
                        VDict [("duration", VDict [("expected", VBool true);
                                                   ("timeout", VInt 30)])])])))
  = [].
Proof.
  apply (proj2 (C10_boolean_durations sample_repr sample_exn_text _)).
  - reflexivity.
  - right. exists (VInt 30). repeat split.
Defined.

(** C10 as stated fails: with [duration.expected: true] and
    [duration.timeout: false] the timeout, a boolean too, is not
    positive and is below the expected value, and two messages about
    the duration are produced. *)
Lemma C10_true_expected_false_timeout_counterexample :
  filter duration_head
    (validate_operation sample_repr sample_exn_text
       (Loaded (VDict [("operation",
                        VDict [("duration", VDict [("expected", VBool true);
                                                   ("timeout", VBool false)])])])))
  = ["duration.timeout must be positive, got: False";
     "duration.timeout (False) should be >= duration.expected (True)"].
Proof. reflexivity. Qed.

(** ** Exceptions never leave the validator *)

Lemma no_fuel_mbind {A B : Type} (m : M A) (k : A -> M B) :
  snd m <> OutOfFuel -> (forall a, snd (k a) <> OutOfFuel) ->
  snd (mbind m k) <> OutOfFuel.
Proof.
  intros Hm Hk. destruct m as [w r]; destruct r as [a | e |]; simpl in *.
  - specialize (Hk a). destruct (k a); exact Hk.
  - discriminate.
  - congruence.
Qed.

Lemma no_fuel_when (b : bool) (m : M unit) :
  snd m <> OutOfFuel -> snd (when b m) <> OutOfFuel.
Proof. destruct b; simpl; [ auto | discriminate ]. Qed.

Lemma no_fuel_contains k c : snd (lift (py_contains k c)) <> OutOfFuel.
Proof. destruct c; discriminate. Qed.

Lemma no_fuel_getitem c k : snd (lift (py_getitem c k)) <> OutOfFuel.
Proof. destruct c; simpl; try discriminate. destruct (dict_lookup k d); discriminate. Qed.

Lemma no_fuel_get c k dflt : snd (lift (py_get c k dflt)) <> OutOfFuel.
Proof. destruct c; discriminate. Qed.

Ltac no_fuel_step :=
  first
    [ apply no_fuel_mbind; [ | intros ]
    | apply no_fuel_when
    | apply no_fuel_contains
    | apply no_fuel_getitem
    | apply no_fuel_get
    | discriminate
    | match goal with
      | |- snd (match ?x with _ => _ end) <> OutOfFuel => destruct x
      end ].

Section NeverRaises.

Variable py_repr : value -> string.
Variable exn_text : pyexn -> string.

Lemma check_rest_no_fuel data : snd (check_rest py_repr data) <> OutOfFuel.
Proof. unfold check_rest. repeat no_fuel_step. Qed.

Lemma validate_body_no_fuel out : snd (validate_body py_repr out) <> OutOfFuel.
Proof.
  destruct out as [msg | msg | data]; try discriminate.
  unfold validate_body. destruct (truthy data); cbn [negb].
  - apply no_fuel_mbind; [ discriminate | intros ].
    apply no_fuel_mbind; [ apply check_rest_no_fuel | intros; discriminate ].
  - discriminate.
Qed.

Lemma load_operations_from_skip acc fs1 fs2 path out :
  (forall data, out <> Loaded data) ->
  Deps.load_operations_from acc (fs1 ++ (path, out) :: fs2) =
  Deps.load_operations_from acc (fs1 ++ fs2).
Proof.
  intros Hout. revert acc. induction fs1 as [| [p o] fs1 IH]; intros acc.
  - simpl. destruct out; try reflexivity. exfalso. eapply Hout; reflexivity.
  - simpl. destruct o; try apply IH.
    destruct (Deps.load_one p data) as [[[k dd] |] | e |]; apply IH.
Qed.

(** C7.  [validate_operation] always returns a list of messages:
    whatever its [try] block raises is turned into exactly one more
    message, after the ones already collected.  A file that fails to
    parse gets the single message "YAML parsing error: ...", a file
    that cannot be read the single message "Unexpected error: ...";
    and [load_operations] leaves such a file out of the operations it
    hands to the graph checks. *)
Theorem C7_validator_never_raises :
  (forall out,
      match snd (validate_body py_repr out) with
      | Ok _ => validate_operation py_repr exn_text out
                = fst (validate_body py_repr out)
      | Raise e => exists m, validate_operation py_repr exn_text out
                             = fst (validate_body py_repr out) ++ [m]
      | OutOfFuel => False
      end) /\
  (forall msg, validate_operation py_repr exn_text (ParseFails msg)
               = ["YAML parsing error: " +++ msg]) /\
  (forall msg, validate_operation py_repr exn_text (ReadFails msg)
               = ["Unexpected error: " +++ msg]) /\
  (forall fs1 fs2 path out,
      (forall data, out <> Loaded data) ->
      Deps.load_operations (fs1 ++ (path, out) :: fs2)
      = Deps.load_operations (fs1 ++ fs2)).
Proof.
  repeat split.
  - intros out. pose proof (validate_body_no_fuel out) as Hnf.
    unfold validate_operation.
    destruct (validate_body py_repr out) as [w r]. simpl in *.
    destruct r as [a | e |].
    + apply app_nil_r.
    + destruct e; eexists; reflexivity.
    + congruence.
  - intros. unfold Deps.load_operations. apply load_operations_from_skip.
    assumption.
Qed.

End NeverRaises.

(** C7 at three files of which the second does not parse. *)
Lemma C7_validator_never_raises_witness :
  Deps.load_operations
    [("a.yaml", Loaded (VDict [("operation", VDict [("id", VStr "a")])]));
     ("b.yaml", ParseFails "mapping values are not allowed here");
     ("c.yaml", Loaded (VDict [("operation", VDict [("id", VStr "c")])]))]
  = Deps.load_operations
      [("a.yaml", Loaded (VDict [("operation", VDict [("id", VStr "a")])]));
       ("c.yaml", Loaded (VDict [("operation", VDict [("id", VStr "c")])]))].
Proof.
  apply (proj2 (proj2 (proj2
           (C7_validator_never_raises sample_repr sample_exn_text)))
           [("a.yaml", Loaded (VDict [("operation", VDict [("id", VStr "a")])]))]
           [("c.yaml", Loaded (VDict [("operation", VDict [("id", VStr "c")])]))]
           "b.yaml" (ParseFails "mapping values are not allowed here")).
  intros data. discriminate.
Defined.

(** * The dependency checks *)

Import Deps.

Lemma py_eqb_str_refl (s : string) : py_eqb (VStr s) (VStr s) = true.
Proof. simpl. apply String.eqb_refl. Qed.

Lemma py_eqb_str_l (s : string) (v : value) :
  py_eqb (VStr s) v = true <-> v = VStr s.
Proof.
  split.
  - destruct v; simpl; try discriminate. intros H.
    apply String.eqb_eq in H. congruence.
  - intros ->. apply py_eqb_str_refl.
Qed.

Lemma py_eqb_str_r (s : string) (v : value) :
  py_eqb v (VStr s) = true <-> v = VStr s.
Proof.
  split.
  - destruct v; simpl; try discriminate. intros H.
    apply String.eqb_eq in H. congruence.
  - intros ->. apply py_eqb_str_refl.
Qed.

(** ** Statistics *)

Lemma stats_loop_cons k op items st :
  is_list (requires op) = true ->
  stats_loop ((k, op) :: items) st = stats_loop items (stats_step k (req_len op) st).
Proof.
  intros Hl. unfold req_len, stats_step. cbn [stats_loop].
  destruct (requires op) as [| | | | l |]; try discriminate.
  destruct l as [| e l]; [ reflexivity | ].
  simpl. destruct (Nat.ltb (max_dependencies st) (S (List.length l)));
    reflexivity.
Qed.

Lemma stats_step_fields k n st :
  total_operations (stats_step k n st) = total_operations st /\
  operations_with_deps (stats_step k n st)
  = operations_with_deps st + (if Nat.ltb 0 n then 1 else 0) /\
  total_dependencies (stats_step k n st) = total_dependencies st + n /\
  max_dependencies (stats_step k n st) = Nat.max (max_dependencies st) n /\
  most_dependent_op (stats_step k n st)
  = if Nat.ltb (max_dependencies st) n then Some k else most_dependent_op st.
Proof.
  unfold stats_step.
  destruct (Nat.ltb_spec 0 n) as [H0 | H0]; simpl.
  - destruct (Nat.ltb_spec (max_dependencies st) n); repeat split; lia.
  - assert (n = 0) by lia. subst n.
    repeat split; lia.
Qed.

Lemma first_with_len_cons m k op items :
  first_with_len m ((k, op) :: items)
  = if Nat.eqb (req_len op) m then Some k else first_with_len m items.
Proof.
  unfold first_with_len. cbn [find snd].
  destruct (Nat.eqb (req_len op) m); reflexivity.
Qed.

Lemma stats_loop_lists (items : operations) (st : stats) :
  requires_are_lists items = true ->
  stats_loop items st =
  Ok (mk_stats
        (total_operations st)
        (operations_with_deps st
         + List.length (filter (fun kd => Nat.ltb 0 (req_len (snd kd))) items))
        (total_dependencies st + list_sum (map (fun kd => req_len (snd kd)) items))
        (Nat.max (max_dependencies st)
                 (list_max (map (fun kd => req_len (snd kd)) items)))
        (if Nat.ltb (max_dependencies st)
                    (list_max (map (fun kd => req_len (snd kd)) items))
         then first_with_len (list_max (map (fun kd => req_len (snd kd)) items)) items
         else most_dependent_op st)).
Proof.
  revert st. induction items as [| [k op] items IH]; intros st Hl.
  - simpl. rewrite Nat.max_0_r, !Nat.add_0_r. destruct st; reflexivity.
  - simpl in Hl. apply andb_true_iff in Hl as [Hk Hl].
    rewrite (stats_loop_cons k op items st Hk), (IH _ Hl).
    destruct (stats_step_fields k (req_len op) st) as (F1 & F2 & F3 & F4 & F5).
    rewrite F1, F2, F3, F4, F5. rewrite first_with_len_cons.
    cbn [map filter list_sum list_max fold_right snd].
    fold (list_max (map (fun kd => req_len (snd kd)) items)).
    fold (list_sum (map (fun kd => req_len (snd kd)) items)).
    set (M := list_max (map (fun kd => req_len (snd kd)) items)).
    set (n := req_len op).
    f_equal. f_equal.
    + destruct (Nat.ltb 0 n); cbn [List.length]; lia.
    + lia.
    + lia.
    + destruct (Nat.ltb_spec (Nat.max (max_dependencies st) n) M) as [H1 | H1].
      * assert (E : Nat.max n M = M) by lia. rewrite E.
        destruct (Nat.ltb_spec (max_dependencies st) M); [ | lia ].
        destruct (Nat.eqb_spec n M); [ lia | reflexivity ].
      * destruct (Nat.ltb_spec (max_dependencies st) n) as [H2 | H2].
        -- assert (E : Nat.max n M = n) by lia. rewrite E.
           destruct (Nat.ltb_spec (max_dependencies st) n); [ | lia ].
           rewrite Nat.eqb_refl. reflexivity.
        -- destruct (Nat.ltb_spec (max_dependencies st) (Nat.max n M));
             [ lia | reflexivity ].
Qed.

(** C9 (as amended).  When every [requires] is a sequence, the
    statistics are: the number of operations, the number of operations
    with a non-empty [requires], the total number of [requires]
    entries (whether or not an entry resolves to an id), the largest
    number of entries of one operation, and the id of the first
    operation that has that many (none when no operation has
    entries). *)
Theorem C9_dependency_stats (ops : operations) :
  requires_are_lists ops = true ->
  build_dependency_stats ops =
  Ok (mk_stats
        (List.length ops)
        (List.length (filter (fun kd => Nat.ltb 0 (req_len (snd kd))) ops))
        (list_sum (map (fun kd => req_len (snd kd)) ops))
        (list_max (map (fun kd => req_len (snd kd)) ops))
        (most_entries ops)).
Proof.
  intros Hl. unfold build_dependency_stats.
  rewrite (stats_loop_lists ops _ Hl). reflexivity.
Qed.

(** C9 on the three operations of the end-to-end example. *)
Lemma C9_dependency_stats_witness :
  build_dependency_stats
    [(VStr "net-create", mk_op "a.yaml" (VStr "A") (VList []) (VStr "networking"));
     (VStr "net-configure",
      mk_op "b.yaml" (VStr "B") (VList [VStr "net-create"]) (VStr "networking"));
     (VStr "net-delete",
      mk_op "c.yaml" (VStr "C") (VList [VStr "net-configure"; VStr "ghost-op"])
            (VStr "networking"))]
  = Ok (mk_stats 3 2 3 2 (Some (VStr "net-delete"))).
Proof.
  apply (C9_dependency_stats
           [(VStr "net-create", mk_op "a.yaml" (VStr "A") (VList []) (VStr "networking"));
            (VStr "net-configure",
             mk_op "b.yaml" (VStr "B") (VList [VStr "net-create"]) (VStr "networking"));
            (VStr "net-delete",
             mk_op "c.yaml" (VStr "C") (VList [VStr "net-configure"; VStr "ghost-op"])
                   (VStr "networking"))]).
  reflexivity.
Defined.

(** C9 as stated fails: an entry that is a mapping without an
    [operation] field resolves to an empty id and is no edge of the
    requires-graph, yet it is counted as a dependency and as the
    out-degree of its operation. *)
Lemma C9_unresolved_entry_counterexample :
  graph_edges
    [(VStr "a", mk_op "a.yaml" (VStr "A") (VList [VDict []]) (VStr "storage"))]
  = [] /\
  build_dependency_stats
    [(VStr "a", mk_op "a.yaml" (VStr "A") (VList [VDict []]) (VStr "storage"))]
  = Ok (mk_stats 1 1 1 1 (Some (VStr "a"))).
Proof. split; reflexivity. Qed.

(** ** Entries that resolve to nothing *)

Section IgnoredEntry.

Variable e : value.
Hypothesis Hfalsy : truthy (resolve e) = false.

Lemma missing_in_drop ids id f la lb :
  missing_in ids id f (la ++ e :: lb) = missing_in ids id f (la ++ lb).
Proof.
  induction la as [| a l IH]; simpl.
  - rewrite Hfalsy. reflexivity.
  - rewrite IH. reflexivity.
Qed.

Lemma find_missing_loop_drop ids oa ob k op la lb :
  requires op = VList (la ++ e :: lb) ->
  find_missing_loop ids (oa ++ (k, op) :: ob)
  = find_missing_loop ids (oa ++ (k, with_requires op (la ++ lb)) :: ob).
Proof.
  intros Hreq. induction oa as [| [k0 op0] r IH]; simpl.
  - rewrite Hreq, missing_in_drop. reflexivity.
  - rewrite IH. reflexivity.
Qed.

Lemma dfs_deps_drop_entry o rec la lb st :
  dfs_deps o rec (la ++ e :: lb) st = dfs_deps o rec (la ++ lb) st.
Proof.
  revert st. induction la as [| a l IH]; intros st; simpl.
  - rewrite Hfalsy. reflexivity.
  - destruct (negb (truthy (resolve a))); [ apply IH | ].
    destruct (key_in (resolve a) (keys o)) as [known | ex |]; simpl; try reflexivity.
    destruct (negb known); [ apply IH | ].
    destruct (negb (py_in (resolve a) (visited st))).
    + destruct (rec (resolve a) st); simpl; auto.
    + destruct (py_in (resolve a) (rec_stack st)); apply IH.
Qed.

Lemma dfs_deps_ext o o' rec rec' deps st :
  keys o' = keys o ->
  (forall n s, rec n s = rec' n s) ->
  dfs_deps o rec deps st = dfs_deps o' rec' deps st.
Proof.
  intros Hkeys Hrec. revert st. induction deps as [| a l IH]; intros st; simpl.
  - reflexivity.
  - rewrite Hkeys.
    destruct (negb (truthy (resolve a))); [ apply IH | ].
    destruct (key_in (resolve a) (keys o)) as [known | ex |]; simpl; try reflexivity.
    destruct (negb known); [ apply IH | ].
    destruct (negb (py_in (resolve a) (visited st))).
    + rewrite Hrec. destruct (rec' (resolve a) st); simpl; auto.
    + destruct (py_in (resolve a) (rec_stack st)); apply IH.
Qed.

Lemma requires_of_drop oa ob k op la lb node :
  requires op = VList (la ++ e :: lb) ->
  requires_of (oa ++ (k, with_requires op (la ++ lb)) :: ob) node
  = requires_of (oa ++ (k, op) :: ob) node \/
  (requires_of (oa ++ (k, op) :: ob) node = la ++ e :: lb /\
   requires_of (oa ++ (k, with_requires op (la ++ lb)) :: ob) node = la ++ lb).
Proof.
  intros Hreq. unfold requires_of. induction oa as [| [k0 op0] r IH]; simpl.
  - destruct (py_eqb k node); [ | left; reflexivity ].
    right. rewrite Hreq. split; reflexivity.
  - destruct (py_eqb k0 node); [ left; reflexivity | exact IH ].
Qed.

Lemma keys_drop oa ob k op l :
  keys (oa ++ (k, with_requires op l) :: ob) = keys (oa ++ (k, op) :: ob).
Proof. unfold keys. rewrite !map_app. reflexivity. Qed.

Lemma dfs_drop oa ob k op la lb fuel node st :
  requires op = VList (la ++ e :: lb) ->
  dfs (oa ++ (k, op) :: ob) fuel node st
  = dfs (oa ++ (k, with_requires op (la ++ lb)) :: ob) fuel node st.
Proof.
  intros Hreq. revert node st.
  induction fuel as [| f IH]; intros node st; [ reflexivity | ].
  simpl. f_equal.
  destruct (requires_of_drop oa ob k op la lb node Hreq) as [-> | [-> ->]].
  - apply dfs_deps_ext; [ apply keys_drop | apply IH ].
  - rewrite dfs_deps_drop_entry.
    apply dfs_deps_ext; [ apply keys_drop | apply IH ].
Qed.

Lemma roots_loop_drop oa ob k op la lb fuel roots vg cyc log :
  requires op = VList (la ++ e :: lb) ->
  roots_loop (oa ++ (k, op) :: ob) fuel roots vg cyc log
  = roots_loop (oa ++ (k, with_requires op (la ++ lb)) :: ob) fuel roots vg cyc log.
Proof.
  intros Hreq. revert vg cyc log.
  induction roots as [| r roots IH]; intros vg cyc log; simpl.
  - reflexivity.
  - destruct (py_in r vg); [ apply IH | ].
    rewrite (dfs_drop oa ob k op la lb) by exact Hreq.
    destruct (dfs _ fuel r _); simpl; auto.
Qed.

Lemma graph_edges_drop oa ob k op la lb :
  requires op = VList (la ++ e :: lb) ->
  graph_edges (oa ++ (k, op) :: ob)
  = graph_edges (oa ++ (k, with_requires op (la ++ lb)) :: ob).
Proof.
  intros Hreq. unfold graph_edges. rewrite !flat_map_app. f_equal.
  cbn [flat_map snd fst requires with_requires]. f_equal.
  rewrite Hreq, !filter_app. cbn [filter]. rewrite Hfalsy. reflexivity.
Qed.

End IgnoredEntry.

(** C2 (as amended).  A [requires] entry that resolves to a falsy id
    (a mapping without an [operation] field, an empty string, null,
    zero, false, an empty sequence) is treated as absent: with or
    without it, the reference checker returns the same findings, the
    cycle detector makes the same traversal and returns the same
    cycles, and the requires-graph has the same edges. *)
Theorem C2_unresolved_entry_ignored
        (ops1 ops2 : operations) (k : value) (op : op_data)
        (l1 l2 : list value) (e : value) :
  requires op = VList (l1 ++ e :: l2) ->
  truthy (resolve e) = false ->
  let ops := ops1 ++ (k, op) :: ops2 in
  let ops' := ops1 ++ (k, with_requires op (l1 ++ l2)) :: ops2 in
  find_missing_dependencies ops = find_missing_dependencies ops' /\
  (forall depth, detect_run depth ops = detect_run depth ops') /\
  (forall depth, detect_circular_dependencies depth ops
                 = detect_circular_dependencies depth ops') /\
  graph_edges ops = graph_edges ops'.
Proof.
  intros Hreq Hfalsy ops ops'.
  assert (Hrun : forall depth, detect_run depth ops = detect_run depth ops').
  { intros depth. unfold detect_run, ops, ops'. rewrite keys_drop.
    apply roots_loop_drop with (e := e); assumption. }
  repeat split.
  - unfold find_missing_dependencies, ops, ops'. rewrite keys_drop.
    apply find_missing_loop_drop with (e := e); assumption.
  - exact Hrun.
  - intros depth. unfold detect_circular_dependencies. rewrite Hrun.
    reflexivity.
  - apply graph_edges_drop with (e := e); assumption.
Qed.

(** C2 at an operation whose second entry is a mapping without an
    [operation] field. *)
Lemma C2_unresolved_entry_ignored_witness :
  find_missing_dependencies
    [(VStr "a", mk_op "a.yaml" (VStr "A")
                      (VList [VStr "ghost"; VDict [("note", VStr "x")]; VStr "a"])
                      (VStr "storage"))]
  = find_missing_dependencies
      [(VStr "a", mk_op "a.yaml" (VStr "A")
                        (VList [VStr "ghost"; VStr "a"]) (VStr "storage"))].
Proof.
  apply (C2_unresolved_entry_ignored
           [] [] (VStr "a")
           (mk_op "a.yaml" (VStr "A")
                  (VList [VStr "ghost"; VDict [("note", VStr "x")]; VStr "a"])
                  (VStr "storage"))
           [VStr "ghost"] [VStr "a"] (VDict [("note", VStr "x")])).
  - reflexivity.
  - reflexivity.
Defined.

(** C2 as stated fails: the entry [5] is neither a bare id string nor
    a mapping with an [operation] field, and the reference checker
    reports it as a missing dependency. *)
Lemma C2_integer_entry_counterexample :
  find_missing_dependencies
    [(VStr "a", mk_op "a.yaml" (VStr "A") (VList [VInt 5]) (VStr "storage"))]
  = Ok [(VStr "a", VInt 5, "a.yaml")].
Proof. reflexivity. Qed.

(** ** Sets of string ids *)

Lemma py_in_str (x : value) (l : list value) :
  is_str x = true -> (py_in x l = true <-> In x l).
Proof.
  intros Hx. destruct x; try discriminate. unfold py_in.
  rewrite existsb_exists. split.
  - intros (y & Hy & He). apply py_eqb_str_l in He. subst. exact Hy.
  - intros Hin. exists (VStr s). split; [ exact Hin | apply py_eqb_str_refl ].
Qed.

Lemma py_in_str_false (x : value) (l : list value) :
  is_str x = true -> (py_in x l = false <-> ~ In x l).
Proof.
  intros Hx. rewrite <- (py_in_str x l Hx).
  destruct (py_in x l); split; intros; congruence.
Qed.

Lemma set_add_In (x y : value) (s : list value) :
  is_str x = true -> (In y (set_add x s) <-> In y s \/ y = x).
Proof.
  intros Hx. unfold set_add. destruct (py_in x s) eqn:E.
  - apply (py_in_str x s Hx) in E. split; [ auto | ].
    intros [H | ->]; assumption.
  - rewrite in_app_iff. simpl. intuition congruence.
Qed.

Lemma str_ids_keys (ops : operations) (k : value) :
  str_ids ops = true -> In k (keys ops) -> is_str k = true.
Proof.
  unfold str_ids, keys. rewrite forallb_forall. intros H Hin.
  apply in_map_iff in Hin as ([k' d] & <- & Hin). apply (H _ Hin).
Qed.

(** A dependency that passes [dep in operations] is one of the ids. *)
Lemma known_dep (ops : operations) (dep : value) :
  str_ids ops = true -> key_in dep (keys ops) = Ok true ->
  In dep (keys ops) /\ is_str dep = true.
Proof.
  intros Hs Hk. unfold key_in in Hk. destruct (hashable dep); [ | discriminate ].
  injection Hk as Hk. unfold py_in in Hk. apply existsb_exists in Hk as (k & Hin & He).
  pose proof (str_ids_keys ops k Hs Hin) as Hstr.
  destruct k; try discriminate. apply py_eqb_str_r in He. subst. auto.
Qed.

Lemma filter_length_le {A : Type} (f g : A -> bool) (l : list A) :
  (forall x, In x l -> f x = true -> g x = true) ->
  List.length (filter f l) <= List.length (filter g l).
Proof.
  induction l as [| a l IH]; simpl; intros H; [ lia | ].
  assert (IH' : List.length (filter f l) <= List.length (filter g l))
    by (apply IH; intros; apply H; auto).
  destruct (f a) eqn:Ef.
  - rewrite (H a (or_introl eq_refl) Ef). simpl. lia.
  - destruct (g a); simpl; lia.
Qed.

Lemma filter_length_lt {A : Type} (f g : A -> bool) (l : list A) (a : A) :
  (forall x, In x l -> f x = true -> g x = true) ->
  In a l -> f a = false -> g a = true ->
  List.length (filter f l) < List.length (filter g l).
Proof.
  induction l as [| b l IH]; simpl; intros H Hin Hf Hg; [ contradiction | ].
  assert (Hle : List.length (filter f l) <= List.length (filter g l))
    by (apply filter_length_le; intros; apply H; auto).
  destruct Hin as [-> | Hin].
  - rewrite Hf, Hg. simpl. lia.
  - assert (IH' : List.length (filter f l) < List.length (filter g l))
      by (apply IH; auto).
    destruct (f b) eqn:Ef.
    + rewrite (H b (or_introl eq_refl) Ef). simpl. lia.
    + destruct (g b); simpl; lia.
Qed.

Section Unvisited.

Variable ops : operations.
Hypothesis Hstr : str_ids ops = true.

Lemma unvisited_le (V V' : list value) :
  (forall x, In x V -> In x V') ->
  unvisited ops V' <= unvisited ops V.
Proof.
  intros Hsub. unfold unvisited. apply filter_length_le.
  intros k Hk. rewrite !negb_true_iff.
  pose proof (str_ids_keys ops k Hstr Hk) as Hs.
  rewrite !(py_in_str_false k _ Hs). auto.
Qed.

Lemma unvisited_lt (V V' : list value) (node : value) :
  (forall x, In x V -> In x V') ->
  In node (keys ops) -> ~ In node V -> In node V' ->
  unvisited ops V' < unvisited ops V.
Proof.
  intros Hsub Hk Hn Hin. unfold unvisited.
  pose proof (str_ids_keys ops node Hstr Hk) as Hs.
  apply filter_length_lt with (a := node); auto.
  - intros k Hk'. rewrite !negb_true_iff.
    pose proof (str_ids_keys ops k Hstr Hk') as Hs'.
    rewrite !(py_in_str_false k _ Hs'). auto.
  - apply negb_false_iff, (py_in_str node V' Hs), Hin.
  - apply negb_true_iff, (py_in_str_false node V Hs), Hn.
Qed.

Lemma unvisited_nil : unvisited ops [] = List.length ops.
Proof.
  unfold unvisited, keys. simpl.
  rewrite (filter_all (fun _ => true)); [ apply length_map | ].
  apply Forall_forall. reflexivity.
Qed.

End Unvisited.

(** ** The recursion stack is a path *)

Lemma chain_tail ops a rs : chain ops (a :: rs) -> chain ops rs.
Proof. destruct rs; simpl; tauto. Qed.

Lemma chain_snoc ops rs t n :
  chain ops (rs ++ [t]) -> edge ops t n -> chain ops ((rs ++ [t]) ++ [n]).
Proof.
  induction rs as [| a rs IH]; intros Hc He.
  - simpl. auto.
  - pose proof (IH (chain_tail _ _ _ Hc) He) as IH'.
    destruct rs as [| b rs]; simpl in *; tauto.
Qed.

Lemma chain_reach ops rs n x :
  chain ops (rs ++ [n]) -> In x (rs ++ [n]) ->
  clos_refl_trans value (edge ops) x n.
Proof.
  revert x. induction rs as [| a rs IH]; intros x Hc Hin.
  - simpl in Hin. destruct Hin as [<- | []]. apply rt_refl.
  - destruct Hin as [<- | Hin].
    + assert (Hn : clos_refl_trans value (edge ops) (hd n (rs ++ [n])) n).
      { apply IH; [ exact (chain_tail _ _ _ Hc) | ].
        destruct rs; simpl; auto. }
      apply rt_trans with (y := hd n (rs ++ [n])); [ | exact Hn ].
      apply rt_step. destruct rs; simpl in *; tauto.
    + apply IH; [ exact (chain_tail _ _ _ Hc) | exact Hin ].
Qed.

Lemma clos_t_then_rt {A : Type} (R : relation A) (x y z : A) :
  clos_trans A R x y -> clos_refl_trans A R y z -> clos_trans A R x z.
Proof.
  intros Hxy Hyz. revert x Hxy.
  induction Hyz as [y z Hyz | y | y w z _ IH1 _ IH2]; intros x Hxy.
  - apply t_trans with (y := y); [ exact Hxy | apply t_step, Hyz ].
  - exact Hxy.
  - apply IH2, IH1, Hxy.
Qed.

(** An edge back into the stack closes a cycle. *)
Lemma back_edge_cycle ops rs n dep :
  chain ops (rs ++ [n]) -> In dep (rs ++ [n]) -> edge ops n dep ->
  clos_trans value (edge ops) n n.
Proof.
  intros Hc Hin He.
  apply clos_t_then_rt with (y := dep); [ apply t_step, He | ].
  apply (chain_reach ops rs n dep Hc Hin).
Qed.

(** ** What one call of [dfs] does *)

Lemma grows_refl ops st : grows ops st st [].
Proof.
  unfold grows. rewrite app_nil_r.
  repeat split; auto; try tauto; try constructor; try contradiction.
  all: intros [H | []]; exact H.
Qed.

Lemma grows_trans ops st st1 st2 a b :
  grows ops st st1 a -> grows ops st1 st2 b -> grows ops st st2 (a ++ b).
Proof.
  intros (R1 & C1 & V1 & G1 & N1 & E1 & Y1) (R2 & C2 & V2 & G2 & N2 & E2 & Y2).
  unfold grows. repeat split.
  - congruence.
  - rewrite C2, C1, app_assoc. reflexivity.
  - rewrite V2, V1, in_app_iff. tauto.
  - rewrite in_app_iff, V2, V1. tauto.
  - rewrite G2, G1, in_app_iff. tauto.
  - rewrite in_app_iff, G2, G1. tauto.
  - apply NoDup_app; auto. intros x Ha Hb.
    apply E2 in Hb as [Hb _]. apply Hb, V1. auto.
  - apply in_app_iff in H as [H | H].
    + apply E1, H.
    + apply E2 in H as [H _]. intros Hv. apply H, V1. auto.
  - apply in_app_iff in H as [H | H]; [ apply E1, H | apply E2, H ].
  - apply in_app_iff in H as [H | H]; [ apply E1, H | apply E2, H ].
  - intros Hac. rewrite Y2, Y1; auto.
Qed.

Lemma record_cycle_fields dep st :
  visited (record_cycle dep st) = visited st /\
  visited_global (record_cycle dep st) = visited_global st /\
  rec_stack (record_cycle dep st) = rec_stack st /\
  calls (record_cycle dep st) = calls st.
Proof.
  unfold record_cycle. destruct (existsb _ (cycles st)); auto.
Qed.

Lemma grows_record_cycle ops st rs n dep :
  rec_stack st = rs ++ [n] -> chain ops (rs ++ [n]) ->
  In dep (rec_stack st) -> edge ops n dep ->
  grows ops st (record_cycle dep st) [].
Proof.
  intros Hrs Hc Hin He.
  destruct (record_cycle_fields dep st) as (Fv & Fg & Fr & Fc).
  unfold grows. rewrite Fv, Fg, Fr, Fc, app_nil_r.
  repeat split; auto; try tauto; try constructor; try contradiction.
  1-2: intros [H | []]; exact H.
  intros Hac. exfalso. apply (Hac n).
  apply back_edge_cycle with (rs := rs) (dep := dep); auto.
  rewrite <- Hrs. exact Hin.
Qed.

Lemma requires_of_hashable ops node :
  hashable_requires ops = true ->
  Forall (fun e => hashable_entry e = true) (requires_of ops node).
Proof.
  unfold hashable_requires, requires_of.
  induction ops as [| [k d] ops IH]; simpl; intros H; [ constructor | ].
  apply andb_true_iff in H as [Hd H].
  destruct (py_eqb k node); [ | apply IH, H ].
  destruct (requires d); try constructor.
  apply Forall_forall. apply forallb_forall. exact Hd.
Qed.

Section Traversal.

Variable ops : operations.
Hypothesis Hstr : str_ids ops = true.
Hypothesis Hhash : hashable_requires ops = true.

(** The loop over the entries, given that the recursive calls behave. *)
Lemma dfs_deps_grows (f : nat) :
  (forall node st, dfs_pre ops f node st ->
     exists st' added, dfs ops f node st = Ok st'
                       /\ grows ops st st' (node :: added)) ->
  forall deps node rs st,
    incl deps (requires_of ops node) ->
    rec_stack st = rs ++ [node] -> chain ops (rs ++ [node]) ->
    unvisited ops (visited st) <= f ->
    exists st' added, dfs_deps ops (dfs ops f) deps st = Ok st'
                      /\ grows ops st st' added.
Proof.
  intros IHf deps node rs.
  induction deps as [| dep0 deps IH]; intros st Hincl Hrs Hc Hmu.
  - exists st, []. split; [ reflexivity | apply grows_refl ].
  - assert (Hin0 : In dep0 (requires_of ops node)) by (apply Hincl; left; reflexivity).
    assert (Hincl' : incl deps (requires_of ops node))
      by (intros x Hx; apply Hincl; right; exact Hx).
    pose proof (requires_of_hashable ops node Hhash) as Hh.
    rewrite Forall_forall in Hh. specialize (Hh dep0 Hin0).
    cbn [dfs_deps]. set (dep := resolve dep0) in *.
    destruct (truthy dep) eqn:Et; cbn [negb]; [ | apply IH; auto ].
    unfold hashable_entry in Hh. fold dep in Hh. rewrite Et in Hh. cbn in Hh.
    unfold key_in at 1. rewrite Hh. cbn [bind].
    destruct (py_in dep (keys ops)) eqn:Ek; cbn [negb]; [ | apply IH; auto ].
    assert (Hkey : key_in dep (keys ops) = Ok true)
      by (unfold key_in; rewrite Hh, Ek; reflexivity).
    destruct (known_dep ops dep Hstr Hkey) as [Hdk Hds].
    assert (Hedge : edge ops node dep) by (exists dep0; auto).
    destruct (py_in dep (visited st)) eqn:Ev; cbn [negb].
    + destruct (py_in dep (rec_stack st)) eqn:Er.
      * apply (py_in_str dep _ Hds) in Er.
        pose proof (grows_record_cycle ops st rs node dep Hrs Hc Er Hedge) as Hg.
        destruct (record_cycle_fields dep st) as (Fv & _ & Fr & _).
        destruct (IH (record_cycle dep st) Hincl') as (st' & added & Hrun & Hg');
          try congruence.
        exists st', added. split; [ exact Hrun | ].
        apply (grows_trans ops st _ st' [] added Hg Hg').
      * apply IH; auto.
    + apply (py_in_str_false dep _ Hds) in Ev.
      destruct (IHf dep st) as (st1 & added1 & Hrun1 & Hg1).
      { repeat split; auto. rewrite Hrs. apply chain_snoc; auto. }
      rewrite Hrun1. cbn [bind].
      pose proof Hg1 as (R1 & _ & V1 & _).
      destruct (IH st1 Hincl') as (st' & added & Hrun & Hg'); try congruence.
      { apply Nat.le_trans with (m := unvisited ops (visited st)); [ | exact Hmu ].
        apply unvisited_le; auto. intros x Hx. apply V1. auto. }
      exists st', ((dep :: added1) ++ added). split; [ exact Hrun | ].
      apply (grows_trans ops st st1 st' _ _ Hg1 Hg').
Qed.

Lemma enter_fields node st :
  is_str node = true ->
  rec_stack (enter node st) = rec_stack st ++ [node] /\
  calls (enter node st) = calls st ++ [node] /\
  cycles (enter node st) = cycles st /\
  (forall x, In x (visited (enter node st)) <-> In x (visited st) \/ x = node) /\
  (forall x, In x (visited_global (enter node st))
             <-> In x (visited_global st) \/ x = node).
Proof.
  intros Hs. unfold enter. cbn. repeat split; try apply set_add_In; auto.
  all: apply set_add_In; auto.
Qed.

(** [dfs] returns, with the stack as it found it and every node it
    entered new to this search. *)
Lemma dfs_grows (fuel : nat) :
  forall node st, dfs_pre ops fuel node st ->
    exists st' added, dfs ops fuel node st = Ok st'
                      /\ grows ops st st' (node :: added).
Proof.
  induction fuel as [| f IHf]; intros node st (Hk & Hnv & Hc & Hmu).
  - exfalso.
    assert (unvisited ops (node :: visited st) < unvisited ops (visited st)).
    { apply unvisited_lt with (node := node); auto.
      - intros x Hx. right. exact Hx.
      - left. reflexivity. }
    lia.
  - pose proof (str_ids_keys ops node Hstr Hk) as Hs.
    destruct (enter_fields node st Hs) as (Er & Ec & Ey & Ev & Eg).
    cbn [dfs].
    destruct (dfs_deps_grows f IHf (requires_of ops node) node (rec_stack st)
                             (enter node st))
      as (st2 & added & Hrun & (R2 & C2 & V2 & G2 & N2 & E2 & Y2)).
    + apply incl_refl.
    + exact Er.
    + exact Hc.
    + assert (unvisited ops (visited (enter node st)) < unvisited ops (visited st)).
      { apply unvisited_lt with (node := node); auto.
        - intros x Hx. apply Ev. auto.
        - apply Ev. auto. }
      lia.
    + rewrite Hrun. cbn [bind]. exists (pop st2), added.
      split; [ reflexivity | ].
      unfold grows, pop. cbn [rec_stack calls visited visited_global cycles].
      repeat split.
      * rewrite R2, Er. apply removelast_last.
      * rewrite C2, Ec, <- app_assoc. reflexivity.
      * rewrite V2, Ev. simpl. intuition congruence.
      * rewrite V2, Ev. simpl. intuition congruence.
      * rewrite G2, Eg. simpl. intuition congruence.
      * rewrite G2, Eg. simpl. intuition congruence.
      * constructor; [ | exact N2 ].
        intros Hin. apply E2 in Hin as [Hin _]. apply Hin, Ev. auto.
      * destruct H as [<- | H]; [ exact Hnv | ].
        apply E2 in H as [H _]. intros Hv. apply H, Ev. auto.
      * destruct H as [<- | H]; [ exact Hk | apply E2, H ].
      * destruct H as [<- | H]; [ exact Hs | apply E2, H ].
      * intros Hac. rewrite Y2, Ey; auto.
Qed.

End Traversal.

(** ** The loop over the roots *)

Lemma entered_snoc log r ns : entered (log ++ [(r, ns)]) = entered log ++ ns.
Proof.
  unfold entered. rewrite map_app, concat_app. simpl. rewrite app_nil_r.
  reflexivity.
Qed.



Section Roots.

Variable ops : operations.
Hypothesis Hstr : str_ids ops = true.
Hypothesis Hhash : hashable_requires ops = true.

(** The interpreter allows at least as many nested calls of [dfs] as
    there are operations. *)
Variable depth : nat.
Hypothesis Hdepth : List.length ops <= depth.

Lemma roots_loop_spec (roots : list value) :
  forall vg cyc log,
    incl roots (keys ops) ->
    (forall x, In x vg <-> In x (entered log)) ->
    fresh_log log -> Forall (search_ok ops) log ->
    (acyclic ops -> cyc = []) ->
    exists cyc' log',
      roots_loop ops depth roots vg cyc log = Ok (cyc', log')
      /\ fresh_log log' /\ Forall (search_ok ops) log'
      /\ (forall r, In r roots -> In r (entered log'))
      /\ (forall x, In x (entered log) -> In x (entered log'))
      /\ (acyclic ops -> cyc' = []).
Proof.
  induction roots as [| r roots IH]; intros vg cyc log Hincl Hvg Hf Hok Hcyc.
  - exists cyc, log. repeat split; auto. intros r [].
  - assert (Hk : In r (keys ops)) by (apply Hincl; left; reflexivity).
    assert (Hincl' : incl roots (keys ops))
      by (intros x Hx; apply Hincl; right; exact Hx).
    pose proof (str_ids_keys ops r Hstr Hk) as Hs.
    cbn [roots_loop]. destruct (py_in r vg) eqn:Ev.
    + apply (py_in_str r vg Hs) in Ev.
      destruct (IH vg cyc log Hincl' Hvg Hf Hok Hcyc)
        as (cyc' & log' & Hrun & Hf' & Hok' & Hall & Hmono & Hc').
      exists cyc', log'. repeat split; auto.
      intros x [<- | Hx]; [ apply Hmono, Hvg, Ev | apply Hall, Hx ].
    + apply (py_in_str_false r vg Hs) in Ev.
      destruct (dfs_grows ops Hstr Hhash depth r
                          (mk_state [] vg [] cyc []))
        as (st' & added & Hrun1 & (R1 & C1 & V1 & G1 & N1 & E1 & Y1)).
      { repeat split; auto. cbn. rewrite (unvisited_nil ops). lia. }
      cbn [rec_stack calls visited visited_global cycles app] in *.
      rewrite Hrun1. cbn [bind].
      destruct (IH (visited_global st') (cycles st') (log ++ [(r, calls st')]) Hincl')
        as (cyc' & log' & Hrun & Hf' & Hok' & Hall & Hmono & Hc').
      * intros x. rewrite entered_snoc, in_app_iff, G1, C1, Hvg. tauto.
      * apply fresh_snoc; [ exact Hf | ]. intros Hin. apply Ev, Hvg, Hin.
      * apply Forall_app. split; [ exact Hok | ].
        constructor; [ | constructor ]. unfold search_ok. cbn [snd].
        rewrite C1. split; [ exact N1 | ]. intros x Hx. apply E1, Hx.
      * intros Hac. rewrite Y1; auto.
      * exists cyc', log'. repeat split; auto.
        -- intros x [<- | Hx]; [ | apply Hall, Hx ].
           apply Hmono. rewrite entered_snoc, in_app_iff, C1. right. left.
           reflexivity.
        -- intros x Hx. apply Hmono. rewrite entered_snoc, in_app_iff. auto.
Qed.


End Roots.

(** ** A small acyclic graph *)



(** Without any depth left the first search cannot start. *)
Lemma detect_needs_depth (ops : operations) :
  ops <> [] -> detect_run 0 ops = Raise RecursionError.
Proof.
  destruct ops as [| [k d] ops]; [ contradiction | reflexivity ].
Qed.



(** ** The reported cycles are sequences of ids *)

Lemma Forall_removelast {A : Type} (P : A -> Prop) (l : list A) :
  Forall P l -> Forall P (removelast l).
Proof.
  induction 1 as [| a l Ha Hl IH]; simpl; [ constructor | ].
  destruct l; [ constructor | constructor; assumption ].
Qed.

Lemma Forall_skipn_keep {A : Type} (P : A -> Prop) (n : nat) (l : list A) :
  Forall P l -> Forall P (skipn n l).
Proof.
  revert l. induction n as [| n IH]; intros l H; simpl; [ exact H | ].
  destruct l; [ constructor | ]. inversion H; subst. apply IH. assumption.
Qed.

Lemma record_cycle_strs dep st :
  is_str dep = true -> strs_state st -> strs_state (record_cycle dep st).
Proof.
  intros Hd [Hr Hc]. unfold strs_state, record_cycle.
  destruct (existsb _ (cycles st)); cbn [rec_stack cycles]; auto.
  split; [ exact Hr | ]. apply Forall_app. split; [ exact Hc | ].
  constructor; [ | constructor ]. apply Forall_app. split.
  - apply Forall_skipn_keep, Hr.
  - constructor; [ exact Hd | constructor ].
Qed.

Section StringCycles.

Variable ops : operations.
Hypothesis Hstr : str_ids ops = true.

Lemma dfs_deps_strs (rec : value -> dfs_state -> res dfs_state) :
  (forall n st st', is_str n = true -> strs_state st ->
                    rec n st = Ok st' -> strs_state st') ->
  forall deps st st',
    strs_state st -> dfs_deps ops rec deps st = Ok st' -> strs_state st'.
Proof.
  intros Hrec deps. induction deps as [| dep0 deps IH]; intros st st' Hst Hrun.
  - simpl in Hrun. injection Hrun as <-. exact Hst.
  - cbn [dfs_deps] in Hrun. set (dep := resolve dep0) in *.
    destruct (truthy dep); cbn [negb] in Hrun; [ | eapply IH; eauto ].
    destruct (key_in dep (keys ops)) as [known | ex |] eqn:Ek;
      cbn [bind] in Hrun; try discriminate.
    destruct known; cbn [negb] in Hrun; [ | eapply IH; eauto ].
    destruct (known_dep ops dep Hstr Ek) as [_ Hds].
    destruct (py_in dep (visited st)); cbn [negb] in Hrun.
    + destruct (py_in dep (rec_stack st)); [ | eapply IH; eauto ].
      eapply IH; [ | exact Hrun ]. apply record_cycle_strs; assumption.
    + destruct (rec dep st) as [st1 | ex |] eqn:E1; cbn [bind] in Hrun;
        try discriminate.
      eapply IH; [ | exact Hrun ]. eapply Hrec; eauto.
Qed.

Lemma dfs_strs (fuel : nat) :
  forall n st st', is_str n = true -> strs_state st ->
                   dfs ops fuel n st = Ok st' -> strs_state st'.
Proof.
  induction fuel as [| f IH]; intros n st st' Hn Hst Hrun; [ discriminate | ].
  cbn [dfs] in Hrun.
  destruct (dfs_deps ops (dfs ops f) (requires_of ops n) (enter n st))
    as [st2 | ex |] eqn:E2; cbn [bind] in Hrun; try discriminate.
  injection Hrun as <-.
  assert (H2 : strs_state st2).
  { eapply dfs_deps_strs; [ exact IH | | exact E2 ].
    destruct Hst as [Hr Hc]. split; cbn [enter rec_stack cycles]; [ | exact Hc ].
    apply Forall_app. split; [ exact Hr | constructor; [ exact Hn | constructor ] ]. }
  destruct H2 as [Hr Hc]. split; cbn [pop rec_stack cycles]; [ | exact Hc ].
  apply Forall_removelast, Hr.
Qed.

Lemma roots_loop_strs fuel (roots : list value) :
  forall vg cyc log cyc' log',
    incl roots (keys ops) ->
    Forall (Forall (fun v => is_str v = true)) cyc ->
    roots_loop ops fuel roots vg cyc log = Ok (cyc', log') ->
    Forall (Forall (fun v => is_str v = true)) cyc'.
Proof.
  induction roots as [| r roots IH]; intros vg cyc log cyc' log' Hincl Hc Hrun.
  - simpl in Hrun. injection Hrun as <- _. exact Hc.
  - assert (Hincl' : incl roots (keys ops))
      by (intros x Hx; apply Hincl; right; exact Hx).
    cbn [roots_loop] in Hrun. destruct (py_in r vg); [ eapply IH; eauto | ].
    destruct (dfs ops fuel r (mk_state [] vg [] cyc [])) as [st | ex |] eqn:E;
      cbn [bind] in Hrun; try discriminate.
    assert (Hs : strs_state st).
    { eapply dfs_strs; [ | | exact E ].
      - apply (str_ids_keys ops r Hstr). apply Hincl. left. reflexivity.
      - split; [ constructor | exact Hc ]. }
    eapply IH; [ exact Hincl' | | exact Hrun ]. apply Hs.
Qed.

End StringCycles.

Lemma join_strs_ok sep (l : list value) :
  Forall (fun v => is_str v = true) l -> exists t, join_strs sep l = Ok t.
Proof.
  induction 1 as [| v l Hv Hl IH]; [ exists ""; reflexivity | ].
  destruct v; try discriminate. cbn [join_strs].
  destruct l as [| w l]; [ eexists; reflexivity | ].
  destruct IH as [t ->]. eexists. reflexivity.
Qed.

Lemma print_cycles_ok (cs : list (list value)) :
  Forall (Forall (fun v => is_str v = true)) cs -> print_cycles cs = Ok tt.
Proof.
  induction 1 as [| c cs Hc Hcs IH]; [ reflexivity | ].
  cbn [print_cycles]. destruct (join_strs_ok " -> " c Hc) as [t ->].
  exact IH.
Qed.

Lemma missing_in_ok ids id f (deps : list value) :
  Forall (fun e => hashable_entry e = true) deps ->
  exists m, missing_in ids id f deps = Ok m.
Proof.
  induction 1 as [| e deps He Hd [m IH]]; [ exists []; reflexivity | ].
  cbn [missing_in]. unfold hashable_entry in He.
  destruct (truthy (resolve e)); cbn in He; [ | exists m; exact IH ].
  unfold key_in. rewrite He, IH. cbn [bind]. eexists. reflexivity.
Qed.

Lemma find_missing_loop_ok ids (items : operations) :
  hashable_requires items = true ->
  exists m, find_missing_loop ids items = Ok m.
Proof.
  unfold hashable_requires.
  induction items as [| [k d] items IH]; intros H; [ exists []; reflexivity | ].
  simpl in H. apply andb_true_iff in H as [Hd H].
  destruct (IH H) as [m2 E2]. cbn [find_missing_loop].
  assert (E1 : exists m1,
             match requires d with
             | VList l => missing_in ids k (file d) l
             | _ => Ok []
             end = Ok m1).
  { destruct (requires d); try (exists []; reflexivity).
    apply missing_in_ok, Forall_forall, forallb_forall. exact Hd. }
  destruct E1 as [m1 ->]. rewrite E2. cbn [bind]. eexists. reflexivity.
Qed.

(** ** Exit status *)



Lemma deps_main_zero (depth : nat) (fs : list (string * load_outcome)) :
  fs <> [] ->
  (exit_status (Deps.main depth true fs) = 0%Z
   <-> find_missing_dependencies (load_operations fs) = Ok []
       /\ detect_circular_dependencies depth (load_operations fs) = Ok []
       /\ exists st, build_dependency_stats (load_operations fs) = Ok st)
  /\ (exit_status (Deps.main depth true fs) = 0%Z
      \/ exit_status (Deps.main depth true fs) = 1%Z).
Proof.
  intros Hne. unfold Deps.main. cbn [negb].
  destruct fs as [| f0 fs0]; [ contradiction | ].
  set (ops := load_operations (f0 :: fs0)).
  destruct (find_missing_dependencies ops) as [[| m0 ms] | e |];
    destruct (detect_circular_dependencies depth ops) as [[| c0 cs] | e' |];
    cbn [bind print_cycles];
    try destruct (join_strs " -> " c0); cbn [bind];
    try destruct (print_cycles cs); cbn [bind];
    destruct (build_dependency_stats ops) as [st | e'' |];
    cbn [bind exit_status];
    (split; [ split | auto ]);
    try (intros H; discriminate H);
    try (intros (H1 & H2 & st' & H3); discriminate);
    try (intros _; repeat split; eauto).
Qed.




(** * Further properties of the dependency checks *)

(** ** The reference checker *)

Lemma key_in_ok (v : value) (ks : list value) (b : bool) :
  key_in v ks = Ok b -> hashable v = true /\ b = py_in v ks.
Proof.
  unfold key_in. destruct (hashable v); [ | discriminate ].
  intros H. injection H as <-. auto.
Qed.

Lemma missing_in_findings ids k f (deps : list value) m :
  missing_in ids k f deps = Ok m ->
  forall x, In x m <->
            exists e, In e deps /\ x = (k, resolve e, f)
                      /\ truthy (resolve e) = true
                      /\ py_in (resolve e) ids = false.
Proof.
  revert m. induction deps as [| e deps IH]; intros m Hm x.
  - simpl in Hm. injection Hm as <-. split; [ intros [] | intros (e & [] & _) ].
  - cbn [missing_in] in Hm. destruct (truthy (resolve e)) eqn:Et.
    + destruct (key_in (resolve e) ids) as [known | ex |] eqn:Ek;
        cbn [bind] in Hm; try discriminate.
      destruct (missing_in ids k f deps) as [m' | ex |]; cbn [bind] in Hm;
        try discriminate.
      injection Hm as <-. specialize (IH m' eq_refl x).
      apply key_in_ok in Ek as [_ ->].
      destruct (py_in (resolve e) ids) eqn:Ep.
      * rewrite IH. split.
        -- intros (e' & Hin & H). exists e'. split; [ right; exact Hin | exact H ].
        -- intros (e' & [<- | Hin] & Hx & Ht & Hp); [ congruence | ].
           exists e'. auto.
      * simpl. rewrite IH. split.
        -- intros [<- | (e' & Hin & H)].
           ++ exists e. auto.
           ++ exists e'. split; [ right; exact Hin | exact H ].
        -- intros (e' & [<- | Hin] & Hx & Ht & Hp); [ left; auto | ].
           right. exists e'. auto.
    + rewrite (IH m Hm x). split.
      * intros (e' & Hin & H). exists e'. split; [ right; exact Hin | exact H ].
      * intros (e' & [<- | Hin] & Hx & Ht & Hp); [ congruence | ].
        exists e'. auto.
Qed.

Lemma find_missing_loop_findings ids (items : operations) m :
  find_missing_loop ids items = Ok m ->
  forall k v f,
    In (k, v, f) m <->
    exists op l e, In (k, op) items /\ file op = f /\ requires op = VList l
                   /\ In e l /\ resolve e = v /\ truthy v = true
                   /\ py_in v ids = false.
Proof.
  revert m. induction items as [| [k0 op0] items IH]; intros m Hm k v f.
  - simpl in Hm. injection Hm as <-.
    split; [ intros [] | intros (op & l & e & [] & _) ].
  - cbn [find_missing_loop] in Hm.
    destruct (match requires op0 with
              | VList l => missing_in ids k0 (file op0) l
              | _ => Ok []
              end) as [m1 | ex |] eqn:E1; cbn [bind] in Hm; try discriminate.
    destruct (find_missing_loop ids items) as [m2 | ex |]; cbn [bind] in Hm;
      try discriminate.
    injection Hm as <-. rewrite in_app_iff, (IH m2 eq_refl k v f). split.
    + intros [H1 | (op & l & e & Hin & H)].
      * destruct (requires op0) as [| | | | l |] eqn:Er;
          try (injection E1 as <-; contradiction).
        apply (missing_in_findings _ _ _ _ _ E1) in H1
          as (e & Hin & Hx & Ht & Hp).
        injection Hx as -> -> ->. exists op0, l, e.
        repeat split; auto. left. reflexivity.
      * exists op, l, e. split; [ right; exact Hin | exact H ].
    + intros (op & l & e & [Heq | Hin] & Hf & Hr & He & Hv & Ht & Hp).
      * injection Heq as -> ->. left. rewrite Hr in E1.
        apply (missing_in_findings _ _ _ _ _ E1).
        exists e. subst. auto.
      * right. exists op, l, e. repeat split; assumption.
Qed.

(** X1.  When the reference checker returns, its findings are exactly
    the triples of an operation id, a truthy id that one of the entries
    of its [requires] list resolves to and that is no operation id, and
    the file of the operation. *)
Theorem X1_missing_findings (ops : operations)
        (m : list (value * value * string)) :
  find_missing_dependencies ops = Ok m ->
  forall k v f,
    In (k, v, f) m <->
    exists op l e, In (k, op) ops /\ file op = f /\ requires op = VList l
                   /\ In e l /\ resolve e = v /\ truthy v = true
                   /\ py_in v (keys ops) = false.
Proof. intros Hm. apply find_missing_loop_findings, Hm. Qed.

(** X1 on the end-to-end example: the one finding is the reference
    from [net-delete] to [ghost-op]. *)
Lemma X1_missing_findings_witness :
  In (VStr "net-delete", VStr "ghost-op", "c.yaml")
     [(VStr "net-delete", VStr "ghost-op", "c.yaml")] <->
  exists op l e,
    In (VStr "net-delete", op)
       [(VStr "net-create", mk_op "a.yaml" (VStr "A") (VList []) (VStr "networking"));
        (VStr "net-delete",
         mk_op "c.yaml" (VStr "C") (VList [VStr "net-create"; VStr "ghost-op"])
               (VStr "networking"))]
    /\ file op = "c.yaml" /\ requires op = VList l
    /\ In e l /\ resolve e = VStr "ghost-op" /\ truthy (VStr "ghost-op") = true
    /\ py_in (VStr "ghost-op")
             (keys [(VStr "net-create",
                     mk_op "a.yaml" (VStr "A") (VList []) (VStr "networking"));
                    (VStr "net-delete",
                     mk_op "c.yaml" (VStr "C")
                           (VList [VStr "net-create"; VStr "ghost-op"])
                           (VStr "networking"))]) = false.
Proof.
  apply (X1_missing_findings
           [(VStr "net-create", mk_op "a.yaml" (VStr "A") (VList []) (VStr "networking"));
            (VStr "net-delete",
             mk_op "c.yaml" (VStr "C") (VList [VStr "net-create"; VStr "ghost-op"])
                   (VStr "networking"))]
           [(VStr "net-delete", VStr "ghost-op", "c.yaml")]).
  reflexivity.
Defined.

Lemma missing_in_raises ids k f (deps : list value) :
  forallb hashable_entry deps = false ->
  exists ty, missing_in ids k f deps = Raise (Unhashable ty)
             /\ (ty = "list" \/ ty = "dict").
Proof.
  induction deps as [| e deps IH]; intros H; [ discriminate | ].
  cbn [forallb] in H. cbn [missing_in].
  destruct (hashable_entry e) eqn:He.
  - cbn [andb] in H. destruct (IH H) as (ty & -> & Hty).
    unfold hashable_entry in He.
    destruct (truthy (resolve e)); cbn in He; [ | eauto ].
    unfold key_in. rewrite He. cbn [bind]. eauto.
  - unfold hashable_entry in He. apply orb_false_iff in He as [Ht Hh].
    apply negb_false_iff in Ht. rewrite Ht. unfold key_in. rewrite Hh.
    cbn [bind]. exists (type_name (resolve e)). split; [ reflexivity | ].
    destruct (resolve e); try discriminate; auto.
Qed.

Lemma find_missing_loop_raises ids (items : operations) :
  hashable_requires items = false ->
  exists ty, find_missing_loop ids items = Raise (Unhashable ty)
             /\ (ty = "list" \/ ty = "dict").
Proof.
  unfold hashable_requires.
  induction items as [| [k d] items IH]; intros H; [ discriminate | ].
  cbn [forallb snd] in H. cbn [find_missing_loop].
  destruct (match requires d with
            | VList l => forallb hashable_entry l
            | _ => true
            end) eqn:Hd.
  - cbn [andb] in H. destruct (IH H) as (ty & -> & Hty).
    assert (E1 : exists m1,
               match requires d with
               | VList l => missing_in ids k (file d) l
               | _ => Ok []
               end = Ok m1).
    { destruct (requires d); try (exists []; reflexivity).
      apply missing_in_ok, Forall_forall, forallb_forall. exact Hd. }
    destruct E1 as [m1 ->]. cbn [bind]. eauto.
  - destruct (requires d); try discriminate.
    destruct (missing_in_raises ids k (file d) l Hd) as (ty & -> & Hty).
    cbn [bind]. eauto.
Qed.

(** X2.  The reference checker returns its findings exactly when no
    entry of a [requires] list resolves to a non-empty sequence or
    mapping; otherwise hashing that value raises a [TypeError], which
    nothing in the script catches. *)
Theorem X2_missing_raises_on_unhashable (ops : operations) :
  (hashable_requires ops = true ->
   exists m, find_missing_dependencies ops = Ok m) /\
  (hashable_requires ops = false ->
   exists ty, find_missing_dependencies ops = Raise (Unhashable ty)
              /\ (ty = "list" \/ ty = "dict")).
Proof.
  split; intros H.
  - apply find_missing_loop_ok, H.
  - apply find_missing_loop_raises, H.
Qed.

(** X2 at an operation whose entry is a one-element sequence. *)
Lemma X2_missing_raises_on_unhashable_witness :
  exists ty,
    find_missing_dependencies
      [(VStr "a", mk_op "a.yaml" (VStr "A") (VList [VList [VStr "b"]])
                        (VStr "storage"))]
    = Raise (Unhashable ty) /\ (ty = "list" \/ ty = "dict").
Proof.
  apply (proj2 (X2_missing_raises_on_unhashable
                  [(VStr "a", mk_op "a.yaml" (VStr "A") (VList [VList [VStr "b"]])
                                    (VStr "storage"))])).
  reflexivity.
Defined.

(** ** Loading the operations *)

(** X3.  A loaded document yields a record exactly when it is a
    mapping whose [operation] value is a mapping with a truthy,
    hashable [id]; the record then holds the file path and the fields
    [name], [requires] and [capability], defaulting to ["Unknown"], the
    empty sequence and ["unknown"]. *)
Theorem X3_load_one_record (path : string) (data k : value) (d : op_data) :
  load_one path data = Ok (Some (k, d)) <->
  exists dd o,
    data = VDict dd /\ dict_lookup "operation" dd = Some (VDict o)
    /\ k = dict_get o "id" VNull /\ truthy k = true /\ hashable k = true
    /\ d = mk_op path (dict_get o "name" (VStr "Unknown"))
                 (dict_get o "requires" (VList []))
                 (dict_get o "capability" (VStr "unknown")).
Proof.
  split.
  - unfold load_one. destruct (truthy data) eqn:Et; cbn [negb]; [ | discriminate ].
    destruct data as [| b | z | s | l | dd]; cbn [py_contains bind];
      try discriminate.
    + destruct (substring_in "operation" s); cbn [negb]; discriminate.
    + destruct (py_in (VStr "operation") l); cbn [negb]; discriminate.
    + unfold dict_has. cbn [py_getitem].
      destruct (dict_lookup "operation" dd) as [operation |] eqn:Eo;
        cbn [negb bind]; [ | discriminate ].
      destruct operation as [| b | z | s | l | o]; cbn [py_get bind];
        try discriminate.
      destruct (truthy (dict_get o "id" VNull)) eqn:Eid; cbn [negb];
        [ | discriminate ].
      destruct (hashable (dict_get o "id" VNull)) eqn:Eh; [ | discriminate ].
      intros H. injection H as <- <-. exists dd, o. repeat split; auto.
  - intros (dd & o & -> & Ho & -> & Ht & Hh & ->).
    unfold load_one. assert (Hd : truthy (VDict dd) = true)
      by (destruct dd; [ discriminate | reflexivity ]).
    rewrite Hd. cbn [negb py_contains bind py_getitem]. unfold dict_has.
    rewrite Ho. cbn [negb bind py_get]. rewrite Ht, Hh. reflexivity.
Qed.

(** X3 at a document that gives only an id. *)
Lemma X3_load_one_record_witness :
  load_one "a.yaml" (VDict [("operation", VDict [("id", VStr "a")])])
  = Ok (Some (VStr "a",
              mk_op "a.yaml" (VStr "Unknown") (VList []) (VStr "unknown"))).
Proof.
  apply (proj2 (X3_load_one_record
                  "a.yaml" (VDict [("operation", VDict [("id", VStr "a")])])
                  (VStr "a")
                  (mk_op "a.yaml" (VStr "Unknown") (VList []) (VStr "unknown")))).
  exists [("operation", VDict [("id", VStr "a")])], [("id", VStr "a")].
  repeat split.
Defined.

Lemma py_eqb_sym (a b : value) : py_eqb a b = py_eqb b a.
Proof.
  destruct a, b; simpl; try reflexivity;
    try apply Z.eqb_sym; try apply String.eqb_sym.
Qed.

Lemma py_eqb_trans (a b c : value) :
  py_eqb a b = true -> py_eqb b c = true -> py_eqb a c = true.
Proof.
  destruct a, b, c; simpl; try discriminate; try reflexivity;
    rewrite ?Z.eqb_eq, ?String.eqb_eq; congruence.
Qed.

Lemma keys_ops_set_present acc k d :
  existsb (fun k' => py_eqb k' k) (keys acc) = true ->
  keys (ops_set acc k d) = keys acc.
Proof.
  induction acc as [| [k0 d0] acc IH]; simpl; [ discriminate | ].
  destruct (py_eqb k0 k); simpl; [ reflexivity | ].
  intros H. rewrite IH; auto.
Qed.

Lemma keys_ops_set_absent acc k d :
  existsb (fun k' => py_eqb k' k) (keys acc) = false ->
  keys (ops_set acc k d) = keys acc ++ [k].
Proof.
  induction acc as [| [k0 d0] acc IH]; simpl; [ reflexivity | ].
  destruct (py_eqb k0 k); simpl; [ discriminate | ].
  intros H. rewrite IH; auto.
Qed.

Lemma py_eqb_refl (k : value) : hashable k = true -> py_eqb k k = true.
Proof.
  destruct k as [| [] | z | s | l | d]; simpl; try discriminate; intros _;
    try reflexivity; [ apply Z.eqb_refl | apply String.eqb_refl ].
Qed.

Lemma ops_get_set_same acc k d :
  hashable k = true -> ops_get (ops_set acc k d) k = Some d.
Proof.
  intros Hk. induction acc as [| [k0 d0] acc IH]; simpl.
  - rewrite (py_eqb_refl k Hk). reflexivity.
  - destruct (py_eqb k0 k) eqn:E; simpl; rewrite E; auto.
Qed.

Lemma ops_get_set_other acc k d k2 :
  py_eqb k k2 = false -> ops_get (ops_set acc k d) k2 = ops_get acc k2.
Proof.
  intros Hne. induction acc as [| [k0 d0] acc IH]; simpl.
  - rewrite Hne. reflexivity.
  - destruct (py_eqb k0 k) eqn:E; simpl.
    + destruct (py_eqb k0 k2) eqn:E2; [ | reflexivity ].
      rewrite py_eqb_sym in E.
      rewrite (py_eqb_trans k k0 k2 E E2) in Hne. discriminate.
    + destruct (py_eqb k0 k2); [ reflexivity | exact IH ].
Qed.

(** The id of a record is truthy and hashable, its file the one it was
    read from. *)
Lemma load_one_id path data k d :
  load_one path data = Ok (Some (k, d)) ->
  truthy k = true /\ hashable k = true /\ file d = path.
Proof.
  unfold load_one. destruct (truthy data); cbn [negb]; [ | discriminate ].
  destruct (py_contains "operation" data) as [[] | e |]; cbn [bind negb];
    try discriminate.
  destruct (py_getitem data "operation") as [operation | e |]; cbn [bind];
    try discriminate.
  destruct (py_get operation "id" VNull) as [op_id | e |]; cbn [bind];
    try discriminate.
  destruct (truthy op_id) eqn:Et; cbn [negb]; [ | discriminate ].
  destruct (py_get operation "name" (VStr "Unknown")) as [nm | e |];
    cbn [bind]; try discriminate.
  destruct (py_get operation "requires" (VList [])) as [rq | e |];
    cbn [bind]; try discriminate.
  destruct (py_get operation "capability" (VStr "unknown")) as [cap | e |];
    cbn [bind]; try discriminate.
  destruct (hashable op_id) eqn:Eh; [ | discriminate ].
  intros H. injection H as <- <-. auto.
Qed.

Lemma load_operations_from_snoc acc fs path out :
  load_operations_from acc (fs ++ [(path, out)]) =
  match out with
  | Loaded data =>
      match load_one path data with
      | Ok (Some (k, d)) => ops_set (load_operations_from acc fs) k d
      | _ => load_operations_from acc fs
      end
  | _ => load_operations_from acc fs
  end.
Proof.
  revert acc. induction fs as [| [p o] fs IH]; intros acc.
  - simpl. destruct out; reflexivity.
  - simpl. destruct o; try apply IH.
    destruct (load_one p data) as [[[k d] |] | e |]; apply IH.
Qed.

(** X4.  The last file that defines an id wins: after one more file
    that yields the record [d] for the id [k], looking up [k] gives
    [d], every other id is looked up as before, and the order of the
    ids is unchanged if [k] was already defined, [k] coming last
    otherwise. *)
Theorem X4_last_definition_wins
        (fs : list (string * load_outcome)) (path : string) (data k : value)
        (d : op_data) :
  load_one path data = Ok (Some (k, d)) ->
  ops_get (load_operations (fs ++ [(path, Loaded data)])) k = Some d /\
  (forall k2, py_eqb k k2 = false ->
              ops_get (load_operations (fs ++ [(path, Loaded data)])) k2
              = ops_get (load_operations fs) k2) /\
  keys (load_operations (fs ++ [(path, Loaded data)]))
  = if existsb (fun k' => py_eqb k' k) (keys (load_operations fs))
    then keys (load_operations fs)
    else keys (load_operations fs) ++ [k].
Proof.
  intros Hl. unfold load_operations. rewrite load_operations_from_snoc, Hl.
  destruct (load_one_id path data k d Hl) as (_ & Hh & _).
  repeat split.
  - apply ops_get_set_same, Hh.
  - intros k2 Hne. apply ops_get_set_other, Hne.
  - destruct (existsb _ (keys (load_operations_from [] fs))) eqn:E.
    + apply keys_ops_set_present, E.
    + apply keys_ops_set_absent, E.
Qed.

(** X4 at two files that define the same id: the second one wins. *)
Lemma X4_last_definition_wins_witness :
  ops_get
    (load_operations
       ([("a.yaml", Loaded (VDict [("operation", VDict [("id", VStr "a")])]))]
        ++ [("b.yaml",
             Loaded (VDict [("operation",
                             VDict [("id", VStr "a");
                                    ("name", VStr "second")])]))]))
    (VStr "a")
  = Some (mk_op "b.yaml" (VStr "second") (VList []) (VStr "unknown")).
Proof.
  apply (proj1 (X4_last_definition_wins
                  [("a.yaml", Loaded (VDict [("operation", VDict [("id", VStr "a")])]))]
                  "b.yaml"
                  (VDict [("operation",
                           VDict [("id", VStr "a"); ("name", VStr "second")])])
                  (VStr "a")
                  (mk_op "b.yaml" (VStr "second") (VList []) (VStr "unknown"))
                  eq_refl)).
Defined.

Lemma ids_distinct_snoc (ks : list value) (k : value) :
  ids_distinct ks -> existsb (fun k' => py_eqb k' k) ks = false ->
  ids_distinct (ks ++ [k]).
Proof.
  induction ks as [| k0 ks IH]; simpl; intros Hd Hk; [ auto | ].
  destruct Hd as [H0 Hd]. apply orb_false_iff in Hk as [Hk0 Hk].
  split; [ | apply IH; assumption ].
  rewrite existsb_app, H0. simpl. rewrite Hk0. reflexivity.
Qed.

Lemma ops_set_files (P : op_data -> Prop) acc k d :
  Forall (fun kd => P (snd kd)) acc -> P d ->
  Forall (fun kd => P (snd kd)) (ops_set acc k d).
Proof.
  intros Ha Hd. induction acc as [| [k0 d0] acc IH]; simpl.
  - constructor; [ exact Hd | constructor ].
  - inversion Ha as [| ? ? H0 Hr]; subst.
    destruct (py_eqb k0 k); constructor; auto.
Qed.

Lemma ops_set_length acc k d : List.length (ops_set acc k d) <= S (List.length acc).
Proof.
  induction acc as [| [k0 d0] acc IH]; simpl; [ lia | ].
  destruct (py_eqb k0 k); simpl; lia.
Qed.

Lemma load_operations_invariant (fs : list (string * load_outcome)) :
  ids_distinct (keys (load_operations fs)) /\
  Forall (fun k => truthy k = true /\ hashable k = true)
         (keys (load_operations fs)) /\
  Forall (fun kd => In (file (snd kd)) (map fst fs)) (load_operations fs) /\
  List.length (load_operations fs) <= List.length fs.
Proof.
  induction fs as [| [path out] fs IH] using rev_ind.
  - simpl. repeat split; constructor.
  - destruct IH as (Hd & Hk & Hf & Hl).
    assert (Hf' : Forall (fun kd => In (file (snd kd)) (map fst (fs ++ [(path, out)])))
                         (load_operations fs)).
    { eapply Forall_impl; [ | exact Hf ]. intros kd H.
      rewrite map_app. apply in_or_app. left. exact H. }
    assert (Hl' : List.length (load_operations fs)
                  <= List.length (fs ++ [(path, out)]))
      by (rewrite length_app; simpl; lia).
    unfold load_operations in *. rewrite load_operations_from_snoc.
    destruct out as [msg | msg | data]; try (repeat split; assumption).
    destruct (load_one path data) as [[[k d] |] | e |] eqn:El;
      try (repeat split; assumption).
    destruct (load_one_id path data k d El) as (Ht & Hh & Hfile).
    repeat split.
    + destruct (existsb (fun k' => py_eqb k' k) (keys (load_operations_from [] fs)))
        eqn:E.
      * rewrite keys_ops_set_present by exact E. exact Hd.
      * rewrite keys_ops_set_absent by exact E. apply ids_distinct_snoc; assumption.
    + destruct (existsb (fun k' => py_eqb k' k) (keys (load_operations_from [] fs)))
        eqn:E.
      * rewrite keys_ops_set_present by exact E. exact Hk.
      * rewrite keys_ops_set_absent by exact E. apply Forall_app. split; auto.
    + apply (ops_set_files
               (fun d0 => In (file d0) (map fst (fs ++ [(path, Loaded data)])))).
      * exact Hf'.
      * rewrite Hfile, map_app. apply in_or_app. right. left. reflexivity.
    + pose proof (ops_set_length (load_operations_from [] fs) k d).
      rewrite length_app in *. simpl in *. lia.
Qed.

(** X5.  However the files are, the loaded operations have pairwise
    distinct ids, every id is truthy and hashable, every record names
    one of the input files, and there are at most as many operations
    as files. *)
Theorem X5_loaded_ids_distinct (fs : list (string * load_outcome)) :
  ids_distinct (keys (load_operations fs)) /\
  Forall (fun k => truthy k = true /\ hashable k = true)
         (keys (load_operations fs)) /\
  (forall k d, In (k, d) (load_operations fs) -> In (file d) (map fst fs)) /\
  List.length (load_operations fs) <= List.length fs.
Proof.
  destruct (load_operations_invariant fs) as (Hd & Hk & Hf & Hl).
  repeat split; auto.
  intros k d Hin. rewrite Forall_forall in Hf. apply (Hf (k, d) Hin).
Qed.

(** ** The statistics, whatever [requires] holds *)

Lemma stats_loop_step k op items st st' :
  stats_loop ((k, op) :: items) st = Ok st' ->
  exists n, stats_loop items (stats_step k n st) = Ok st'.
Proof.
  cbn [stats_loop]. destruct (truthy (requires op)).
  - destruct (py_len (requires op)) as [n | e |]; cbn [bind]; try discriminate.
    intros H. exists n. unfold stats_step.
    destruct (Nat.ltb 0 n); [ | exact H ].
    cbn [max_dependencies total_operations operations_with_deps
         total_dependencies most_dependent_op] in H.
    destruct (Nat.ltb (max_dependencies st) n); exact H.
  - intros H. exists 0. exact H.
Qed.

Lemma stats_loop_bounds (items : operations) :
  forall st st',
    stats_loop items st = Ok st' ->
    operations_with_deps st <= total_dependencies st ->
    max_dependencies st <= total_dependencies st ->
    (most_dependent_op st = None <-> max_dependencies st = 0) ->
    total_operations st' = total_operations st /\
    operations_with_deps st' <= operations_with_deps st + List.length items /\
    operations_with_deps st' <= total_dependencies st' /\
    max_dependencies st' <= total_dependencies st' /\
    (most_dependent_op st' = None <-> max_dependencies st' = 0) /\
    (forall k, most_dependent_op st' = Some k ->
               most_dependent_op st = Some k \/ In k (keys items)).
Proof.
  induction items as [| [k op] items IH]; intros st st' Hrun H1 H2 H3.
  - simpl in Hrun. injection Hrun as <-. repeat split; auto; try lia; apply H3.
  - apply stats_loop_step in Hrun as [n Hrun].
    destruct (stats_step_fields k n st) as (F1 & F2 & F3 & F4 & F5).
    destruct (IH _ _ Hrun) as (G1 & G2 & G3 & G4 & G5 & G6).
    + rewrite F2, F3. destruct (Nat.ltb_spec 0 n); lia.
    + rewrite F3, F4. lia.
    + rewrite F4, F5. destruct (Nat.ltb_spec (max_dependencies st) n).
      * split; [ discriminate | lia ].
      * rewrite H3. split; lia.
    + repeat split; try tauto.
      * congruence.
      * rewrite F2 in G2. simpl. destruct (Nat.ltb 0 n); lia.
      * intros k' Hk'. destruct (G6 k' Hk') as [Hs | Hin].
        -- rewrite F5 in Hs. destruct (Nat.ltb (max_dependencies st) n).
           ++ injection Hs as <-. right. left. reflexivity.
           ++ left. exact Hs.
        -- right. right. exact Hin.
Qed.

(** X6.  Whenever the statistics are returned: the total is the number
    of operations; the operations with dependencies are no more than
    the operations and no more than the dependencies; the maximum is at
    most the total of dependencies; and the most dependent operation is
    one of the ids, absent exactly when the maximum is zero. *)
Theorem X6_stats_bounds (ops : operations) (st : stats) :
  build_dependency_stats ops = Ok st ->
  total_operations st = List.length ops /\
  operations_with_deps st <= List.length ops /\
  operations_with_deps st <= total_dependencies st /\
  max_dependencies st <= total_dependencies st /\
  (most_dependent_op st = None <-> max_dependencies st = 0) /\
  (forall k, most_dependent_op st = Some k -> In k (keys ops)).
Proof.
  unfold build_dependency_stats. intros Hrun.
  destruct (stats_loop_bounds ops _ _ Hrun) as (G1 & G2 & G3 & G4 & G5 & G6);
    cbn; try lia; try tauto.
  repeat split; auto; try tauto.
  intros k Hk. destruct (G6 k Hk) as [H | H]; [ discriminate | exact H ].
Qed.

(** X6 on an operation whose [requires] is a string: its characters
    are counted. *)
Lemma X6_stats_bounds_witness :
  max_dependencies (mk_stats 1 1 3 3 (Some (VStr "a"))) <=
  total_dependencies (mk_stats 1 1 3 3 (Some (VStr "a"))).
Proof.
  apply (X6_stats_bounds
           [(VStr "a", mk_op "a.yaml" (VStr "A") (VStr "abc") (VStr "storage"))]
           (mk_stats 1 1 3 3 (Some (VStr "a"))) eq_refl).
Defined.

Lemma stats_loop_sized (items : operations) :
  forall st,
    forallb (fun kd => sized_or_falsy (requires (snd kd))) items = true ->
    exists st', stats_loop items st = Ok st'.
Proof.
  induction items as [| [k op] items IH]; intros st H; [ eexists; reflexivity | ].
  cbn [forallb snd] in H. apply andb_true_iff in H as [Hs H].
  cbn [stats_loop]. destruct (truthy (requires op)) eqn:Et; [ | apply IH, H ].
  unfold sized_or_falsy in Hs.
  destruct (requires op); try (rewrite Et in Hs; discriminate);
    cbn [py_len bind];
    match goal with |- context [Nat.ltb 0 ?n] => destruct (Nat.ltb 0 n) end;
    apply IH, H.
Qed.

Lemma stats_loop_unsized (items : operations) :
  forall st,
    forallb (fun kd => sized_or_falsy (requires (snd kd))) items = false ->
    exists ty, stats_loop items st = Raise (NoLen ty)
               /\ (ty = "int" \/ ty = "bool").
Proof.
  induction items as [| [k op] items IH]; intros st H; [ discriminate | ].
  cbn [forallb snd] in H. cbn [stats_loop].
  destruct (sized_or_falsy (requires op)) eqn:Hs.
  - cbn [andb] in H. destruct (truthy (requires op)) eqn:Et; [ | apply IH, H ].
    unfold sized_or_falsy in Hs.
    destruct (requires op); try (rewrite Et in Hs; discriminate);
      cbn [py_len bind];
      match goal with |- context [Nat.ltb 0 ?n] => destruct (Nat.ltb 0 n) end;
      apply IH, H.
  - unfold sized_or_falsy in Hs.
    destruct (requires op) as [| b | z | s | l | d] eqn:Er; try discriminate;
      apply negb_false_iff in Hs; rewrite Hs; cbn [py_len bind type_name];
      eauto.
Qed.

(** X7.  The statistics are returned exactly when every [requires]
    value is falsy or has a length (a sequence, mapping or string);
    a non-zero integer or [true] there makes [len] raise a
    [TypeError]. *)
Theorem X7_stats_raise_on_unsized (ops : operations) :
  (forallb (fun kd => sized_or_falsy (requires (snd kd))) ops = true ->
   exists st, build_dependency_stats ops = Ok st) /\
  (forallb (fun kd => sized_or_falsy (requires (snd kd))) ops = false ->
   exists ty, build_dependency_stats ops = Raise (NoLen ty)
              /\ (ty = "int" \/ ty = "bool")).
Proof.
  split; intros H.
  - apply stats_loop_sized, H.
  - apply stats_loop_unsized, H.
Qed.

(** X7 at [requires: 5]. *)
Lemma X7_stats_raise_on_unsized_witness :
  exists ty,
    build_dependency_stats
      [(VStr "a", mk_op "a.yaml" (VStr "A") (VInt 5) (VStr "storage"))]
    = Raise (NoLen ty) /\ (ty = "int" \/ ty = "bool").
Proof.
  apply (proj2 (X7_stats_raise_on_unsized
                  [(VStr "a", mk_op "a.yaml" (VStr "A") (VInt 5) (VStr "storage"))])).
  reflexivity.
Defined.

(** * Further properties of the cycle detector *)

(** ** Every reported cycle is a cycle *)

Lemma chain_suffix ops (pre s : list value) : chain ops (pre ++ s) -> chain ops s.
Proof.
  induction pre as [| a pre IH]; intros H; [ exact H | ].
  apply IH. exact (chain_tail _ _ _ H).
Qed.

Lemma py_index_split (dep : value) (l : list value) :
  is_str dep = true -> In dep l ->
  exists pre p, l = pre ++ dep :: p /\ skipn (py_index dep l) l = dep :: p.
Proof.
  intros Hs. destruct dep as [| | | s | |]; try discriminate.
  induction l as [| y r IH]; intros Hin; [ contradiction | ].
  cbn [py_index]. destruct (py_eqb y (VStr s)) eqn:E.
  - apply py_eqb_str_r in E. subst y. exists [], r. split; reflexivity.
  - destruct Hin as [-> | Hin]; [ rewrite py_eqb_str_refl in E; discriminate | ].
    destruct (IH Hin) as (pre & p & -> & Hsk).
    exists (y :: pre), p. split; [ reflexivity | exact Hsk ].
Qed.

Lemma chain_targets ops (l : list value) :
  forall a x, chain ops (a :: l) -> In x l -> exists w, edge ops w x.
Proof.
  induction l as [| b l IH]; intros a x Hc Hin; [ contradiction | ].
  destruct Hc as [He Hc]. destruct Hin as [<- | Hin].
  - exists a. exact He.
  - apply (IH b x Hc Hin).
Qed.

Lemma record_cycle_walk ops st rs node dep :
  is_str dep = true ->
  rec_stack st = rs ++ [node] -> chain ops (rs ++ [node]) ->
  In dep (rec_stack st) -> edge ops node dep ->
  Forall (closed_walk ops) (cycles st) ->
  Forall (closed_walk ops) (cycles (record_cycle dep st)).
Proof.
  intros Hs Hrs Hc Hin He Hok. unfold record_cycle.
  destruct (existsb _ (cycles st)); [ exact Hok | ]. cbn [cycles].
  apply Forall_app. split; [ exact Hok | ]. constructor; [ | constructor ].
  destruct (py_index_split dep (rec_stack st) Hs Hin) as (pre & p & Hsplit & ->).
  exists dep, p. split; [ reflexivity | ].
  rewrite Hrs in Hsplit.
  destruct (exists_last (l := dep :: p)) as (q & z & Eq); [ discriminate | ].
  rewrite Eq in Hsplit. rewrite app_assoc in Hsplit.
  apply app_inj_tail in Hsplit as [Hq Hz]. subst z rs.
  change (dep :: p ++ [dep]) with ((dep :: p) ++ [dep]). rewrite Eq.
  apply chain_snoc; [ | exact He ].
  rewrite <- app_assoc in Hc. apply (chain_suffix ops pre _ Hc).
Qed.

Section ReportedCycles.

Variable ops : operations.
Hypothesis Hstr : str_ids ops = true.

Lemma dfs_deps_walks (rec : value -> dfs_state -> res dfs_state) :
  (forall n st st',
      chain ops (rec_stack st ++ [n]) ->
      Forall (closed_walk ops) (cycles st) -> rec n st = Ok st' ->
      Forall (closed_walk ops) (cycles st') /\ rec_stack st' = rec_stack st) ->
  forall deps node rs st st',
    incl deps (requires_of ops node) ->
    rec_stack st = rs ++ [node] -> chain ops (rs ++ [node]) ->
    Forall (closed_walk ops) (cycles st) ->
    dfs_deps ops rec deps st = Ok st' ->
    Forall (closed_walk ops) (cycles st') /\ rec_stack st' = rec_stack st.
Proof.
  intros Hrec deps node rs.
  induction deps as [| dep0 deps IH]; intros st st' Hincl Hrs Hc Hok Hrun.
  - simpl in Hrun. injection Hrun as <-. auto.
  - assert (Hin0 : In dep0 (requires_of ops node)) by (apply Hincl; left; reflexivity).
    assert (Hincl' : incl deps (requires_of ops node))
      by (intros x Hx; apply Hincl; right; exact Hx).
    cbn [dfs_deps] in Hrun. set (dep := resolve dep0) in *.
    destruct (truthy dep) eqn:Et; cbn [negb] in Hrun; [ | eapply IH; eauto ].
    destruct (key_in dep (keys ops)) as [known | ex |] eqn:Ek;
      cbn [bind] in Hrun; try discriminate.
    destruct known; cbn [negb] in Hrun; [ | eapply IH; eauto ].
    destruct (known_dep ops dep Hstr Ek) as [_ Hds].
    assert (Hedge : edge ops node dep) by (exists dep0; auto).
    destruct (py_in dep (visited st)); cbn [negb] in Hrun.
    + destruct (py_in dep (rec_stack st)) eqn:Er; [ | eapply IH; eauto ].
      apply (py_in_str dep _ Hds) in Er.
      destruct (record_cycle_fields dep st) as (_ & _ & Fr & _).
      destruct (IH (record_cycle dep st) st' Hincl') as [H1 H2]; auto.
      * congruence.
      * apply record_cycle_walk with (rs := rs) (node := node); auto.
      * split; [ exact H1 | congruence ].
    + destruct (rec dep st) as [st1 | ex |] eqn:E1; cbn [bind] in Hrun;
        try discriminate.
      destruct (Hrec dep st st1) as [K1 K2]; auto.
      { rewrite Hrs. apply chain_snoc; auto. }
      destruct (IH st1 st' Hincl') as [H1 H2]; auto; try congruence.
      split; [ exact H1 | congruence ].
Qed.

Lemma dfs_walks (fuel : nat) :
  forall n st st',
    chain ops (rec_stack st ++ [n]) ->
    Forall (closed_walk ops) (cycles st) -> dfs ops fuel n st = Ok st' ->
    Forall (closed_walk ops) (cycles st') /\ rec_stack st' = rec_stack st.
Proof.
  induction fuel as [| f IH]; intros n st st' Hc Hok Hrun; [ discriminate | ].
  cbn [dfs] in Hrun.
  destruct (dfs_deps ops (dfs ops f) (requires_of ops n) (enter n st))
    as [st2 | ex |] eqn:E2; cbn [bind] in Hrun; try discriminate.
  injection Hrun as <-.
  destruct (dfs_deps_walks (dfs ops f) IH (requires_of ops n) n (rec_stack st)
                           (enter n st) st2) as [H1 H2]; auto.
  - apply incl_refl.
  - cbn [pop cycles rec_stack]. split; [ exact H1 | ].
    rewrite H2. cbn [enter rec_stack]. apply removelast_last.
Qed.

Lemma roots_loop_walks fuel (roots : list value) :
  forall vg cyc log cyc' log',
    Forall (closed_walk ops) cyc ->
    roots_loop ops fuel roots vg cyc log = Ok (cyc', log') ->
    Forall (closed_walk ops) cyc'.
Proof.
  induction roots as [| r roots IH]; intros vg cyc log cyc' log' Hc Hrun.
  - simpl in Hrun. injection Hrun as <- _. exact Hc.
  - cbn [roots_loop] in Hrun. destruct (py_in r vg); [ eapply IH; eauto | ].
    destruct (dfs ops fuel r (mk_state [] vg [] cyc [])) as [st | ex |] eqn:E;
      cbn [bind] in Hrun; try discriminate.
    eapply IH; [ | exact Hrun ].
    apply (dfs_walks fuel r (mk_state [] vg [] cyc []) st);
      [ exact I | exact Hc | exact E ].
Qed.

Lemma closed_walk_cycle (c : list value) :
  closed_walk ops c ->
  exists d p, c = d :: p ++ [d] /\ chain ops c /\ incl c (keys ops)
              /\ clos_trans value (edge ops) d d.
Proof.
  intros (d & p & -> & Hc). exists d, p.
  assert (Hk : forall x, In x (p ++ [d]) -> In x (keys ops)).
  { intros x Hx. destruct (chain_targets ops _ d x Hc Hx) as (w & e & _ & He & _ & Hkey).
    subst x. apply (known_dep ops _ Hstr Hkey). }
  repeat split; auto.
  - intros x [<- | Hx]; apply Hk; [ | exact Hx ].
    apply in_app_iff. right. left. reflexivity.
  - destruct p as [| h p].
    + apply t_step. apply Hc.
    + destruct Hc as [He Hc].
      apply clos_t_then_rt with (y := h); [ apply t_step, He | ].
      apply (chain_reach ops (h :: p) d h Hc). left. reflexivity.
Qed.

End ReportedCycles.

(** X8.  Every cycle the detector reports is a cycle of the graph: the
    list starts and ends with the same id, has at least two elements,
    each element requires the next one, and all of them are loaded
    operations. *)
Theorem X8_reported_cycles_are_cycles
        (depth : nat) (ops : operations) (cyc : list (list value)) :
  str_ids ops = true ->
  detect_circular_dependencies depth ops = Ok cyc ->
  forall c, In c cyc ->
    exists d p, c = d :: p ++ [d] /\ chain ops c /\ incl c (keys ops)
                /\ clos_trans value (edge ops) d d.
Proof.
  intros Hstr Hrun c Hin. unfold detect_circular_dependencies, detect_run in Hrun.
  destruct (roots_loop ops depth (keys ops) [] [] [])
    as [[cyc' log] | ex |] eqn:E; cbn [bind] in Hrun; try discriminate.
  injection Hrun as <-. cbn [fst] in Hin.
  apply closed_walk_cycle; [ exact Hstr | ].
  pose proof (roots_loop_walks ops Hstr _ _ _ _ _ _ _ (Forall_nil _) E) as H.
  rewrite Forall_forall in H. apply H, Hin.
Qed.

(** X8 on two operations that require each other. *)
Lemma X8_reported_cycles_are_cycles_witness :
  exists d p, [VStr "A"; VStr "B"; VStr "A"] = d :: p ++ [d]
              /\ chain ops_AB [VStr "A"; VStr "B"; VStr "A"]
              /\ incl [VStr "A"; VStr "B"; VStr "A"] (keys ops_AB)
              /\ clos_trans value (edge ops_AB) d d.
Proof.
  apply (X8_reported_cycles_are_cycles
           2 ops_AB [[VStr "A"; VStr "B"; VStr "A"]] eq_refl eq_refl).
  left. reflexivity.
Defined.

(** ** A graph with a cycle gets one reported *)

Lemma record_cycle_extends dep st :
  exists new, cycles (record_cycle dep st) = cycles st ++ new.
Proof.
  unfold record_cycle. destruct (existsb _ (cycles st)).
  - exists []. rewrite app_nil_r. reflexivity.
  - eexists. reflexivity.
Qed.

Lemma record_cycle_nonempty dep st : cycles (record_cycle dep st) <> [].
Proof.
  unfold record_cycle. destruct (existsb _ (cycles st)) eqn:E.
  - intros H. rewrite H in E. discriminate.
  - cbn [cycles]. intros H. apply app_eq_nil in H as [_ H]. discriminate.
Qed.

Lemma dfs_deps_extends ops (rec : value -> dfs_state -> res dfs_state) :
  (forall n st st', rec n st = Ok st' ->
                    exists new, cycles st' = cycles st ++ new) ->
  forall deps st st',
    dfs_deps ops rec deps st = Ok st' ->
    exists new, cycles st' = cycles st ++ new.
Proof.
  intros Hrec deps. induction deps as [| dep0 deps IH]; intros st st' Hrun.
  - simpl in Hrun. injection Hrun as <-. exists []. rewrite app_nil_r. reflexivity.
  - cbn [dfs_deps] in Hrun. set (dep := resolve dep0) in *.
    destruct (truthy dep); cbn [negb] in Hrun; [ | apply IH, Hrun ].
    destruct (key_in dep (keys ops)) as [known | ex |];
      cbn [bind] in Hrun; try discriminate.
    destruct known; cbn [negb] in Hrun; [ | apply IH, Hrun ].
    destruct (py_in dep (visited st)); cbn [negb] in Hrun.
    + destruct (py_in dep (rec_stack st)); [ | apply IH, Hrun ].
      destruct (IH _ _ Hrun) as [n2 E2].
      destruct (record_cycle_extends dep st) as [n1 E1].
      exists (n1 ++ n2). rewrite E2, E1, app_assoc. reflexivity.
    + destruct (rec dep st) as [st1 | ex |] eqn:E1; cbn [bind] in Hrun;
        try discriminate.
      destruct (IH _ _ Hrun) as [n2 E2].
      destruct (Hrec _ _ _ E1) as [n1 E1'].
      exists (n1 ++ n2). rewrite E2, E1', app_assoc. reflexivity.
Qed.

Lemma dfs_extends ops (fuel : nat) :
  forall n st st', dfs ops fuel n st = Ok st' ->
                   exists new, cycles st' = cycles st ++ new.
Proof.
  induction fuel as [| f IH]; intros n st st' Hrun; [ discriminate | ].
  cbn [dfs] in Hrun.
  destruct (dfs_deps ops (dfs ops f) (requires_of ops n) (enter n st))
    as [st2 | ex |] eqn:E2; cbn [bind] in Hrun; try discriminate.
  injection Hrun as <-.
  apply (dfs_deps_extends ops (dfs ops f) IH) in E2. exact E2.
Qed.

Lemma roots_loop_extends ops fuel (roots : list value) :
  forall vg cyc log cyc' log',
    roots_loop ops fuel roots vg cyc log = Ok (cyc', log') ->
    exists new, cyc' = cyc ++ new.
Proof.
  induction roots as [| r roots IH]; intros vg cyc log cyc' log' Hrun.
  - simpl in Hrun. injection Hrun as <- _. exists []. rewrite app_nil_r. reflexivity.
  - cbn [roots_loop] in Hrun. destruct (py_in r vg); [ eapply IH; eauto | ].
    destruct (dfs ops fuel r (mk_state [] vg [] cyc [])) as [st | ex |] eqn:E;
      cbn [bind] in Hrun; try discriminate.
    destruct (IH _ _ _ _ _ Hrun) as [n2 E2].
    destruct (dfs_extends ops fuel _ _ _ E) as [n1 E1]. cbn [cycles] in E1.
    exists (n1 ++ n2). rewrite E2, E1, app_assoc. reflexivity.
Qed.

Lemma extends_nil {A : Type} (l l' new : list A) :
  l' = l ++ new -> l' = [] -> l = [].
Proof. intros -> H. apply app_eq_nil in H. tauto. Qed.

Lemma topo_closed ops (fin : list value) :
  topo ops fin -> forall x y, In x fin -> edge ops x y -> In y fin.
Proof.
  induction fin as [| a r IH]; intros Ht x y Hin He; [ contradiction | ].
  destruct Ht as [Ha Ht]. right. destruct Hin as [<- | Hin].
  - apply Ha, He.
  - apply (IH Ht x y Hin He).
Qed.

Lemma topo_closed_trans ops (fin : list value) (x y : value) :
  topo ops fin -> clos_trans value (edge ops) x y -> In x fin -> In y fin.
Proof.
  intros Ht H. induction H as [x y He | x w y _ IH1 _ IH2]; intros Hin.
  - apply (topo_closed ops fin Ht x y Hin He).
  - auto.
Qed.

Lemma topo_no_cycle ops (fin : list value) :
  topo ops fin -> forall x, In x fin -> ~ clos_trans value (edge ops) x x.
Proof.
  induction fin as [| a r IH]; intros Ht x Hin Hc; [ contradiction | ].
  destruct Ht as [Ha Ht].
  assert (Hr : In x r).
  { destruct Hin as [<- | Hin]; [ | exact Hin ].
    apply clos_trans_t1n in Hc. inversion Hc as [y He | y z He Hyz]; subst.
    - apply Ha, He.
    - apply clos_t1n_trans in Hyz.
      apply (topo_closed_trans ops r y a Ht Hyz). apply Ha, He. }
  apply (IH Ht x Hr Hc).
Qed.

Lemma str_eq_dec_l (n x : value) : is_str n = true -> x = n \/ x <> n.
Proof.
  intros Hs. destruct n as [| | | s | |]; try discriminate.
  destruct (py_eqb (VStr s) x) eqn:E.
  - left. apply py_eqb_str_l, E.
  - right. intros ->. rewrite py_eqb_str_refl in E. discriminate.
Qed.

Section FinishedNodes.

Variable ops : operations.
Hypothesis Hstr : str_ids ops = true.
Variable vg0 : list value.

Lemma fin_inv_record_cycle dep st fin :
  fin_inv ops vg0 st fin -> fin_inv ops vg0 (record_cycle dep st) fin.
Proof.
  destruct (record_cycle_fields dep st) as (Fv & Fg & Fr & _).
  unfold fin_inv. rewrite Fv, Fg, Fr. auto.
Qed.

Lemma fin_inv_enter n st fin :
  is_str n = true -> ~ In n (visited st) ->
  fin_inv ops vg0 st fin -> fin_inv ops vg0 (enter n st) fin.
Proof.
  intros Hs Hnv (Ht & Hi & Hf & Hg).
  destruct (enter_fields n st Hs) as (Er & _ & _ & Ev & Eg).
  unfold fin_inv. rewrite Er. repeat split.
  - exact Ht.
  - intros x Hx. apply Ev. apply in_app_iff in Hx as [Hx | [<- | []]]; auto.
  - apply Ev. left. apply Hf, H.
  - rewrite in_app_iff. intros [Hx | [<- | []]].
    + apply Hf in H. tauto.
    + apply Hf in H. tauto.
  - intros [Hv Hn]. apply Hf. rewrite in_app_iff in Hn. simpl in Hn.
    apply Ev in Hv as [Hv | ->]; [ tauto | ]. exfalso. apply Hn. auto.
  - intros x Hx. apply Eg in Hx as [Hx | ->].
    + destruct (Hg x Hx) as [H | H]; [ left; exact H | right; apply Ev; auto ].
    + right. apply Ev. auto.
Qed.

Lemma dfs_deps_fin (rec : value -> dfs_state -> res dfs_state) :
  (forall n st st', rec n st = Ok st' ->
                    exists new, cycles st' = cycles st ++ new) ->
  (forall n st st' fin,
      is_str n = true -> ~ In n (visited st) ->
      rec n st = Ok st' -> cycles st' = [] -> fin_inv ops vg0 st fin ->
      exists fin', fin_inv ops vg0 st' fin' /\ rec_stack st' = rec_stack st
                   /\ incl fin fin' /\ In n fin') ->
  forall deps st st' fin,
    dfs_deps ops rec deps st = Ok st' -> cycles st' = [] ->
    fin_inv ops vg0 st fin ->
    exists fin', fin_inv ops vg0 st' fin' /\ rec_stack st' = rec_stack st
                 /\ incl fin fin'
                 /\ (forall e, In e deps -> truthy (resolve e) = true ->
                               key_in (resolve e) (keys ops) = Ok true ->
                               In (resolve e) fin').
Proof.
  intros Hext Hrec deps.
  induction deps as [| dep0 deps IH]; intros st st' fin Hrun Hnil Hinv.
  - simpl in Hrun. injection Hrun as <-. exists fin.
    split; [ exact Hinv | split; [ reflexivity | split; [ apply incl_refl | ] ] ].
    intros e [].
  - cbn [dfs_deps] in Hrun. set (dep := resolve dep0) in *.
    destruct (truthy dep) eqn:Et; cbn [negb] in Hrun.
    2:{ destruct (IH _ _ _ Hrun Hnil Hinv) as (fin' & H1 & H2 & H3 & H4).
        exists fin'. split; [ exact H1 | split; [ exact H2 | split; [ exact H3 | ] ] ].
        intros e [<- | He] Hte Hke; [ fold dep in Hte; congruence | auto ]. }
    destruct (key_in dep (keys ops)) as [known | ex |] eqn:Ek;
      cbn [bind] in Hrun; try discriminate.
    destruct known; cbn [negb] in Hrun.
    2:{ destruct (IH _ _ _ Hrun Hnil Hinv) as (fin' & H1 & H2 & H3 & H4).
        exists fin'. split; [ exact H1 | split; [ exact H2 | split; [ exact H3 | ] ] ].
        intros e [<- | He] Hte Hke; [ fold dep in Hke; congruence | auto ]. }
    destruct (known_dep ops dep Hstr Ek) as [_ Hds].
    destruct (py_in dep (visited st)) eqn:Ev; cbn [negb] in Hrun.
    + destruct (py_in dep (rec_stack st)) eqn:Er.
      * exfalso.
        destruct (dfs_deps_extends ops rec Hext _ _ _ Hrun) as [new Enew].
        apply (record_cycle_nonempty dep st).
        apply (extends_nil _ _ _ Enew Hnil).
      * destruct (IH _ _ _ Hrun Hnil Hinv) as (fin' & H1 & H2 & H3 & H4).
        exists fin'. split; [ exact H1 | split; [ exact H2 | split; [ exact H3 | ] ] ].
        intros e [<- | He] Hte Hke; [ | auto ]. fold dep.
        apply H3. apply Hinv. split.
        -- apply (py_in_str dep _ Hds), Ev.
        -- apply (py_in_str_false dep _ Hds), Er.
    + apply (py_in_str_false dep _ Hds) in Ev.
      destruct (rec dep st) as [st1 | ex |] eqn:E1; cbn [bind] in Hrun;
        try discriminate.
      destruct (dfs_deps_extends ops rec Hext _ _ _ Hrun) as [new Enew].
      pose proof (extends_nil _ _ _ Enew Hnil) as Hnil1.
      destruct (Hrec dep st st1 fin Hds Ev E1 Hnil1 Hinv)
        as (fin1 & K1 & K2 & K3 & K4).
      destruct (IH _ _ _ Hrun Hnil K1) as (fin' & H1 & H2 & H3 & H4).
      exists fin'. split; [ exact H1 | split; [ congruence | split ] ].
      * intros x Hx. apply H3, K3, Hx.
      * intros e [<- | He] Hte Hke; [ | auto ]. fold dep. apply H3, K4.
Qed.

Lemma dfs_fin (fuel : nat) :
  forall n st st' fin,
    is_str n = true -> ~ In n (visited st) ->
    dfs ops fuel n st = Ok st' -> cycles st' = [] -> fin_inv ops vg0 st fin ->
    exists fin', fin_inv ops vg0 st' fin' /\ rec_stack st' = rec_stack st
                 /\ incl fin fin' /\ In n fin'.
Proof.
  induction fuel as [| f IH]; intros n st st' fin Hs Hnv Hrun Hnil Hinv;
    [ discriminate | ].
  cbn [dfs] in Hrun.
  destruct (dfs_deps ops (dfs ops f) (requires_of ops n) (enter n st))
    as [st2 | ex |] eqn:E2; cbn [bind] in Hrun; try discriminate.
  injection Hrun as <-. cbn [pop cycles] in Hnil.
  destruct (dfs_deps_fin (dfs ops f) (dfs_extends ops f) IH _ _ _ fin E2 Hnil)
    as (fin2 & (Ht & Hi & Hf & Hg) & H2 & H3 & H4).
  { apply fin_inv_enter; assumption. }
  destruct (enter_fields n st Hs) as (Er & _ & _ & Ev & _).
  rewrite Er in H2.
  assert (Hn2 : In n (visited st2)).
  { apply Hi. rewrite H2. apply in_app_iff. right. left. reflexivity. }
  assert (Hnrs : ~ In n (rec_stack st)).
  { intros Hin. apply Hnv. destruct Hinv as (_ & Hi0 & _). apply Hi0, Hin. }
  exists (n :: fin2). unfold fin_inv, pop.
  cbn [rec_stack visited visited_global]. rewrite H2, removelast_last.
  repeat split.
  - intros y (e & He & Hy & Hty & Hky). subst y. apply H4; auto.
  - exact Ht.
  - intros x Hx. apply Hi. rewrite H2. apply in_app_iff. auto.
  - destruct H as [<- | H]; [ exact Hn2 | apply Hf, H ].
  - destruct H as [<- | H]; [ exact Hnrs | ].
    apply Hf in H as [_ H]. rewrite H2, in_app_iff in H. tauto.
  - intros [Hv Hn]. destruct (str_eq_dec_l n x Hs) as [-> | Hne]; [ left; reflexivity | ].
    right. apply Hf. split; [ exact Hv | ].
    rewrite H2, in_app_iff. simpl. intros [H | [H | []]]; auto.
  - exact Hg.
  - intros x Hx. right. apply H3, Hx.
  - left. reflexivity.
Qed.

End FinishedNodes.

Lemma roots_loop_fin ops fuel (roots : list value) :
  str_ids ops = true ->
  forall vg cyc log log',
    (forall r, In r roots -> is_str r = true) ->
    roots_loop ops fuel roots vg cyc log = Ok ([], log') ->
    (forall x, In x vg -> ~ clos_trans value (edge ops) x x) ->
    forall r, In r roots -> ~ clos_trans value (edge ops) r r.
Proof.
  intros Hstr.
  induction roots as [| r roots IH]; intros vg cyc log log' Hs Hrun Hvg;
    [ intros r [] | ].
  assert (Hs' : forall x, In x roots -> is_str x = true)
    by (intros x Hx; apply Hs; right; exact Hx).
  assert (Hr : is_str r = true) by (apply Hs; left; reflexivity).
  cbn [roots_loop] in Hrun. destruct (py_in r vg) eqn:Ev.
  - apply (py_in_str r vg Hr) in Ev.
    intros x [<- | Hx]; [ apply Hvg, Ev | ].
    apply (IH _ _ _ _ Hs' Hrun Hvg x Hx).
  - destruct (dfs ops fuel r (mk_state [] vg [] cyc [])) as [st | ex |] eqn:E;
      cbn [bind] in Hrun; try discriminate.
    destruct (roots_loop_extends ops _ _ _ _ _ _ _ Hrun) as [new Enew].
    assert (Hnil : cycles st = []) by (apply (extends_nil _ _ _ Enew eq_refl)).
    destruct (dfs_fin ops Hstr vg fuel r (mk_state [] vg [] cyc []) st [] Hr)
      as (fin' & (Ht & _ & Hf & Hg) & H2 & _ & Hin); auto.
    { unfold fin_inv. cbn. repeat split; auto; try tauto. intros x []. }
    assert (Hvg' : forall x, In x (visited_global st) ->
                             ~ clos_trans value (edge ops) x x).
    { intros x Hx. destruct (Hg x Hx) as [H | H].
      - apply Hvg, H.
      - apply (topo_no_cycle ops fin' Ht). apply Hf. split; [ exact H | ].
        rewrite H2. cbn. tauto. }
    intros x [<- | Hx].
    + apply (topo_no_cycle ops fin' Ht), Hin.
    + apply (IH _ _ _ _ Hs' Hrun Hvg' x Hx).
Qed.

Lemma cycle_node_known ops (x y : value) :
  str_ids ops = true -> clos_trans value (edge ops) x y -> In y (keys ops).
Proof.
  intros Hstr H. induction H as [x y (e & _ & He & _ & Hk) | x w y _ _ _ IH].
  - apply (known_dep ops y Hstr Hk).
  - exact IH.
Qed.

(** Whenever the detector returns, it has reported no cycle exactly
    when the graph has none. *)
Lemma detect_verdict (depth : nat) (ops : operations) (cyc : list (list value)) :
  str_ids ops = true ->
  detect_circular_dependencies depth ops = Ok cyc ->
  (cyc = [] <-> acyclic ops).
Proof.
  intros Hstr Hrun. unfold detect_circular_dependencies, detect_run in Hrun.
  destruct (roots_loop ops depth (keys ops) [] [] [])
    as [[cyc' log] | ex |] eqn:E; cbn [bind] in Hrun; try discriminate.
  injection Hrun as <-. cbn [fst]. split.
  - intros -> u Hu.
    assert (Hk : In u (keys ops)) by (apply (cycle_node_known ops u u Hstr Hu)).
    revert Hu.
    apply (roots_loop_fin ops depth (keys ops) Hstr [] [] [] log); auto.
    intros r Hr. apply (str_ids_keys ops r Hstr Hr).
  - intros Hac. destruct cyc' as [| c cs]; [ reflexivity | exfalso ].
    pose proof (roots_loop_walks ops Hstr _ _ _ _ _ _ _ (Forall_nil _) E) as H.
    inversion H as [| c' cs' Hc _]; subst.
    destruct (closed_walk_cycle ops Hstr c Hc) as (d & p & _ & _ & _ & Hd).
    apply (Hac d Hd).
Qed.

Lemma detect_returns (depth : nat) (ops : operations) :
  str_ids ops = true -> hashable_requires ops = true ->
  List.length ops <= depth ->
  exists cyc, detect_circular_dependencies depth ops = Ok cyc.
Proof.
  intros Hstr Hhash Hdepth.
  destruct (roots_loop_spec ops Hstr Hhash depth Hdepth (keys ops) [] [] [])
    as (cyc & log & Hrun & _).
  - apply incl_refl.
  - intros x. reflexivity.
  - constructor.
  - constructor.
  - reflexivity.
  - exists cyc. unfold detect_circular_dependencies, detect_run.
    rewrite Hrun. reflexivity.
Qed.



(** * Further properties of the schema validator *)

(** ** The documents that pass *)

Lemma flat_map_nil_iff {A B : Type} (f : A -> list B) (g : A -> bool) (l : list A) :
  (forall x, f x = [] <-> g x = true) ->
  (flat_map f l = [] <-> forallb g l = true).
Proof.
  intros H. induction l as [| a l IH]; simpl; [ tauto | ].
  rewrite andb_true_iff, <- IH, <- H. split.
  - intros E. apply app_eq_nil in E. exact E.
  - intros [-> ->]. reflexivity.
Qed.

Lemma app_nil_iff {A : Type} (l1 l2 : list A) :
  l1 ++ l2 = [] <-> l1 = [] /\ l2 = [].
Proof.
  split; [ apply app_eq_nil | intros [-> ->]; reflexivity ].
Qed.

Lemma required_msg_nil data p : required_msg data p = [] <-> present data p = true.
Proof.
  unfold required_msg, present, field.
  destruct (get_nested_value data p) as [v e].
  destruct e; cbn [negb]; [ | split; discriminate ].
  destruct (is_blank v); simpl; split; congruence.
Qed.

Lemma check_required_nil data :
  check_required data = [] <-> forallb (present data) REQUIRED_FIELDS = true.
Proof. apply flat_map_nil_iff, required_msg_nil. Qed.

Lemma py_in_strs (v : value) (allowed : list string) :
  py_in v (map VStr allowed) = one_of allowed (Some v).
Proof.
  unfold py_in, one_of.
  induction allowed as [| a allowed IH]; simpl.
  - destruct v; reflexivity.
  - rewrite IH. destruct v; reflexivity.
Qed.

Lemma optional_bool_msg_nil data p :
  optional_bool_msg data p = [] <-> null_or_bool (field data p) = true.
Proof.
  unfold optional_bool_msg, null_or_bool, field.
  destruct (get_nested_value data p) as [v e].
  destruct v, e; simpl; split; congruence.
Qed.

Lemma field_operation d o path key :
  split_on "." path = ["operation"; key] ->
  dict_lookup "operation" d = Some (VDict o) ->
  field (VDict d) path = dict_lookup key o.
Proof.
  intros Hp Hop. unfold field, get_nested_value. rewrite Hp.
  cbn [get_nested]. rewrite Hop.
  destruct (dict_lookup key o); reflexivity.
Qed.

Lemma field_block d o b path block key :
  split_on "." path = ["operation"; block; key] ->
  dict_lookup "operation" d = Some (VDict o) ->
  dict_lookup block o = Some (VDict b) ->
  field (VDict d) path = dict_lookup key b.
Proof.
  intros Hp Hop Hb. unfold field, get_nested_value. rewrite Hp.
  cbn [get_nested]. rewrite Hop, Hb.
  destruct (dict_lookup key b); reflexivity.
Qed.

Lemma present_field data p :
  present data p = true -> exists v, field data p = Some v.
Proof.
  unfold present. destruct (field data p) as [v |]; [ eauto | discriminate ].
Qed.

(** The required fields put mappings at [operation],
    [operation.duration] and [operation.template]. *)
Lemma required_blocks data :
  forallb (present data) REQUIRED_FIELDS = true ->
  exists d o du t,
    data = VDict d /\ d <> []
    /\ dict_lookup "operation" d = Some (VDict o)
    /\ dict_lookup "duration" o = Some (VDict du)
    /\ dict_lookup "template" o = Some (VDict t).
Proof.
  intros H. rewrite forallb_forall in H.
  assert (Hd : present data "operation.duration.type" = true)
    by (apply H; simpl; tauto).
  assert (Ht : present data "operation.template.type" = true)
    by (apply H; simpl; tauto).
  apply present_field in Hd as [v1 Hd]. apply present_field in Ht as [v2 Ht].
  unfold field, get_nested_value in Hd, Ht.
  change (split_on "." "operation.duration.type")
    with ["operation"; "duration"; "type"] in Hd.
  change (split_on "." "operation.template.type")
    with ["operation"; "template"; "type"] in Ht.
  destruct (get_nested data ["operation"; "duration"; "type"]) as [w1 [|]] eqn:E1;
    try discriminate.
  destruct (get_nested data ["operation"; "template"; "type"]) as [w2 [|]] eqn:E2;
    try discriminate.
  apply block_field_inv in E1 as (d & o & du & -> & Hne & Hop & Hdu & _).
  apply block_field_inv in E2 as (d' & o' & t & E & _ & Hop' & Ht' & _).
  injection E as <-. rewrite Hop in Hop'. injection Hop' as <-.
  exists d, o, du, t. auto.
Qed.

Lemma missing_key_msg_nil prefix key d :
  missing_key_msg prefix key d = [] <-> dict_has key d = true.
Proof.
  unfold missing_key_msg. destruct (dict_has key d); split; congruence.
Qed.

Lemma check_param_items_nil pt (items : list value) :
  forall i, check_param_items pt i items = [] <-> forallb param_ok items = true.
Proof.
  induction items as [| p items IH]; intros i; cbn [check_param_items forallb];
    [ tauto | ].
  rewrite app_nil_iff, andb_true_iff, IH.
  destruct p; cbn [param_ok]; try (split; intros [H _]; discriminate).
  rewrite !app_nil_iff, !missing_key_msg_nil, !andb_true_iff. tauto.
Qed.

Lemma check_param_list_nil pd pt :
  check_param_list pd pt = [] <-> param_list_ok (dict_lookup pt pd) = true.
Proof.
  unfold check_param_list, param_list_ok.
  destruct (dict_lookup pt pd) as [v |]; [ | tauto ].
  destruct v; try (split; discriminate). apply check_param_items_nil.
Qed.

Lemma check_rollback_steps_nil (steps : list value) :
  forall i, check_rollback_steps i steps = [] <-> forallb step_ok steps = true.
Proof.
  induction steps as [| s steps IH]; intros i;
    cbn [check_rollback_steps forallb]; [ tauto | ].
  rewrite app_nil_iff, andb_true_iff, IH.
  destruct s; cbn [step_ok]; try (split; intros [H _]; discriminate).
  rewrite !app_nil_iff, !missing_key_msg_nil, !andb_true_iff. tauto.
Qed.

Lemma check_validation_list_nil vd key :
  check_validation_list vd key = [] <-> list_or_absent (dict_lookup key vd) = true.
Proof.
  unfold check_validation_list, list_or_absent.
  destruct (dict_lookup key vd) as [v |]; [ | tauto ].
  destruct v; split; congruence.
Qed.

Lemma check_parameters_dict o :
  exists w, check_parameters (VDict o) = (w, Ok tt)
            /\ (w = [] <-> parameters_ok (dict_lookup "parameters" o) = true).
Proof.
  unfold check_parameters. cbn [py_contains py_getitem].
  rewrite mbind_lift_ok. unfold dict_has at 1.
  destruct (dict_lookup "parameters" o) as [ps |]; cbn [when].
  2:{ exists []. split; [ reflexivity | simpl; tauto ]. }
  rewrite mbind_lift_ok.
  destruct ps; try (eexists; split; [ reflexivity | simpl; split; discriminate ]).
  cbn [parameters_ok].
  destruct (dict_has "required" d) eqn:Er, (dict_has "optional" d) eqn:Eo;
    cbn [negb andb orb when]; unfold tell, ret; rewrite mbind_pair_ok;
    cbn [fst snd app]; eexists; (split; [ reflexivity | ]);
    rewrite ?app_nil_iff, ?andb_true_iff, ?check_param_list_nil;
    try tauto.
  split; discriminate.
Qed.

Lemma check_rollback_dict o :
  exists w, check_rollback (VDict o) = (w, Ok tt)
            /\ (w = [] <-> rollback_ok (dict_lookup "rollback" o) = true).
Proof.
  unfold check_rollback. cbn [py_contains py_getitem].
  rewrite mbind_lift_ok. unfold dict_has at 1.
  destruct (dict_lookup "rollback" o) as [rb |]; cbn [when].
  2:{ exists []. split; [ reflexivity | simpl; tauto ]. }
  rewrite mbind_lift_ok.
  destruct rb; try (eexists; split; [ reflexivity | simpl; split; discriminate ]).
  cbn [rollback_ok]. unfold dict_has, dict_get.
  destruct (dict_lookup "enabled" d) as [en |]; cbn [andb when].
  2:{ exists []. split; [ reflexivity | tauto ]. }
  destruct (truthy en); cbn [when].
  2:{ exists []. split; [ reflexivity | tauto ]. }
  destruct (dict_lookup "steps" d) as [st |].
  2:{ eexists. split; [ reflexivity | split; discriminate ]. }
  destruct st; try (eexists; split; [ reflexivity | split; discriminate ]).
  eexists. split; [ reflexivity | apply check_rollback_steps_nil ].
Qed.

Lemma check_validation_dict o :
  exists w, check_validation (VDict o) = (w, Ok tt)
            /\ (w = [] <-> validation_ok (dict_lookup "validation" o) = true).
Proof.
  unfold check_validation. cbn [py_contains py_getitem].
  rewrite mbind_lift_ok. unfold dict_has at 1.
  destruct (dict_lookup "validation" o) as [vd |]; cbn [when].
  2:{ exists []. split; [ reflexivity | simpl; tauto ]. }
  rewrite mbind_lift_ok.
  destruct vd; try (eexists; split; [ reflexivity | simpl; split; discriminate ]).
  cbn [validation_ok]. eexists. split; [ reflexivity | ].
  rewrite !app_nil_iff, !andb_true_iff, !check_validation_list_nil. tauto.
Qed.

Section AcceptedDocuments.

Variable py_repr : value -> string.
Variable exn_text : pyexn -> string.

Lemma enum_msgs_nil label allowed (v : value) :
  enum_msgs py_repr label allowed (Some v) = []
  <-> one_of allowed (Some v) = true.
Proof.
  unfold enum_msgs. rewrite py_in_strs.
  destruct (one_of allowed (Some v)); split; congruence.
Qed.

Lemma duration_int_msgs_nil key (v : value) :
  duration_int_msgs py_repr key (Some v) = [] <-> positive_int (Some v) = true.
Proof.
  unfold duration_int_msgs, positive_int.
  destruct (is_int v); cbn [negb andb]; [ | split; discriminate ].
  destruct (Z.leb_spec (int_val v) 0), (Z.ltb_spec 0 (int_val v));
    split; intros; try discriminate; try reflexivity; lia.
Qed.

Lemma duration_order_msgs_nil (e t : value) :
  is_int e = true -> is_int t = true ->
  (duration_order_msgs py_repr (Some e) (Some t) = []
   <-> timeout_covers (Some e) (Some t) = true).
Proof.
  intros He Ht. unfold duration_order_msgs, timeout_covers.
  rewrite He, Ht. cbn [andb].
  destruct (Z.ltb_spec (int_val t) (int_val e)),
           (Z.leb_spec (int_val e) (int_val t));
    split; intros; try discriminate; try reflexivity; lia.
Qed.

Lemma duration_msgs_nil du (ty e t : value) :
  dict_lookup "type" du = Some ty ->
  dict_lookup "expected" du = Some e ->
  dict_lookup "timeout" du = Some t ->
  (duration_msgs py_repr du = []
   <-> one_of VALID_DURATION_TYPES (Some ty) = true
       /\ positive_int (Some e) = true /\ positive_int (Some t) = true
       /\ timeout_covers (Some e) (Some t) = true).
Proof.
  intros E1 E2 E3. unfold duration_msgs. rewrite E1, E2, E3.
  rewrite !app_nil_iff, enum_msgs_nil, !duration_int_msgs_nil.
  split.
  - intros (H1 & H2 & H3 & H4). repeat split; auto.
    apply duration_order_msgs_nil; auto.
    + unfold positive_int in H2. apply andb_true_iff in H2. tauto.
    + unfold positive_int in H3. apply andb_true_iff in H3. tauto.
  - intros (H1 & H2 & H3 & H4). repeat split; auto.
    apply duration_order_msgs_nil; auto.
    + unfold positive_int in H2. apply andb_true_iff in H2. tauto.
    + unfold positive_int in H3. apply andb_true_iff in H3. tauto.
Qed.

(** The whole list of messages when the three blocks are mappings. *)
Lemma validate_blocks d o du t :
  d <> [] ->
  dict_lookup "operation" d = Some (VDict o) ->
  dict_lookup "duration" o = Some (VDict du) ->
  dict_lookup "template" o = Some (VDict t) ->
  exists wp wr wv,
    validate_operation py_repr exn_text (Loaded (VDict d)) =
    check_required (VDict d)
    ++ enum_msgs py_repr "operation_mode" VALID_OPERATION_MODES
                 (dict_lookup "operation_mode" o)
    ++ enum_msgs py_repr "capability" VALID_CAPABILITIES
                 (dict_lookup "capability" o)
    ++ duration_msgs py_repr du
    ++ enum_msgs py_repr "template.type" VALID_TEMPLATE_TYPES
                 (dict_lookup "type" t)
    ++ flat_map (optional_bool_msg (VDict d)) OPTIONAL_BOOLEAN_FIELDS
    ++ wp ++ wr ++ wv
    /\ (wp = [] <-> parameters_ok (dict_lookup "parameters" o) = true)
    /\ (wr = [] <-> rollback_ok (dict_lookup "rollback" o) = true)
    /\ (wv = [] <-> validation_ok (dict_lookup "validation" o) = true).
Proof.
  intros Hne Hop Hdu Ht.
  destruct (check_parameters_dict o) as (wp & Ep & Hp).
  destruct (check_rollback_dict o) as (wr & Er & Hr).
  destruct (check_validation_dict o) as (wv & Ev & Hv).
  exists wp, wr, wv. split; [ | auto ].
  rewrite (validate_operation_dict py_repr exn_text d o Hne
             (dict_get_lookup _ _ _ _ Hop) (or_intror (ex_intro _ du Hdu))).
  unfold duration_block_msgs, after_duration. rewrite Hdu.
  rewrite (check_template_dict py_repr o t Ht). unfold check_optional_bools.
  rewrite Ep, Er, Ev, !mbind_pair_ok. cbn [fst snd except_msgs].
  rewrite ?app_nil_r, <- ?app_assoc. reflexivity.
Qed.

Lemma validate_nil_blocks d o du t :
  d <> [] ->
  dict_lookup "operation" d = Some (VDict o) ->
  dict_lookup "duration" o = Some (VDict du) ->
  dict_lookup "template" o = Some (VDict t) ->
  forallb (present (VDict d)) REQUIRED_FIELDS = true ->
  (validate_operation py_repr exn_text (Loaded (VDict d)) = []
   <-> well_formed (VDict d) = true).
Proof.
  intros Hne Hop Hdu Ht Hreq.
  destruct (validate_blocks d o du t Hne Hop Hdu Ht)
    as (wp & wr & wv & -> & Hp & Hr & Hv).
  unfold well_formed. rewrite Hreq. cbn [andb].
  pose proof Hreq as Hall. rewrite forallb_forall in Hall.
  assert (P1 := Hall "operation.operation_mode" ltac:(simpl; tauto)).
  assert (P2 := Hall "operation.capability" ltac:(simpl; tauto)).
  assert (P3 := Hall "operation.duration.type" ltac:(simpl; tauto)).
  assert (P4 := Hall "operation.duration.expected" ltac:(simpl; tauto)).
  assert (P5 := Hall "operation.duration.timeout" ltac:(simpl; tauto)).
  assert (P6 := Hall "operation.template.type" ltac:(simpl; tauto)).
  apply present_field in P1 as [v1 P1]. apply present_field in P2 as [v2 P2].
  apply present_field in P3 as [v3 P3]. apply present_field in P4 as [v4 P4].
  apply present_field in P5 as [v5 P5]. apply present_field in P6 as [v6 P6].
  rewrite (field_operation d o "operation.operation_mode" "operation_mode" eq_refl Hop) in *.
  rewrite (field_operation d o "operation.capability" "capability" eq_refl Hop) in *.
  rewrite (field_operation d o "operation.parameters" "parameters" eq_refl Hop).
  rewrite (field_operation d o "operation.rollback" "rollback" eq_refl Hop).
  rewrite (field_operation d o "operation.validation" "validation" eq_refl Hop).
  rewrite (field_block d o du "operation.duration.type" "duration" "type" eq_refl Hop Hdu) in *.
  rewrite (field_block d o du "operation.duration.expected" "duration" "expected" eq_refl Hop Hdu) in *.
  rewrite (field_block d o du "operation.duration.timeout" "duration" "timeout" eq_refl Hop Hdu) in *.
  rewrite (field_block d o t "operation.template.type" "template" "type" eq_refl Hop Ht) in *.
  rewrite !app_nil_iff, !andb_true_iff.
  rewrite (proj2 (check_required_nil (VDict d)) Hreq).
  rewrite (duration_msgs_nil du v3 v4 v5 P3 P4 P5).
  rewrite P1, P2, P3, P4, P5, P6, !enum_msgs_nil, Hp, Hr, Hv.
  rewrite (flat_map_nil_iff _ (fun p => null_or_bool (field (VDict d) p))
                            OPTIONAL_BOOLEAN_FIELDS
                            (optional_bool_msg_nil (VDict d))).
  tauto.
Qed.

End AcceptedDocuments.

Lemma accepted_loaded
      (py_repr : value -> string) (exn_text : pyexn -> string) (data : value) :
  validate_operation py_repr exn_text (Loaded data) = []
  <-> well_formed data = true.
Proof.
  assert (Hb : forallb (present data) REQUIRED_FIELDS = true ->
               validate_operation py_repr exn_text (Loaded data) = []
               <-> well_formed data = true).
  { intros Hreq.
    destruct (required_blocks data Hreq) as (d & o & du & t & -> & Hne & Hop & Hdu & Ht).
    apply (validate_nil_blocks py_repr exn_text d o du t); assumption. }
  split.
  - intros H. apply Hb; [ | exact H ].
    destruct (truthy data) eqn:Et.
    + rewrite validate_loaded in H by exact Et.
      apply app_eq_nil in H as [H _]. apply check_required_nil, H.
    + unfold validate_operation, validate_body in H. rewrite Et in H.
      discriminate.
  - intros H. apply Hb; [ | exact H ].
    unfold well_formed in H. rewrite !andb_true_iff in H. tauto.
Qed.

(** X10.  The validator returns no message exactly when the file
    could be read and parsed and its document is well formed: the
    eleven required paths hold non-blank values, the four enum fields
    hold allowed strings, [duration.expected] and [duration.timeout]
    are integers above zero with the timeout not below the expected
    value, the three top-level [enabled] flags are absent, null or
    boolean, and the [parameters], [rollback] and [validation] blocks,
    where present, have the shape the schema asks for. *)
Theorem X10_accepted_iff_well_formed
        (py_repr : value -> string) (exn_text : pyexn -> string)
        (out : load_outcome) :
  validate_operation py_repr exn_text out = []
  <-> exists data, out = Loaded data /\ well_formed data = true.
Proof.
  split.
  - intros H. destruct out as [msg | msg | data]; try discriminate.
    exists data. split; [ reflexivity | ].
    apply (accepted_loaded py_repr exn_text data), H.
  - intros (data & -> & H). apply (accepted_loaded py_repr exn_text data), H.
Qed.

Lemma filter_nil_iff {A : Type} (f : A -> bool) (l : list A) :
  filter f l = [] <-> forallb (fun x => negb (f x)) l = true.
Proof.
  induction l as [| a l IH]; simpl; [ tauto | ].
  destruct (f a); simpl; [ split; discriminate | exact IH ].
Qed.

(** X11.  The schema script exits with status 0 exactly when its path
    exists, it matched at least one file, and every matched file could
    be read and parsed into a well-formed document. *)
Theorem X11_schema_exit_zero
        (py_repr : value -> string) (exn_text : pyexn -> string)
        (path_exists : bool) (all_files : list (string * load_outcome)) :
  Schema.main py_repr exn_text path_exists all_files = 0%Z
  <-> path_exists = true /\ all_files <> []
      /\ forall f, In f all_files ->
                   exists data, snd f = Loaded data /\ well_formed data = true.
Proof.
  unfold Schema.main. destruct path_exists; cbn [negb].
  2:{ split; [ discriminate | intros [H _]; discriminate ]. }
  destruct all_files as [| f0 fs].
  { split; [ discriminate | intros (_ & H & _); contradiction ]. }
  set (files := f0 :: fs).
  set (bad := fun f : string * load_outcome =>
                match validate_operation py_repr exn_text (snd f) with
                | [] => false
                | _ => true
                end).
  assert (Hbad : forall f, bad f = false <->
                           exists data, snd f = Loaded data
                                        /\ well_formed data = true).
  { intros f. unfold bad.
    destruct (validate_operation py_repr exn_text (snd f)) as [| m w] eqn:E.
    - split; [ intros _ | reflexivity ].
      destruct (snd f) as [msg | msg | data]; try discriminate.
      exists data. split; [ reflexivity | ].
      apply (accepted_loaded py_repr exn_text data), E.
    - split; [ discriminate | ]. intros (data & Hs & Hw). rewrite Hs in E.
      apply (accepted_loaded py_repr exn_text data) in Hw. congruence. }
  destruct (filter bad files) as [| b bs] eqn:Ef; cbn [List.length Nat.ltb Nat.leb].
  - split; [ intros _ | reflexivity ].
    split; [ reflexivity | split; [ discriminate | ] ].
    intros f Hin. apply Hbad.
    apply filter_nil_iff in Ef. rewrite forallb_forall in Ef.
    apply negb_true_iff, Ef, Hin.
  - split; [ discriminate | ]. intros (_ & _ & Hall). exfalso.
    assert (Hb : In b (filter bad files)) by (rewrite Ef; left; reflexivity).
    apply filter_In in Hb as [Hin Hb].
    apply Hall, Hbad in Hin. congruence.
Qed.

(** ** A duration block that is no mapping *)

Section ScalarDuration.

Variable py_repr : value -> string.
Variable exn_text : pyexn -> string.

Lemma check_duration_scalar o du :
  dict_lookup "duration" o = Some du ->
  is_dict du = false -> is_list du = false -> is_str du = false ->
  check_duration py_repr (VDict o) = ([], Raise (NotIterable (type_name du))).
Proof.
  intros H Hd Hl Hs. unfold check_duration.
  change (py_contains "duration" (VDict o)) with (Ok (dict_has "duration" o)).
  rewrite mbind_lift_ok. unfold dict_has at 1. rewrite H. cbn [when].
  change (py_getitem (VDict o) "duration")
    with (match dict_lookup "duration" o with
          | Some v => Ok v | None => Raise (KeyError "duration") end).
  rewrite H, mbind_lift_ok.
  destruct du; try discriminate; reflexivity.
Qed.

(** X12.  When [operation.duration] holds null, a number or a boolean,
    the membership test on it raises: the validator returns the
    required-field messages, those of [operation_mode] and
    [capability], and one "Unexpected error" message, and reports
    nothing about the template, the flags, the parameters, the rollback
    or the validation block. *)
Theorem X12_scalar_duration_stops_validation d o du :
  d <> [] ->
  dict_lookup "operation" d = Some (VDict o) ->
  dict_lookup "duration" o = Some du ->
  is_dict du = false -> is_list du = false -> is_str du = false ->
  validate_operation py_repr exn_text (Loaded (VDict d)) =
  check_required (VDict d)
  ++ enum_msgs py_repr "operation_mode" VALID_OPERATION_MODES
               (dict_lookup "operation_mode" o)
  ++ enum_msgs py_repr "capability" VALID_CAPABILITIES
               (dict_lookup "capability" o)
  ++ ["Unexpected error: " +++ exn_text (NotIterable (type_name du))].
Proof.
  intros Hne Hop Hdu Hd Hl Hs.
  rewrite validate_loaded by (destruct d; [ contradiction | reflexivity ]).
  rewrite check_rest_unfold. cbn [py_get].
  rewrite (dict_get_lookup _ _ _ _ Hop), mbind_lift_ok, !check_field_enum_dict.
  rewrite (check_duration_scalar o du Hdu Hd Hl Hs), !mbind_pair_ok.
  cbn [mbind fst snd except_msgs exn_str]. rewrite !app_nil_r, <- !app_assoc.
  reflexivity.
Qed.

End ScalarDuration.

(** X12 at a document whose duration is null and whose template type
    is not allowed. *)
Lemma X12_scalar_duration_stops_validation_witness :
  validate_operation sample_repr sample_exn_text
    (Loaded (VDict [("operation",
                     VDict [("duration", VNull);
                            ("template", VDict [("type", VStr "bogus")])])]))
  = check_required (VDict [("operation",
                            VDict [("duration", VNull);
                                   ("template", VDict [("type", VStr "bogus")])])])
    ++ [] ++ [] ++ ["Unexpected error: <exception>"].
Proof.
  apply (X12_scalar_duration_stops_validation sample_repr sample_exn_text
           [("operation",
             VDict [("duration", VNull);
                    ("template", VDict [("type", VStr "bogus")])])]
           [("duration", VNull); ("template", VDict [("type", VStr "bogus")])]
           VNull); try reflexivity.
  discriminate.
Defined.

(** ** Dotted paths compose *)

Lemma split_on_nonempty sep s : split_on sep s <> [].
Proof.
  destruct s as [| c r]; simpl; [ discriminate | ].
  destruct (Ascii.eqb c sep); [ discriminate | ].
  destruct (split_on sep r); discriminate.
Qed.

Lemma split_on_app sep (p q : string) :
  split_on sep (p +++ String sep q) = split_on sep p ++ split_on sep q.
Proof.
  induction p as [| c r IH]; cbn [String.append split_on].
  - rewrite Ascii.eqb_refl. reflexivity.
  - rewrite IH. destruct (Ascii.eqb c sep); [ reflexivity | ].
    pose proof (split_on_nonempty sep r) as Hne.
    destruct (split_on sep r) as [| h t]; [ contradiction | reflexivity ].
Qed.

Lemma get_nested_app (l1 l2 : list string) :
  forall data,
    get_nested data (l1 ++ l2) =
    match get_nested data l1 with
    | (v, true) => get_nested v l2
    | (_, false) => (VNull, false)
    end.
Proof.
  induction l1 as [| part rest IH]; intros data; [ reflexivity | ].
  cbn [app get_nested]. destruct data; try reflexivity.
  destruct (dict_lookup part d) as [v |]; [ apply IH | reflexivity ].
Qed.

(** X13.  Looking up the dotted path [p.q] is looking up [p] and then
    [q] in what was found; when [p] does not exist, neither does
    [p.q], and the value returned is null. *)
Theorem X13_nested_path_composes (data : value) (p q : string) :
  get_nested_value data (p +++ "." +++ q) =
  match get_nested_value data p with
  | (v, true) => get_nested_value v q
  | (_, false) => (VNull, false)
  end.
Proof.
  unfold get_nested_value.
  change ("." +++ q) with (String "." q).
  rewrite split_on_app. apply get_nested_app.
Qed.

(** ** The empty-document message *)

Lemma required_msg_not_empty_doc data p :
  ~ In "Empty or invalid YAML file" (required_msg data p).
Proof.
  unfold required_msg. destruct (get_nested_value data p) as [v e].
  destruct e; cbn [negb]; [ destruct (is_blank v) | ]; simpl;
    intros H; try contradiction; destruct H as [H | []]; discriminate.
Qed.

(** X14.  The message "Empty or invalid YAML file" is returned, and
    then alone, exactly for a document that is falsy: null, an empty
    mapping, sequence or string, zero or [false]. *)
Theorem X14_empty_document_message
        (py_repr : value -> string) (exn_text : pyexn -> string) (data : value) :
  (validate_operation py_repr exn_text (Loaded data)
   = ["Empty or invalid YAML file"] <-> truthy data = false)
  /\ (In "Empty or invalid YAML file"
         (validate_operation py_repr exn_text (Loaded data))
      <-> truthy data = false).
Proof.
  destruct (truthy data) eqn:Et.
  - assert (Hno : ~ In "Empty or invalid YAML file"
                       (validate_operation py_repr exn_text (Loaded data))).
    { rewrite validate_loaded by exact Et. rewrite !in_app_iff.
      intros [H | [H | H]].
      - unfold check_required in H. apply in_flat_map in H as (p & _ & H).
        apply (required_msg_not_empty_doc data p H).
      - pose proof (check_rest_not_required py_repr data) as Hf.
        rewrite Forall_forall in Hf. apply Hf in H. discriminate.
      - pose proof (except_msgs_not_required exn_text
                      (snd (check_rest py_repr data))) as Hf.
        rewrite Forall_forall in Hf. apply Hf in H. discriminate. }
    split; (split; [ | discriminate ]); intros H; exfalso; apply Hno.
    + rewrite H. left. reflexivity.
    + exact H.
  - assert (E : validate_operation py_repr exn_text (Loaded data)
                = ["Empty or invalid YAML file"]).
    { unfold validate_operation, validate_body. rewrite Et. reflexivity. }
    rewrite E. split; (split; [ reflexivity | intros _ ]);
      [ reflexivity | left; reflexivity ].
Qed.

(** * The dependency script as a whole *)

Lemma detect_strs (depth : nat) (ops : operations) (cyc : list (list value)) :
  str_ids ops = true ->
  detect_circular_dependencies depth ops = Ok cyc ->
  Forall (Forall (fun v => is_str v = true)) cyc.
Proof.
  intros Hstr Hrun. unfold detect_circular_dependencies, detect_run in Hrun.
  destruct (roots_loop ops depth (keys ops) [] [] [])
    as [[cyc' log] | ex |] eqn:E; cbn [bind] in Hrun; try discriminate.
  injection Hrun as <-. cbn [fst].
  apply (roots_loop_strs ops Hstr depth (keys ops) [] [] [] cyc' log).
  - apply incl_refl.
  - constructor.
  - exact E.
Qed.

Lemma no_findings_iff_resolved (ops : operations) m :
  find_missing_dependencies ops = Ok m -> (m = [] <-> all_resolved ops).
Proof.
  intros Hm. pose proof (find_missing_loop_findings _ _ _ Hm) as Hf. split.
  - intros -> k op l e Hin Hr He Ht.
    destruct (py_in (resolve e) (keys ops)) eqn:Ep; [ reflexivity | ].
    exfalso. apply (Hf k (resolve e) (file op)).
    exists op, l, e. repeat split; auto.
  - intros Hall. destruct m as [| [[k v] f] m]; [ reflexivity | ].
    destruct (proj1 (Hf k v f) (or_introl eq_refl))
      as (op & l & e & Hin & _ & Hr & He & Hv & Ht & Hp).
    subst v. rewrite (Hall k op l e Hin Hr He Ht) in Hp. discriminate.
Qed.

(** X15.  On a non-empty list of files whose operations have string
    ids: if the dependency script exits with status 0, every entry
    that names an id names a loaded operation and the graph has no
    cycle.  When moreover the entries are hashable, every [requires]
    is falsy or has a length, and the interpreter allows at least as
    many nested calls of [dfs] as there are operations, [main]
    returns, with status 0 or 1, and 0 exactly in that case. *)
Theorem X15_dependency_exit_zero (depth : nat) (fs : list (string * load_outcome)) :
  fs <> [] ->
  str_ids (load_operations fs) = true ->
  (exit_status (Deps.main depth true fs) = 0%Z ->
   all_resolved (load_operations fs) /\ acyclic (load_operations fs)) /\
  (hashable_requires (load_operations fs) = true ->
   forallb (fun kd => sized_or_falsy (requires (snd kd))) (load_operations fs)
   = true ->
   List.length (load_operations fs) <= depth ->
   exists z, Deps.main depth true fs = Ok z
             /\ (z = 0%Z <-> all_resolved (load_operations fs)
                              /\ acyclic (load_operations fs))
             /\ (z = 0%Z \/ z = 1%Z)).
Proof.
  intros Hne Hstr. set (ops := load_operations fs) in *. split.
  - intros H0.
    destruct (proj1 (deps_main_zero depth fs Hne)) as [Hz _].
    destruct (Hz H0) as (Hm & Hc & _). fold ops in Hm, Hc. split.
    + apply (no_findings_iff_resolved ops [] Hm). reflexivity.
    + apply (detect_verdict depth ops [] Hstr Hc). reflexivity.
  - intros Hhash Hsized Hdepth.
    destruct (find_missing_loop_ok (keys ops) ops Hhash) as [missing Hm].
    destruct (detect_returns depth ops Hstr Hhash Hdepth) as [cyc Hc].
    pose proof (detect_verdict depth ops cyc Hstr Hc) as Hac.
    pose proof (print_cycles_ok cyc (detect_strs depth ops cyc Hstr Hc)) as Hp.
    destruct (stats_loop_sized ops (mk_stats (List.length ops) 0 0 0 None) Hsized)
      as [st Hst].
    pose proof (no_findings_iff_resolved ops missing Hm) as Hres.
    exists (match missing, cyc with [], [] => 0%Z | _, _ => 1%Z end).
    split.
    + unfold Deps.main. cbn [negb]. destruct fs as [| f fs']; [ contradiction | ].
      fold ops. unfold find_missing_dependencies. rewrite Hm. cbn [bind].
      rewrite Hc. cbn [bind]. rewrite Hp. cbn [bind].
      unfold build_dependency_stats. rewrite Hst. cbn [bind].
      destruct missing, cyc; reflexivity.
    + rewrite <- Hres, <- Hac.
      destruct missing as [| m0 ms], cyc as [| c0 cs]; (split; [ split | ]);
        try (intros _; tauto); try (intros H; discriminate H);
        try (intros [H1 H2]; discriminate); auto.
Qed.

(** X15 on two files, one requiring the other, with room for two
    nested calls. *)
Lemma X15_dependency_exit_zero_witness :
  exists z, Deps.main 2 true sample_files = Ok z
            /\ (z = 0%Z <-> all_resolved (load_operations sample_files)
                             /\ acyclic (load_operations sample_files))
            /\ (z = 0%Z \/ z = 1%Z).
Proof.
  apply (proj2 (X15_dependency_exit_zero 2 sample_files
                  ltac:(discriminate) eq_refl));
    [ reflexivity | reflexivity | apply le_n ].
Defined.

(** ** Printing the cycles *)

Lemma join_strs_raises sep (l : list value) :
  forallb is_str l = false -> exists ty, join_strs sep l = Raise (JoinNonStr ty).
Proof.
  induction l as [| v rest IH]; [ discriminate | ].
  cbn [forallb join_strs].
  destruct v; cbn [is_str andb]; try (intros _; eexists; reflexivity).
  intros H. destruct rest as [| w r]; [ discriminate | ].
  destruct (IH H) as [ty ->]. cbn [bind]. eexists. reflexivity.
Qed.

Lemma forallb_is_str (l : list value) :
  forallb is_str l = true -> Forall (fun v => is_str v = true) l.
Proof. intros H. apply Forall_forall. apply forallb_forall. exact H. Qed.

Lemma print_cycles_raises (cs : list (list value)) :
  forallb (forallb is_str) cs = false ->
  exists ty, print_cycles cs = Raise (JoinNonStr ty).
Proof.
  induction cs as [| c cs IH]; cbn [forallb print_cycles]; [ discriminate | ].
  destruct (forallb is_str c) eqn:Ec; cbn [andb].
  - destruct (join_strs_ok " -> " c (forallb_is_str c Ec)) as [t ->].
    cbn [bind]. exact IH.
  - intros _. destruct (join_strs_raises " -> " c Ec) as [ty ->]. cbn [bind].
    eexists. reflexivity.
Qed.

(** X16.  When the reference checker and the cycle detector have
    returned, [main] reports the cycles with [' -> '.join(cycle)]: if
    some reported cycle holds an id that is no string, the join raises
    a [TypeError], which leaves [main] before the statistics and ends
    the process with status 1; with string ids this cannot happen. *)
Theorem X16_cycle_report_needs_strings
        (depth : nat) (fs : list (string * load_outcome))
        (m : list (value * value * string)) (cyc : list (list value)) :
  fs <> [] ->
  find_missing_dependencies (load_operations fs) = Ok m ->
  detect_circular_dependencies depth (load_operations fs) = Ok cyc ->
  (forallb (forallb is_str) cyc = false ->
   exists ty, Deps.main depth true fs = Raise (JoinNonStr ty)
              /\ exit_status (Deps.main depth true fs) = 1%Z) /\
  (str_ids (load_operations fs) = true ->
   forallb (forallb is_str) cyc = true).
Proof.
  intros Hne Hm Hc. split.
  - intros Hbad. destruct (print_cycles_raises cyc Hbad) as [ty Hp].
    exists ty. unfold Deps.main. cbn [negb].
    destruct fs as [| f fs']; [ contradiction | ].
    rewrite Hm. cbn [bind]. rewrite Hc. cbn [bind]. rewrite Hp.
    split; reflexivity.
  - intros Hstr. pose proof (detect_strs depth _ cyc Hstr Hc) as Hs.
    apply forallb_forall. intros c Hin. apply forallb_forall. intros v Hv.
    rewrite Forall_forall in Hs. specialize (Hs c Hin).
    rewrite Forall_forall in Hs. apply (Hs v Hv).
Qed.

(** X16 on one file whose operation has the integer id 5 and requires
    itself. *)
Lemma X16_cycle_report_needs_strings_witness :
  exists ty, Deps.main 1 true int_id_files = Raise (JoinNonStr ty)
             /\ exit_status (Deps.main 1 true int_id_files) = 1%Z.
Proof.
  apply (proj1 (X16_cycle_report_needs_strings
                  1 int_id_files [] [[VInt 5; VInt 5]]
                  ltac:(discriminate) eq_refl eq_refl)).
  reflexivity.
Defined.

(** ** Blank values *)

Lemma lstrip_spaces (s : string) :
  forallb is_space (list_ascii_of_string (lstrip s))
  = forallb is_space (list_ascii_of_string s).
Proof.
  induction s as [| c r IH]; [ reflexivity | ].
  cbn [lstrip]. destruct (is_space c) eqn:E.
  - cbn [list_ascii_of_string forallb]. rewrite E. exact IH.
  - reflexivity.
Qed.

Lemma rstrip_nil (s : string) :
  rstrip s = "" <-> forallb is_space (list_ascii_of_string s) = true.
Proof.
  induction s as [| c r IH]; [ simpl; tauto | ].
  cbn [rstrip list_ascii_of_string forallb]. rewrite andb_true_iff, <- IH.
  destruct (rstrip r) as [| c' t].
  - destruct (is_space c); split; try tauto; try discriminate.
    intros [H _]. discriminate.
  - split; [ discriminate | intros [_ H]; discriminate ].
Qed.

Lemma is_blank_spaces (v : value) :
  is_blank v = true <->
  v = VNull \/ exists s, v = VStr s
                         /\ forallb is_space (list_ascii_of_string s) = true.
Proof.
  destruct v; cbn [is_blank];
    try (split; [ discriminate | intros [H | (s0 & H & _)]; discriminate ]).
  - split; auto.
  - unfold strip. rewrite String.eqb_eq, rstrip_nil, lstrip_spaces. split.
    + intros H. right. eauto.
    + intros [H | (s0 & H & Hs)]; [ discriminate | ]. injection H as <-. exact Hs.
Qed.

(** X17.  For documents whose strings hold characters below code
    point 256 only: a required path gets the message "Empty value for
    required field" exactly when it exists and holds null or a string
    made only of the characters 9-13, 28-32, 133 and 160, which are
    the ones [str.strip()] removes in that range (the empty string
    included). *)
Theorem X17_blank_required_value (data : value) (p : string) :
  required_msg data p = ["Empty value for required field: " +++ p]
  <-> exists v, get_nested_value data p = (v, true)
                /\ (v = VNull \/
                    exists s, v = VStr s
                              /\ forallb is_space (list_ascii_of_string s) = true).
Proof.
  unfold required_msg. destruct (get_nested_value data p) as [v e].
  destruct e; cbn [negb].
  - destruct (is_blank v) eqn:Eb.
    + split; [ intros _ | reflexivity ].
      exists v. split; [ reflexivity | apply is_blank_spaces, Eb ].
    + split; [ discriminate | ]. intros (v' & E & H). injection E as <-.
      apply is_blank_spaces in H. congruence.
  - split; [ intros H; cbn in H; discriminate | ].
    intros (v' & E & _). discriminate.
Qed.

(** ** The messages about parameters *)

Lemma template_block_ok_inv d o :
  dict_lookup "operation" d = Some (VDict o) ->
  template_block_ok (VDict d) = true ->
  dict_lookup "template" o = None \/
  exists t, dict_lookup "template" o = Some (VDict t).
Proof.
  intros Hop. unfold template_block_ok, get_nested_value.
  change (split_on "." "operation.template") with ["operation"; "template"].
  cbn [get_nested]. rewrite Hop.
  destruct (dict_lookup "template" o) as [v |]; [ | auto ].
  destruct v; simpl; try discriminate. intros _. right. eauto.
Qed.

Lemma str_append_assoc (a b c : string) : (a +++ b) +++ c = a +++ (b +++ c).
Proof.
  induction a as [| x a IH]; [ reflexivity | ].
  cbn [String.append]. rewrite IH. reflexivity.
Qed.

Lemma check_param_items_nth pt (items : list value) :
  forall i start p,
    nth_error items i = Some p ->
    incl (match p with
          | VDict pd =>
              missing_key_msg (param_prefix pt (start + i)) "name" pd
              ++ missing_key_msg (param_prefix pt (start + i)) "type" pd
              ++ missing_key_msg (param_prefix pt (start + i)) "description" pd
          | _ => [param_prefix pt (start + i) +++ " must be a dictionary"]
          end)
         (check_param_items pt start items).
Proof.
  induction items as [| q items IH]; intros i start p Hn; [ destruct i; discriminate | ].
  cbn [check_param_items]. destruct i as [| i].
  - injection Hn as ->. rewrite Nat.add_0_r. intros m Hm.
    apply in_or_app. left. exact Hm.
  - cbn [nth_error] in Hn. intros m Hm. apply in_or_app. right.
    rewrite <- Nat.add_succ_comm in Hm. apply (IH i (S start) p Hn m Hm).
Qed.

Section ParameterMessages.

Variable py_repr : value -> string.
Variable exn_text : pyexn -> string.

Lemma check_template_returns o :
  (dict_lookup "template" o = None \/
   exists t, dict_lookup "template" o = Some (VDict t)) ->
  exists w, check_template py_repr (VDict o) = (w, Ok tt).
Proof.
  intros [H | [t H]].
  - exists []. unfold check_template. cbn [py_contains].
    rewrite mbind_lift_ok. unfold dict_has. rewrite H. reflexivity.
  - eexists. apply check_template_dict, H.
Qed.

Lemma parameters_msgs_reported d o (m : string) :
  d <> [] ->
  dict_lookup "operation" d = Some (VDict o) ->
  duration_block_ok (VDict d) = true ->
  template_block_ok (VDict d) = true ->
  In m (fst (check_parameters (VDict o))) ->
  In m (validate_operation py_repr exn_text (Loaded (VDict d))).
Proof.
  intros Hne Hop Hdu Htp Hin.
  rewrite (validate_operation_dict py_repr exn_text d o Hne
             (dict_get_lookup _ _ _ _ Hop) (duration_block_ok_inv d o Hop Hdu)).
  do 4 (apply in_or_app; right). apply in_or_app. left.
  unfold after_duration.
  destruct (check_template_returns o (template_block_ok_inv d o Hop Htp)) as [wt ->].
  rewrite mbind_pair_ok. cbn [fst]. apply in_or_app. right.
  unfold check_optional_bools. rewrite mbind_pair_ok. cbn [fst].
  apply in_or_app. right. apply In_mbind_l, Hin.
Qed.

Lemma check_parameters_lists o pd pt (m : string) :
  dict_lookup "parameters" o = Some (VDict pd) ->
  pt = "required" \/ pt = "optional" ->
  In m (check_param_list pd pt) ->
  In m (fst (check_parameters (VDict o))).
Proof.
  intros Hp Hpt Hin. unfold check_parameters. cbn [py_contains py_getitem].
  rewrite mbind_lift_ok. unfold dict_has at 1. rewrite Hp. cbn [when].
  rewrite mbind_lift_ok.
  destruct (negb (dict_has "required" pd) && negb (dict_has "optional" pd));
    cbn [when]; unfold tell, ret; rewrite mbind_pair_ok; cbn [fst];
    apply in_or_app; right; apply in_or_app;
    destruct Hpt as [-> | ->]; auto.
Qed.

(** X18.  When nothing before the parameters raises (the duration and
    template blocks are absent or mappings), every ill-formed entry of
    [operation.parameters.required] or [.optional] is reported with
    its position, counted from 0: an entry that is no mapping as
    "must be a dictionary", and a mapping for each of [name], [type]
    and [description] that it lacks. *)
Theorem X18_parameter_entries_reported d o pd pt (items : list value) i p :
  dict_lookup "operation" d = Some (VDict o) ->
  duration_block_ok (VDict d) = true ->
  template_block_ok (VDict d) = true ->
  dict_lookup "parameters" o = Some (VDict pd) ->
  pt = "required" \/ pt = "optional" ->
  dict_lookup pt pd = Some (VList items) ->
  nth_error items i = Some p ->
  (is_dict p = false ->
   In ("operation.parameters." +++ pt +++ "[" +++ str_of_nat i
       +++ "] must be a dictionary")
      (validate_operation py_repr exn_text (Loaded (VDict d)))) /\
  (forall fields key,
     p = VDict fields -> In key ["name"; "type"; "description"] ->
     dict_has key fields = false ->
     In ("operation.parameters." +++ pt +++ "[" +++ str_of_nat i
         +++ "] missing '" +++ key +++ "'")
        (validate_operation py_repr exn_text (Loaded (VDict d)))).
Proof.
  intros Hop Hdu Htp Hp Hpt Hl Hn.
  assert (Hne : d <> []) by (intros ->; discriminate).
  pose proof (check_param_items_nth pt items i 0 p Hn) as Hincl.
  cbn [Nat.add] in Hincl.
  assert (Hrep : forall m,
             In m (check_param_items pt 0 items) ->
             In m (validate_operation py_repr exn_text (Loaded (VDict d)))).
  { intros m Hm. apply (parameters_msgs_reported d o m Hne Hop Hdu Htp).
    apply (check_parameters_lists o pd pt m Hp Hpt).
    unfold check_param_list. rewrite Hl. exact Hm. }
  split.
  - intros Hnd. apply Hrep, Hincl.
    destruct p; try discriminate; left; unfold param_prefix;
      rewrite !str_append_assoc; reflexivity.
  - intros fields key -> Hkey Hmiss. apply Hrep, Hincl.
    assert (Hm : In ("operation.parameters." +++ pt +++ "[" +++ str_of_nat i
                     +++ "] missing '" +++ key +++ "'")
                    (missing_key_msg (param_prefix pt i) key fields)).
    { unfold missing_key_msg. rewrite Hmiss. left. unfold param_prefix.
      rewrite !str_append_assoc. reflexivity. }
    destruct Hkey as [<- | [<- | [<- | []]]].
    + apply in_or_app. left. exact Hm.
    + apply in_or_app. right. apply in_or_app. left. exact Hm.
    + apply in_or_app. right. apply in_or_app. right. exact Hm.
Qed.

End ParameterMessages.

(** X18 at a list of required parameters whose second entry is the
    number 5. *)
Lemma X18_parameter_entries_reported_witness :
  In "operation.parameters.required[1] must be a dictionary"
     (validate_operation sample_repr sample_exn_text
        (Loaded (VDict [("operation",
                         VDict [("parameters",
                                 VDict [("required",
                                         VList [VDict [("name", VStr "x")];
                                                VInt 5])])])]))).
Proof.
  apply (proj1 (X18_parameter_entries_reported sample_repr sample_exn_text
                  [("operation",
                    VDict [("parameters",
                            VDict [("required",
                                    VList [VDict [("name", VStr "x")];
                                           VInt 5])])])]
                  [("parameters",
                    VDict [("required",
                            VList [VDict [("name", VStr "x")]; VInt 5])])]
                  [("required", VList [VDict [("name", VStr "x")]; VInt 5])]
                  "required" [VDict [("name", VStr "x")]; VInt 5] 1 (VInt 5)
                  eq_refl eq_refl eq_refl eq_refl (or_introl eq_refl)
                  eq_refl eq_refl)).
  reflexivity.
Defined.

(** * Self-loops *)






Lemma set_add_keeps (x y : value) (s : list value) :
  In y s -> In y (set_add x s).
Proof.
  intros H. unfold set_add. destruct (py_in x s); [ exact H | ].
  apply in_or_app. left. exact H.
Qed.

Lemma set_add_inv (x y : value) (s : list value) :
  In y (set_add x s) -> In y s \/ y = x.
Proof.
  unfold set_add. destruct (py_in x s); [ auto | ].
  rewrite in_app_iff. simpl. intuition congruence.
Qed.










Section SelfLoops.

Variable ops : operations.
Hypothesis Hstr : str_ids ops = true.




End SelfLoops.





